(** * Statement-level contract generator of symbols-extractor

    A shallow embedding of [pkg/parser/statement/statement_parser.go], of
    the symbol-table stack it drives ([package stack]) and of the contract
    records of [package contracts], followed by the properties of the
    statement parser that the specification states.

    Go values are modelled as follows.
    - [int] is [Z]; slices are lists; a [nil] slice and an empty slice are
      both the empty list (the Go parser never builds an empty non-nil
      statement, name or expression list).
    - An interface value that the code tests against [nil] is an [option],
      except [ast.Expr], whose [nil] is the constructor [ast.NilExpr].
    - A Go function returning [error] is a computation in the monad [M]:
      it returns [Ok], returns [Err] or panics, and in all three cases the
      mutable state (symbol-table stack, contract table, allocation table,
      [lastConstType]) is the one reached at that point.
    - [defer] is the combinator [defer_], which runs the deferred call on
      every exit, panics included. *)

From stdpp Require Import gmap strings list pretty.

#[local] Set Warnings "-register-all".

Open Scope string_scope.
Open Scope Z_scope.

(** ** go/token and go/ast *)

Module token.

Inductive Token :=
| DEFINE          (* := *)
| ASSIGN          (* =  *)
| ARROW           (* <- *)
| Other (name : string).

Definition is_DEFINE (t : Token) : bool :=
  match t with DEFINE => true | _ => false end.

Definition is_ARROW (t : Token) : bool :=
  match t with ARROW => true | _ => false end.

End token.

Module ast.

(** Expressions.  The statement parser inspects the outermost form of
    identifiers, parentheses, selectors, dereferences, index, call,
    type-assertion and unary expressions; every other form is handed to
    the expression or type parser unopened. *)
Inductive Expr :=
| NilExpr
| Ident (Name : string) (NamePos : Z)
| ParenExpr (X : Expr)
| SelectorExpr (X : Expr) (Sel : string)
| StarExpr (X : Expr)
| IndexExpr (X Index : Expr)
| CallExpr (Fun : Expr) (Args : list Expr)
| TypeAssertExpr (X Type_ : Expr)
| UnaryExpr (Op : token.Token) (X : Expr)
| BinaryExpr (X : Expr) (Op : token.Token) (Y : Expr)
| BasicLit (Kind Value : string)
| CompositeLit (Type_ : Expr) (Elts : list Expr).

Definition is_nil (e : Expr) : bool :=
  match e with NilExpr => true | _ => false end.

(** An [*ast.Ident] as it occurs in name lists. *)
Record IdentT := mkIdent { Name : string; NamePos : Z }.

Inductive Spec :=
| ImportSpec
| ValueSpec (Names : list IdentT) (Type_ : Expr) (Values : list Expr)
| TypeSpec (Name : IdentT) (Type_ : Expr).

Inductive Decl :=
| BadDecl
| GenDecl (Specs : list Spec)
| FuncDecl_.

Inductive Stmt :=
| BadStmt
| DeclStmt (Decl_ : Decl)
| EmptyStmt
| LabeledStmt (Label : string) (Stmt_ : Stmt)
| ExprStmt (X : Expr)
| SendStmt (Chan Value : Expr)
| IncDecStmt (X : Expr)
| AssignStmt (Lhs : list Expr) (Tok : token.Token) (Rhs : list Expr)
| GoStmt (Call : Expr)
| DeferStmt (Call : Expr)
| ReturnStmt (Results : list Expr)
| BranchStmt
| BlockStmt (List_ : list Stmt)
| IfStmt (Init : option Stmt) (Cond : Expr) (Body : list Stmt)
         (Else : option Stmt)
| CaseClause (Pos : Z) (List_ : list Expr) (Body : list Stmt)
| SwitchStmt (Init : option Stmt) (Tag : Expr) (Body : list Stmt)
| TypeSwitchStmt (Init : option Stmt) (Assign : option Stmt)
                 (Body : list Stmt)
| CommClause (Comm : option Stmt) (Body : list Stmt)
| SelectStmt (Body : list Stmt)
| ForStmt (Init : option Stmt) (Cond : Expr) (Post : option Stmt)
          (Body : list Stmt)
| RangeStmt (Key Value : Expr) (Tok : token.Token) (X : Expr)
            (Body : list Stmt).

Record Field := mkField { Names : list IdentT; Type_ : Expr }.

Record FuncDecl := mkFuncDecl {
  Recv : option (list Field);
  FuncName : option IdentT;
  Params : option (list Field);
  Results : option (list Field);
  Body : option (list Stmt)
}.

End ast.

(** ** Data types, symbols, type variables *)

Module gotypes.

(** Modelled from the spec: [pkg/types] is not among the sources; the
    variants are those of the data model, with the field names the
    statement parser uses ([Def], [Untyped], [Package], [Elmtype],
    [Keytype], [Valuetype], [Value], [Receiver]).  Nested positions hold a
    data type. *)
Inductive DataType :=
| Builtin (Def : string) (Untyped : bool)
| Identifier (Def : string) (Package : string)
| Pointer (Def : DataType)
| Array (Len : Z) (Elmtype : DataType)
| Slice (Elmtype : DataType)
| Map (Keytype Valuetype : DataType)
| Channel (Dir : string) (Value : DataType)
| Ellipsis (Def : DataType)
| Function (Params Results : list DataType) (Variadic : bool)
| Method (Receiver Def : DataType)
| Interface (Methods : list (string * DataType))
| Struct (Fields : list (string * DataType))
| PackageQualifier (Name Path : string).

(** [SymbolDef]; [Def] is [None] while a type declaration is in
    progress. *)
Record SymbolDef := mkSymbolDef {
  Name : string;
  Package : string;
  Def : option DataType;
  Pos : string
}.

Definition is_iota (d : DataType) : bool :=
  match d with
  | Builtin def _ => bool_decide (def = "iota")
  | _ => false
  end.

End gotypes.

Module typevars.

(** Modelled from the spec: [contracts/typevars] is not among the
    sources; the variants and constructors are those of the data model. *)
Inductive Interface :=
| Variable_ (Package Name Pos : string)
| Constant (Package : string) (DataType : gotypes.DataType)
| VirtualVar (Index : Z)
| CGO
| RangeKey (X : Interface)
| RangeValue (X : Interface)
| ListKey (X : Interface)
| MapKey (X : Interface)
| Argument (Function : Interface) (Index : Z)
| ReturnType (Function : Interface) (Index : Z)
| Field (X : Interface) (Name : string) (Index : Z).

Definition MakeConstant (pkg : string) (d : gotypes.DataType) : Interface :=
  Constant pkg d.

Definition VariableFromSymbolDef (s : gotypes.SymbolDef) : Interface :=
  Variable_ (gotypes.Package s) (gotypes.Name s) (gotypes.Pos s).

Definition MakeRangeKey (x : Interface) : Interface := RangeKey x.
Definition MakeRangeValue (x : Interface) : Interface := RangeValue x.

End typevars.

(** ** Contracts ([package contracts]) *)

Module contracts.

Inductive Contract :=
| BinaryOp (OpToken : token.Token) (X Y Z : typevars.Interface)
           (ExpectedType : option gotypes.DataType)
| UnaryOp (OpToken : token.Token) (X Y : typevars.Interface)
          (ExpectedType : option gotypes.DataType)
| PropagatesTo (X Y : typevars.Interface)
               (ExpectedType : option gotypes.DataType)
| IsCompatibleWith (X Y : typevars.Interface)
                   (ExpectedType : option gotypes.DataType) (Weak : bool)
| IsInvocable (F : typevars.Interface) (ArgsCount : Z)
| HasField (X : typevars.Interface) (Field : string) (Index : Z)
| IsReferenceable (X : typevars.Interface)
| ReferenceOf (X Y : typevars.Interface)
| IsDereferenceable (X : typevars.Interface)
| DereferenceOf (X Y : typevars.Interface)
| IsIndexable (X : typevars.Interface) (Key : option typevars.Interface)
              (IsSlice : bool)
| IsSendableTo (X Y : typevars.Interface)
| IsReceiveableFrom (X Y : typevars.Interface)
                    (ExpectedType : option gotypes.DataType)
| IsIncDecable (X : typevars.Interface)
| IsRangeable (X : typevars.Interface).

Definition GetType (c : Contract) : string :=
  match c with
  | BinaryOp _ _ _ _ _ => "binaryop"
  | UnaryOp _ _ _ _ => "unaryop"
  | PropagatesTo _ _ _ => "propagatesto"
  | IsCompatibleWith _ _ _ _ => "iscompatiblewith"
  | IsInvocable _ _ => "isinvocable"
  | HasField _ _ _ => "hasfield"
  | IsReferenceable _ => "isreferenceable"
  | ReferenceOf _ _ => "referenceof"
  | IsDereferenceable _ => "Isdereferenceable"
  | DereferenceOf _ _ => "dereferenceOf"
  | IsIndexable _ _ _ => "isindexable"
  | IsSendableTo _ _ => "issendableto"
  | IsReceiveableFrom _ _ _ => "isreceiveablefrom"
  | IsIncDecable _ => "isincdecable"
  | IsRangeable _ => "israngeable"
  end.

(** Modelled from the spec: the contract table is not among the
    sources.  It is an append-only sequence in emission order together
    with the counter of virtual variables. *)
Record Table := mkTable {
  Contracts : list Contract;
  NextVirtual : Z
}.

Definition New : Table := mkTable [] 0.

Definition AddContract (c : Contract) (t : Table) : Table :=
  mkTable (Contracts t ++ [c]) (NextVirtual t).

Definition NewVirtualVar (t : Table) : typevars.Interface * Table :=
  (typevars.VirtualVar (NextVirtual t),
   mkTable (Contracts t) (NextVirtual t + 1)).

End contracts.


(** ** Results of Go calls *)

(** A Go [error] value: built by [fmt.Errorf] (the message text is kept
    without the formatted arguments), or wrapping another error. *)
Inductive error :=
| Errorf (msg : string)
| Wrapf (prefix : string) (err : error).

(** The three ways a call ends: it returns a value and a [nil] error, it
    returns a non-nil error, or it panics. *)
Inductive Res (A : Type) :=
| Ok (a : A)
| Err (e : error)
| Panic (msg : string).

Arguments Ok {A} a.
Arguments Err {A} e.
Arguments Panic {A} msg.

Definition is_Ok {A} (r : Res A) : bool :=
  match r with Ok _ => true | _ => false end.

Definition is_Err {A} (r : Res A) : bool :=
  match r with Err _ => true | _ => false end.

Definition is_Panic {A} (r : Res A) : bool :=
  match r with Panic _ => true | _ => false end.

(** ** Per-scope symbol table *)

Module symboltable.

(** Modelled from the spec: [parser/symboltable] is not among the
    sources.  A table maps [(name, kind)] to a symbol definition; adding
    rejects a duplicate of the same kind, except that a data type whose
    stored [Def] is null may be completed. *)
Inductive SymbolType := VariableSymbol | FunctionSymbol | DataTypeSymbol.

#[global] Instance SymbolType_eq_dec : EqDecision SymbolType.
Proof. solve_decision. Defined.

#[global] Instance SymbolType_countable : Countable SymbolType.
Proof.
  refine (inj_countable'
            (fun k => match k with
                      | VariableSymbol => 0%nat
                      | FunctionSymbol => 1%nat
                      | DataTypeSymbol => 2%nat
                      end)
            (fun n => match n with
                      | 0%nat => VariableSymbol
                      | 1%nat => FunctionSymbol
                      | _ => DataTypeSymbol
                      end) _).
  by intros [].
Defined.

Abbreviation Table := (gmap (string * SymbolType) gotypes.SymbolDef).

Definition NewTable : Table := ∅.

Definition AddVariable (sym : gotypes.SymbolDef) (t : Table) : Res Table :=
  match t !! (gotypes.Name sym, VariableSymbol) with
  | Some _ => Err (Errorf "symbol already exists")
  | None => Ok (<[(gotypes.Name sym, VariableSymbol) := sym]> t)
  end.

Definition AddFunction (sym : gotypes.SymbolDef) (t : Table) : Res Table :=
  match t !! (gotypes.Name sym, FunctionSymbol) with
  | Some _ => Err (Errorf "symbol already exists")
  | None => Ok (<[(gotypes.Name sym, FunctionSymbol) := sym]> t)
  end.

Definition AddDataType (sym : gotypes.SymbolDef) (t : Table) : Res Table :=
  match t !! (gotypes.Name sym, DataTypeSymbol) with
  | Some old =>
      match gotypes.Def old with
      | None => Ok (<[(gotypes.Name sym, DataTypeSymbol) := sym]> t)
      | Some _ => Err (Errorf "symbol already exists")
      end
  | None => Ok (<[(gotypes.Name sym, DataTypeSymbol) := sym]> t)
  end.

Definition LookupVariable (name : string) (t : Table)
  : Res gotypes.SymbolDef :=
  match t !! (name, VariableSymbol) with
  | Some d => Ok d
  | None => Err (Errorf "symbol not found")
  end.

Definition Lookup (name : string) (t : Table)
  : Res (gotypes.SymbolDef * SymbolType) :=
  match t !! (name, VariableSymbol) with
  | Some d => Ok (d, VariableSymbol)
  | None =>
      match t !! (name, FunctionSymbol) with
      | Some d => Ok (d, FunctionSymbol)
      | None =>
          match t !! (name, DataTypeSymbol) with
          | Some d => Ok (d, DataTypeSymbol)
          | None => Err (Errorf "symbol not found")
          end
      end
  end.

End symboltable.

(** ** The symbol-table stack ([package stack]) *)

Module stack.

Record Stack := mkStack {
  Tables : list symboltable.Table;
  Size : Z
}.

Definition New : Stack := mkStack [] 0.

(** [Tables[i]]; an index outside the slice panics. *)
Definition table_at (s : Stack) (i : Z) : option symboltable.Table :=
  if decide (0 <= i) then Tables s !! Z.to_nat i else None.

Definition Push (s : Stack) : Stack :=
  mkStack (Tables s ++ [symboltable.NewTable]) (Size s + 1).

(** The methods below are the code's on the stacks it builds, those
    with [Size = len(Tables)] ([wf] below, kept by every method from [New]
    on): there [Size] is far from the ends of [int], every index and slice
    bound is within the length, and a reslice [s.Tables[:n]] is the prefix
    of length [n].  Off these stacks Go would wrap [Size - 1] around, index
    out of range or reslice into the capacity; the properties are stated on the stacks
    with [wf].

    [s.Tables[:s.Size-1]] is the prefix of that length. *)
Definition Pop (s : Stack) : Res unit * Stack :=
  if decide (Size s > 0)
  then (Ok tt, mkStack (take (Z.to_nat (Size s - 1)) (Tables s)) (Size s - 1))
  else (Panic "Popping over an empty stack of symbol tables", s).

(** The three [Add] methods update the table at index [Size-1] in place. *)
Definition addAtTop
    (add : gotypes.SymbolDef -> symboltable.Table -> Res symboltable.Table)
    (sym : gotypes.SymbolDef) (s : Stack) : Res unit * Stack :=
  if decide (Size s > 0) then
    match table_at s (Size s - 1) with
    | None => (Panic "index out of range", s)
    | Some t =>
        match add sym t with
        | Ok t' =>
            (Ok tt, mkStack (<[Z.to_nat (Size s - 1) := t']> (Tables s))
                            (Size s))
        | Err e => (Err e, s)
        | Panic p => (Panic p, s)
        end
    end
  else (Err (Errorf "Symbol table stack is empty"), s).

Definition AddVariable := addAtTop symboltable.AddVariable.
Definition AddDataType := addAtTop symboltable.AddDataType.
Definition AddFunction := addAtTop symboltable.AddFunction.

(** [for i := s.Size - 1; i >= 0; i--]: [n] is [i+1]. *)
Fixpoint lookupVariableFrom (name : string) (s : Stack) (n : nat)
  : Res gotypes.SymbolDef :=
  match n with
  | O => Err (Errorf "Symbol not found")
  | S i =>
      match Tables s !! i with
      | None => Panic "index out of range"
      | Some t =>
          match symboltable.LookupVariable name t with
          | Ok d => Ok d
          | _ => lookupVariableFrom name s i
          end
      end
  end.

(** On a stack with [Size = len(Tables)] the loop starts at the innermost
    table. *)
Definition LookupVariable (name : string) (s : Stack)
  : Res gotypes.SymbolDef :=
  lookupVariableFrom name s (Z.to_nat (Size s)).

Fixpoint lookupFrom (name : string) (s : Stack) (n : nat)
  : Res (gotypes.SymbolDef * symboltable.SymbolType) :=
  match n with
  | O => Err (Errorf "Symbol not found")
  | S i =>
      match Tables s !! i with
      | None => Panic "index out of range"
      | Some t =>
          match symboltable.Lookup name t with
          | Ok d => Ok d
          | _ => lookupFrom name s i
          end
      end
  end.

(** As [LookupVariable], on a stack with [Size = len(Tables)]. *)
Definition Lookup (name : string) (s : Stack)
  : Res (gotypes.SymbolDef * symboltable.SymbolType) :=
  lookupFrom name s (Z.to_nat (Size s)).

(** [s.Tables[:level+1]] for a level within a stack with
    [Size = len(Tables)] is the prefix of that length. *)
Definition Reset (level : Z) (s : Stack) : Res unit * Stack :=
  if decide (level < 0 \/ Size s - 1 < level)
  then (Err (Errorf "Level out of range"), s)
  else if decide (level = 0)
       then (Ok tt, mkStack (take 1 (Tables s)) 1)
       else (Ok tt, mkStack (take (Z.to_nat (level + 1)) (Tables s))
                            (level + 1)).

(** [s.Tables[level]] for a level within a stack with
    [Size = len(Tables)]. *)
Definition Table (level : Z) (s : Stack) : Res symboltable.Table :=
  if decide (level < 0 \/ Size s - 1 < level)
  then Err (Errorf "No symbol table found for level")
  else match table_at s level with
       | Some t => Ok t
       | None => Panic "index out of range"
       end.

(** Modelled from the spec: [CurrentLevel] is used by the statement
    parser but is not in the stack source; level 0 is the file level, so the
    level of the innermost table is [Size - 1]. *)
Definition CurrentLevel (s : Stack) : Z := Size s - 1.

(** The stacks built by [New], [Push], [Pop], [Add...] and [Reset]: the
    domain of the methods above. *)
Definition wf (s : Stack) : Prop := Size s = Z.of_nat (length (Tables s)).

End stack.

(** ** The allocation table *)

Module alloctable.

(** Modelled from the spec: [parser/alloctable] is not among the
    sources.  [AddDataType] records a use of a package-level data type;
    [Lock] and [Unlock] bracket the binding of a function header. *)
Record Table := mkTable {
  Locked : bool;
  DataTypes : list (string * string * string)
}.

Definition New : Table := mkTable false [].
Definition Lock (t : Table) : Table := mkTable true (DataTypes t).
Definition Unlock (t : Table) : Table := mkTable false (DataTypes t).
Definition AddDataType (pkg name pos : string) (t : Table) : Table :=
  mkTable (Locked t) (DataTypes t ++ [(pkg, name, pos)]).

End alloctable.

(** ** Parser state and the monad of parser methods *)

(** The mutable objects a [Parser] reaches through its [Config], and its
    own field [lastConstType]. *)
Record State := mkState {
  SymbolTable : stack.Stack;
  ContractTable : contracts.Table;
  AllocatedSymbolsTable : alloctable.Table;
  lastConstType : option gotypes.DataType
}.

Definition set_SymbolTable (s : stack.Stack) (st : State) : State :=
  mkState s (ContractTable st) (AllocatedSymbolsTable st) (lastConstType st).

Definition set_ContractTable (c : contracts.Table) (st : State) : State :=
  mkState (SymbolTable st) c (AllocatedSymbolsTable st) (lastConstType st).

Definition set_AllocatedSymbolsTable (a : alloctable.Table) (st : State)
  : State :=
  mkState (SymbolTable st) (ContractTable st) a (lastConstType st).

Definition set_lastConstType (d : option gotypes.DataType) (st : State)
  : State :=
  mkState (SymbolTable st) (ContractTable st) (AllocatedSymbolsTable st) d.

Definition M (A : Type) : Type := State -> Res A * State.

Definition ret {A} (a : A) : M A := fun st => (Ok a, st).

Definition bind {A B} (m : M A) (k : A -> M B) : M B :=
  fun st =>
    match m st with
    | (Ok a, st') => k a st'
    | (Err e, st') => (Err e, st')
    | (Panic p, st') => (Panic p, st')
    end.

Definition fail {A} (e : error) : M A := fun st => (Err e, st).
Definition panic {A} (msg : string) : M A := fun st => (Panic msg, st).

Declare Scope go_scope.
Delimit Scope go_scope with go.
Notation "'let*' x ':=' m 'in' k" := (bind m (fun x => k))
  (at level 10, x pattern, m at level 100, k at level 200) : go_scope.
Notation "m ;; k" := (bind m (fun _ => k))
  (at level 100, k at level 200, right associativity) : go_scope.
Open Scope go_scope.

(** [v, err := f(); if err != nil { ... }] where the error branch does
    something other than returning [err]: the error is handed to the
    continuation. *)
Definition try_ {A} (m : M A) : M (error + A) :=
  fun st =>
    match m st with
    | (Ok a, st') => (Ok (inr a), st')
    | (Err e, st') => (Ok (inl e), st')
    | (Panic p, st') => (Panic p, st')
    end.

(** A call whose returned error is dropped ([f()] as a statement). *)
Definition ignore_err {A} (m : M A) : M unit :=
  let* _ := try_ m in ret tt.

(** [if err != nil { return fmt.Errorf(prefix + ": %v", err) }]. *)
Definition wrap_err {A} (prefix : string) (m : M A) : M A :=
  let* r := try_ m in
  match r with
  | inl e => fail (Wrapf prefix e)
  | inr a => ret a
  end.

(** [defer d()] followed by [m]: [d] runs when [m] returns or panics; its
    own result is dropped unless it panics. *)
Definition defer_ {A} (d : M unit) (m : M A) : M A :=
  fun st =>
    match m st with
    | (r, st1) =>
        match d st1 with
        | (Panic p, st2) => (Panic p, st2)
        | (_, st2) => (r, st2)
        end
    end.

(** [l[i]]: an index out of range panics. *)
Definition index {A} (l : list A) (i : nat) : M A :=
  match l !! i with
  | Some a => ret a
  | None => panic "index out of range"
  end.

Definition len {A} (l : list A) : Z := Z.of_nat (length l).

(** Methods of the shared objects, lifted to [M]. *)
Definition liftStack {A} (f : stack.Stack -> Res A * stack.Stack) : M A :=
  fun st =>
    match f (SymbolTable st) with
    | (r, s') => (r, set_SymbolTable s' st)
    end.

Definition readStack {A} (f : stack.Stack -> Res A) : M A :=
  fun st => (f (SymbolTable st), st).

Definition Push : M unit :=
  fun st => (Ok tt, set_SymbolTable (stack.Push (SymbolTable st)) st).
Definition Pop : M unit := liftStack stack.Pop.
Definition AddVariable (sym : gotypes.SymbolDef) : M unit :=
  liftStack (stack.AddVariable sym).
Definition AddDataType (sym : gotypes.SymbolDef) : M unit :=
  liftStack (stack.AddDataType sym).
Definition LookupVariable (name : string) : M gotypes.SymbolDef :=
  readStack (stack.LookupVariable name).
Definition Lookup (name : string)
  : M (gotypes.SymbolDef * symboltable.SymbolType) :=
  readStack (stack.Lookup name).
Definition CurrentLevel : M Z :=
  fun st => (Ok (stack.CurrentLevel (SymbolTable st)), st).

Definition AddContract (c : contracts.Contract) : M unit :=
  fun st =>
    (Ok tt, set_ContractTable (contracts.AddContract c (ContractTable st)) st).

Definition NewVirtualVar : M typevars.Interface :=
  fun st =>
    match contracts.NewVirtualVar (ContractTable st) with
    | (y, c) => (Ok y, set_ContractTable c st)
    end.

Definition Lock : M unit :=
  fun st =>
    (Ok tt,
     set_AllocatedSymbolsTable (alloctable.Lock (AllocatedSymbolsTable st)) st).

Definition Unlock : M unit :=
  fun st =>
    (Ok tt,
     set_AllocatedSymbolsTable
       (alloctable.Unlock (AllocatedSymbolsTable st)) st).

(** ** Configuration and collaborators *)

(** The expression parser's attribute record. *)
Record ExprAttr := mkExprAttr {
  DataTypeList : list gotypes.DataType;
  TypeVarList : list typevars.Interface
}.

(** The immutable part of [types.Config], with the collaborating parsers
    whose code is outside the statement parser: the expression parser, the
    type parser and the symbols accessor.  Each may read and write the
    whole state. *)
Record Config := mkConfig {
  PackageName : string;
  FileName : string;
  ExprParser_Parse : ast.Expr -> M ExprAttr;
  TypeParser_Parse : ast.Expr -> M gotypes.DataType;
  FindFirstNonidDataType : gotypes.DataType -> M gotypes.DataType
}.

(** [fmt.Sprintf("%v:%v", sp.Config.FileName, pos)]. *)
Definition SymbolPos (cfg : Config) (pos : Z) : string :=
  FileName cfg +:+ ":" +:+ pretty pos.

(** ** The statement parser ([package statement]) *)

Section Parser.

Context (cfg : Config).

Definition setLastConstType (d : gotypes.DataType) : M unit :=
  fun st => (Ok tt, set_lastConstType (Some d) st).

Definition getLastConstType : M (option gotypes.DataType) :=
  fun st => (Ok (lastConstType st), st).

Definition AllocAddDataType (pkg name pos : string) : M unit :=
  fun st =>
    (Ok tt,
     set_AllocatedSymbolsTable
       (alloctable.AddDataType pkg name pos (AllocatedSymbolsTable st)) st).

Definition parseReceiver (receiver : ast.Expr) (skip_allocated : bool)
  : M gotypes.DataType :=
  match receiver with
  | ast.Ident name pos =>
      let* r := Lookup name in
      (if skip_allocated then ret tt
       else AllocAddDataType (gotypes.Package (fst r)) name
                             (SymbolPos cfg pos)) ;;
      ret (gotypes.Identifier name (PackageName cfg))
  | ast.StarExpr (ast.Ident name pos) =>
      let* r := Lookup name in
      (if skip_allocated then ret tt
       else AllocAddDataType (gotypes.Package (fst r)) name
                             (SymbolPos cfg pos)) ;;
      ret (gotypes.Pointer (gotypes.Identifier name (PackageName cfg)))
  | ast.StarExpr _ =>
      fail (Errorf "Method receiver is not a pointer to an identifier")
  | _ =>
      fail (Errorf
        "Method receiver is not a pointer to an identifier not an identifier")
  end.

(** *** ParseValueSpec *)

(** [&symbols.SymbolDef{Name: name.Name, Package: sp.PackageName, Def: def,
    Pos: fmt.Sprintf("%v:%v", sp.Config.FileName, name.Pos())}]. *)
Definition newSymbol (name : string) (pos : Z) (def : gotypes.DataType)
  : gotypes.SymbolDef :=
  gotypes.mkSymbolDef name (PackageName cfg) (Some def) (SymbolPos cfg pos).

(** [if sp.SymbolTable.CurrentLevel() > 0 { sDef.Package = "" }]. *)
Definition clearPackageBelowFile (sDef : gotypes.SymbolDef)
  : M gotypes.SymbolDef :=
  let* lvl := CurrentLevel in
  if decide (lvl > 0)
  then ret (gotypes.mkSymbolDef (gotypes.Name sDef) "" (gotypes.Def sDef)
                                (gotypes.Pos sDef))
  else ret sDef.

(** The loop of the branch [vLen == 1] whose value is not [iota]: name
    [i] takes position [i] of the attribute of the single value. *)
Fixpoint valueSpecTuple (typeDef : option gotypes.DataType)
    (attr : ExprAttr) (names : list ast.IdentT) (i : nat)
    (symbolsDef : list gotypes.SymbolDef) : M (list gotypes.SymbolDef) :=
  match names with
  | [] => ret symbolsDef
  | name :: rest =>
      if bool_decide (ast.Name name = "_")
      then valueSpecTuple typeDef attr rest (S i) symbolsDef
      else
        match typeDef with
        | None =>
            let* d := index (DataTypeList attr) i in
            let* sDef := clearPackageBelowFile
                           (newSymbol (ast.Name name) (ast.NamePos name) d) in
            let* tv := index (TypeVarList attr) i in
            AddContract (contracts.PropagatesTo
                           tv (typevars.VariableFromSymbolDef sDef)
                           (gotypes.Def sDef)) ;;
            valueSpecTuple typeDef attr rest (S i) (symbolsDef ++ [sDef])
        | Some t =>
            let* sDef := clearPackageBelowFile
                           (newSymbol (ast.Name name) (ast.NamePos name) t) in
            let* tv := index (TypeVarList attr) i in
            AddContract (contracts.IsCompatibleWith
                           tv (typevars.VariableFromSymbolDef sDef)
                           (gotypes.Def sDef) false) ;;
            valueSpecTuple typeDef attr rest (S i) (symbolsDef ++ [sDef])
        end
  end.

(** [builtin.Def = "int"; builtin.Untyped = true] when the builtin is
    [iota]: the data type of the attribute is updated in place, so the
    symbol definition built from it afterwards and [lastConstType] see the
    promoted type. *)
Definition promoteIota (d : gotypes.DataType) : gotypes.DataType :=
  if gotypes.is_iota d then gotypes.Builtin "int" true else d.

(** The loop [for i := 0; i < vLen; i++]. *)
Fixpoint valueSpecEach (typeDef : option gotypes.DataType)
    (names : list ast.IdentT) (values : list ast.Expr) (i : nat)
    (symbolsDef : list gotypes.SymbolDef) : M (list gotypes.SymbolDef) :=
  match values with
  | [] => ret symbolsDef
  | v :: rest =>
      if bool_decide (typeDef = None) && ast.is_nil v
      then fail (Errorf "No type nor value in ValueSpec declaration")
      else
        let* valueExprAttr := ExprParser_Parse cfg v in
        if decide (len (DataTypeList valueExprAttr) ≠ 1)
        then fail (Errorf "Expecting a single expression. Got a list instead")
        else
          let* name := index names i in
          if bool_decide (ast.Name name = "_")
          then valueSpecEach typeDef names rest (S i) symbolsDef
          else
            match typeDef with
            | Some t =>
                let sDef := newSymbol (ast.Name name) (ast.NamePos name) t in
                let* tv := index (TypeVarList valueExprAttr) 0 in
                AddContract (contracts.IsCompatibleWith
                               tv (typevars.VariableFromSymbolDef sDef)
                               (gotypes.Def sDef) false) ;;
                let* d0 := index (DataTypeList valueExprAttr) 0 in
                (if gotypes.is_iota d0 then setLastConstType t else ret tt) ;;
                valueSpecEach typeDef names rest (S i) (symbolsDef ++ [sDef])
            | None =>
                let* d0 := index (DataTypeList valueExprAttr) 0 in
                let* d := match d0 with
                          | gotypes.Builtin _ _ =>
                              setLastConstType (promoteIota d0) ;;
                              ret (promoteIota d0)
                          | _ => ret d0
                          end in
                let sDef := newSymbol (ast.Name name) (ast.NamePos name) d in
                let* tv := index (TypeVarList valueExprAttr) 0 in
                AddContract (contracts.PropagatesTo
                               tv (typevars.VariableFromSymbolDef sDef)
                               (gotypes.Def sDef)) ;;
                valueSpecEach typeDef names rest (S i) (symbolsDef ++ [sDef])
            end
  end.

(** The loop [for i := vLen; i < nLen; i++] over the names left. *)
Fixpoint valueSpecRest (typeDef : option gotypes.DataType)
    (names : list ast.IdentT) (symbolsDef : list gotypes.SymbolDef)
  : M (list gotypes.SymbolDef) :=
  match names with
  | [] => ret symbolsDef
  | name :: rest =>
      let* t := match typeDef with
                | Some t => ret t
                | None =>
                    let* l := getLastConstType in
                    match l with
                    | None =>
                        fail (Errorf
                          "No type in ValueSpec declaration for identifier")
                    | Some t => ret t
                    end
                end in
      if bool_decide (ast.Name name = "_")
      then valueSpecRest (Some t) rest symbolsDef
      else valueSpecRest (Some t) rest
             (symbolsDef ++ [newSymbol (ast.Name name) (ast.NamePos name) t])
  end.

(** The optional explicit type of a value spec. *)
Definition valueSpecType (type_ : ast.Expr) : M (option gotypes.DataType) :=
  if ast.is_nil type_ then ret None
  else let* def := TypeParser_Parse cfg type_ in ret (Some def).

(** The branch [if vLen == 1]: [Some] symbols when it returns them,
    [None] when the value is [iota] or there is not exactly one value. *)
Definition valueSpecSingle (typeDef : option gotypes.DataType)
    (names : list ast.IdentT) (values : list ast.Expr)
  : M (option (list gotypes.SymbolDef)) :=
  if decide (len values = 1) then
    let* v0 := index values 0 in
    let* valueExprAttr := ExprParser_Parse cfg v0 in
    let* d0 := index (DataTypeList valueExprAttr) 0 in
    if gotypes.is_iota d0 then ret None
    else if decide (len names ≠ len (DataTypeList valueExprAttr))
    then fail (Errorf
      "ValueSpec has different number of identifiers on LHS than a number of results of invocation on RHS")
    else
      let* symbolsDef := valueSpecTuple typeDef valueExprAttr names 0 [] in
      ret (Some symbolsDef)
  else ret None.

Definition ParseValueSpec (names : list ast.IdentT) (type_ : ast.Expr)
    (values : list ast.Expr) : M (list gotypes.SymbolDef) :=
  let* typeDef := valueSpecType type_ in
  let* single := valueSpecSingle typeDef names values in
  match single with
  | Some symbolsDef => ret symbolsDef
  | None =>
      if decide (len names < len values)
      then fail (Errorf
        "ValueSpec has less number of identifieries on LHS than a number of expressions on RHS")
      else
        let* symbolsDef := valueSpecEach typeDef names values 0 [] in
        valueSpecRest typeDef (drop (length values) names) symbolsDef
  end.

(** *** Declarations *)

(** The loop over the symbols of a value spec in [parseDeclStmt]; [true]
    when an [AddVariable] failed, on which [parseDeclStmt] returns [nil]. *)
Fixpoint addVariables (defs : list gotypes.SymbolDef) : M bool :=
  match defs with
  | [] => ret false
  | def :: rest =>
      let* r := try_ (AddVariable def) in
      match r with
      | inl _ => ret true
      | inr _ => addVariables rest
      end
  end.

Definition parseTypeSpec (name : ast.IdentT) (type_ : ast.Expr) : M unit :=
  AddDataType (gotypes.mkSymbolDef (ast.Name name) (PackageName cfg) None "") ;;
  let* typeDef := TypeParser_Parse cfg type_ in
  AddDataType
    (gotypes.mkSymbolDef (ast.Name name) (PackageName cfg) (Some typeDef) "").

Fixpoint parseGenDeclSpecs (specs : list ast.Spec) : M unit :=
  match specs with
  | [] => ret tt
  | ast.ValueSpec names type_ values :: rest =>
      let* defs := ParseValueSpec names type_ values in
      let* stop := addVariables defs in
      if stop then ret tt else parseGenDeclSpecs rest
  | ast.TypeSpec name type_ :: rest =>
      parseTypeSpec name type_ ;;
      parseGenDeclSpecs rest
  | ast.ImportSpec :: _ => panic "Unrecognized Gen declaration"
  end.

Definition parseDeclStmt (decl : ast.Decl) : M unit :=
  match decl with
  | ast.GenDecl specs => parseGenDeclSpecs specs
  | _ => panic "Unrecognized declaration"
  end.

(** *** Simple statements *)

Definition parseExprStmt (x : ast.Expr) : M unit :=
  let* _ := ExprParser_Parse cfg x in ret tt.

Definition parseSendStmt (chan value : ast.Expr) : M unit :=
  let* chanAttr := ExprParser_Parse cfg chan in
  let* valueAttr := ExprParser_Parse cfg value in
  let* x := index (TypeVarList valueAttr) 0 in
  let* y := index (TypeVarList chanAttr) 0 in
  AddContract (contracts.IsSendableTo x y).

Definition parseIncDecStmt (x : ast.Expr) : M unit :=
  let* attr := ExprParser_Parse cfg x in
  let* tv := index (TypeVarList attr) 0 in
  AddContract (contracts.IsIncDecable tv).

Definition parseGoStmt (call : ast.Expr) : M unit :=
  let* _ := ExprParser_Parse cfg call in ret tt.

Definition parseDeferStmt (call : ast.Expr) : M unit :=
  let* _ := ExprParser_Parse cfg call in ret tt.

Definition parseBranchStmt : M unit := ret tt.

Fixpoint parseReturnStmt (results : list ast.Expr) : M unit :=
  match results with
  | [] => ret tt
  | result :: rest =>
      let* _ := ExprParser_Parse cfg result in parseReturnStmt rest
  end.

(** *** Assignment *)

(** The closure [rhsIndexer] of [parseAssignStmt] is one of four
    functions; the data each of them captures is kept in the
    constructor. *)
Inductive RhsIndexer :=
| GeneralIndexer
| CallExprIndexer (callExprDefAttr : ExprAttr) (isCgo : bool)
| IndexExprIndexer
| TypeAssertExprIndexer (xDefAttr : ExprAttr) (typeDef : gotypes.DataType).

Definition boolType : gotypes.DataType := gotypes.Builtin "bool" false.

Definition rhsIndexer (k : RhsIndexer) (rhs : list ast.Expr) (i : nat)
  : M (gotypes.DataType * typevars.Interface) :=
  match k with
  | GeneralIndexer =>
      let* e := index rhs i in
      let* defAttr := wrap_err "Error when parsing Rhs expression"
                               (ExprParser_Parse cfg e) in
      if decide (len (DataTypeList defAttr) ≠ 1)
      then fail (Errorf
        "Assignment element does not return a single result")
      else
        let* d := index (DataTypeList defAttr) 0 in
        let* tv := index (TypeVarList defAttr) 0 in
        ret (d, tv)
  | CallExprIndexer callExprDefAttr isCgo =>
      let callExprDefLen := length (DataTypeList callExprDefAttr) in
      if decide (i < callExprDefLen)%nat then
        let* d := index (DataTypeList callExprDefAttr) i in
        let* tv := index (TypeVarList callExprDefAttr) i in
        ret (d, tv)
      else if bool_decide (i = callExprDefLen) && isCgo then
        ret (gotypes.Builtin "error" false, typevars.CGO)
      else panic "rhsIndexer: out of range"
  | IndexExprIndexer =>
      match i with
      | 0%nat =>
          let* e := index rhs 0 in
          let* defAttr := wrap_err "Error when parsing Rhs expression"
                                   (ExprParser_Parse cfg e) in
          let* d := index (DataTypeList defAttr) 0 in
          if decide (len (DataTypeList defAttr) ≠ 1)
          then fail (Errorf
            "Assignment element does not return a single result")
          else
            let* tv := index (TypeVarList defAttr) 0 in
            ret (d, tv)
      | 1%nat =>
          ret (boolType, typevars.MakeConstant (PackageName cfg) boolType)
      | _ => fail (Errorf "Rhs index out of range")
      end
  | TypeAssertExprIndexer xDefAttr typeDef =>
      match i with
      | 0%nat =>
          let y := typevars.MakeConstant (PackageName cfg) typeDef in
          let* x := index (TypeVarList xDefAttr) 0 in
          AddContract (contracts.IsCompatibleWith x y (Some typeDef) false) ;;
          ret (typeDef, y)
      | 1%nat =>
          ret (boolType, typevars.MakeConstant (PackageName cfg) boolType)
      | _ => fail (Errorf "Rhs index out of range")
      end
  end.

(** [sel.X] of the called selector is the identifier [C]. *)
Definition isCgoCall (fun_ : ast.Expr) : bool :=
  match fun_ with
  | ast.SelectorExpr (ast.Ident name _) _ => bool_decide (name = "C")
  | _ => false
  end.

(** The first part of [parseAssignStmt]: the choice of [rhsIndexer]. *)
Definition assignRhsIndexer (lhs rhs : list ast.Expr) : M RhsIndexer :=
  let exprsSize := len lhs in
  let rExprSize := len rhs in
  if decide (exprsSize ≠ rExprSize) then
    if decide (rExprSize ≠ 1)
    then fail (Errorf
      "Number of expressions on the left-hand side differs from ones on the right-hand side")
    else
      let* rhs0 := index rhs 0 in
      match rhs0 with
      | ast.CallExpr fun_ _ =>
          let isCgo := isCgoCall fun_ in
          let* callExprDefAttr := ExprParser_Parse cfg rhs0 in
          let callExprDefLen := len (DataTypeList callExprDefAttr) in
          if decide (exprsSize ≠ callExprDefLen) then
            if isCgo then
              if decide (exprsSize ≠ callExprDefLen + 1)
              then fail (Errorf
                "CGO: Number of expressions on the left-hand side differs from number of results of invocation on the right-hand side")
              else ret (CallExprIndexer callExprDefAttr isCgo)
            else fail (Errorf
              "Number of expressions on the left-hand side differs from number of results of invocation on the right-hand side")
          else ret (CallExprIndexer callExprDefAttr isCgo)
      | ast.IndexExpr _ _ =>
          if decide (exprsSize ≠ 2)
          then fail (Errorf
            "Expecting two expression on the RHS when accessing an index expression")
          else ret IndexExprIndexer
      | ast.TypeAssertExpr x type_ =>
          if decide (exprsSize ≠ 2)
          then fail (Errorf
            "Expecting two expression on the RHS when type-asserting an expression")
          else
            let* xDefAttr := ExprParser_Parse cfg x in
            if decide (len (DataTypeList xDefAttr) ≠ 1)
            then fail (Errorf "Index expression is not a single expression")
            else
              let* typeDef := TypeParser_Parse cfg type_ in
              ret (TypeAssertExprIndexer xDefAttr typeDef)
      | _ => panic "Expecting *ast.CallExpr or *ast.IndexExpr"
      end
  else ret GeneralIndexer.

(** [for ok { statement.Lhs[i] = parExpr.X; ... }]. *)
Fixpoint stripParens (e : ast.Expr) : ast.Expr :=
  match e with
  | ast.ParenExpr x => stripParens x
  | _ => e
  end.

(** The [switch] on one left-hand side; [true] when the branch executes
    [return nil]. *)
Definition assignLhs (tok : token.Token) (lhs : ast.Expr)
    (rhsExpr : gotypes.DataType) (rhsTypeVar : typevars.Interface) : M bool :=
  match stripParens lhs with
  | ast.Ident name pos =>
      if bool_decide (name = "_") then ret false
      else if token.is_DEFINE tok then
        let sDef := newSymbol name pos rhsExpr in
        ignore_err (AddVariable sDef) ;;
        AddContract (contracts.PropagatesTo
                       rhsTypeVar (typevars.VariableFromSymbolDef sDef)
                       (gotypes.Def sDef)) ;;
        ret false
      else
        let* sDef := LookupVariable name in
        AddContract (contracts.IsCompatibleWith
                       rhsTypeVar (typevars.VariableFromSymbolDef sDef)
                       (gotypes.Def sDef) false) ;;
        ret false
  | ast.SelectorExpr _ _ | ast.StarExpr _ | ast.IndexExpr _ _ =>
      let* r := try_ (ExprParser_Parse cfg (stripParens lhs)) in
      match r with
      | inl _ => ret true
      | inr attr =>
          let* y := index (TypeVarList attr) 0 in
          let* e := index (DataTypeList attr) 0 in
          AddContract (contracts.IsCompatibleWith rhsTypeVar y (Some e) false) ;;
          ret false
      end
  | _ => fail (Errorf "Lhs of an assignment type is not recognized")
  end.

(** The loop [for i := 0; i < exprsSize; i++], from index [i] on. *)
Fixpoint assignLoop (k : RhsIndexer) (tok : token.Token)
    (rhs : list ast.Expr) (lhs : list ast.Expr) (i : nat) : M unit :=
  match lhs with
  | [] => ret tt
  | l :: rest =>
      let* r := rhsIndexer k rhs i in
      let* stop := assignLhs tok l (fst r) (snd r) in
      if stop then ret tt else assignLoop k tok rhs rest (S i)
  end.

Definition parseAssignStmt (lhs : list ast.Expr) (tok : token.Token)
    (rhs : list ast.Expr) : M unit :=
  let* k := assignRhsIndexer lhs rhs in
  assignLoop k tok rhs lhs 0.

(** *** Control-flow statements

    The methods below call [sp.Parse] on parts of their statement; they are
    written over the function [Parse] they call, which [Parse] itself
    supplies further down. *)

Section Control.

Context (Parse : ast.Stmt -> M unit).

Fixpoint parseStmtList (l : list ast.Stmt) : M unit :=
  match l with
  | [] => ret tt
  | s :: rest => Parse s ;; parseStmtList rest
  end.

Definition parseBlockStmt (list_ : list ast.Stmt) : M unit :=
  Push ;;
  defer_ Pop (parseStmtList list_).

(** [if body != nil { sp.Parse(&ast.BlockStmt{List: body}) }]. *)
Definition parseBody (body : list ast.Stmt) : M unit :=
  match body with
  | [] => ret tt
  | _ => parseBlockStmt body
  end.

(** [if statement.Init != nil { Push(); defer Pop(); Parse(Init) }]
    followed by the rest [k] of the method. *)
Definition withInit (init : option ast.Stmt) (k : M unit) : M unit :=
  match init with
  | Some s => Push ;; defer_ Pop (Parse s ;; k)
  | None => k
  end.

Definition parseIfStmt (init : option ast.Stmt) (cond : ast.Expr)
    (body : list ast.Stmt) (else_ : option ast.Stmt) : M unit :=
  withInit init
    (let* _ := ExprParser_Parse cfg cond in
     parseBlockStmt body ;;
     match else_ with
     | Some e => Parse e
     | None => ret tt
     end).

(** The loop over the expressions of one case; [true] when an expression
    fails to parse, on which [parseSwitchStmt] returns [nil]. *)
Fixpoint switchCaseExprs (stmtTagTypeVar : typevars.Interface)
    (l : list ast.Expr) : M bool :=
  match l with
  | [] => ret false
  | caseExpr :: rest =>
      let* r := try_ (ExprParser_Parse cfg caseExpr) in
      match r with
      | inl _ => ret true
      | inr caseAttr =>
          let* x := index (TypeVarList caseAttr) 0 in
          AddContract (contracts.IsCompatibleWith x stmtTagTypeVar None false) ;;
          switchCaseExprs stmtTagTypeVar rest
      end
  end.

Fixpoint switchClauses (stmtTagTypeVar : typevars.Interface)
    (l : list ast.Stmt) : M unit :=
  match l with
  | [] => ret tt
  | ast.CaseClause _ list_ body :: rest =>
      let* stop := switchCaseExprs stmtTagTypeVar list_ in
      if stop then ret tt
      else parseBody body ;; switchClauses stmtTagTypeVar rest
  | _ :: _ => fail (Errorf "Expected *ast.CaseClause in switch's body")
  end.

Definition parseSwitchStmt (init : option ast.Stmt) (tag : ast.Expr)
    (body : list ast.Stmt) : M unit :=
  withInit init
    (let* stmtTagTypeVar :=
       if ast.is_nil tag
       then ret (typevars.MakeConstant "builtin" boolType)
       else let* attr := ExprParser_Parse cfg tag in
            index (TypeVarList attr) 0 in
     switchClauses stmtTagTypeVar body).

(** The types of a case with no or several types. *)
Fixpoint typeSwitchCaseTypes (typeTypeVar : typevars.Interface)
    (l : list ast.Expr) : M unit :=
  match l with
  | [] => ret tt
  | caseExpr :: rest =>
      let* rhsType := TypeParser_Parse cfg caseExpr in
      AddContract (contracts.IsCompatibleWith
                     (typevars.MakeConstant (PackageName cfg) rhsType)
                     typeTypeVar None true) ;;
      typeSwitchCaseTypes typeTypeVar rest
  end.

(** The binding of the guard variable in one clause. *)
Definition typeSwitchBind (rhsIdentifier : option string) (pos : Z)
    (def : gotypes.DataType) : M unit :=
  match rhsIdentifier with
  | None => ret tt
  | Some name =>
      let sDef := newSymbol name pos def in
      ignore_err (AddVariable sDef) ;;
      AddContract (contracts.PropagatesTo
                     (typevars.MakeConstant (PackageName cfg) def)
                     (typevars.VariableFromSymbolDef sDef) None)
  end.

(** The closure run for one clause of a type switch. *)
Definition typeSwitchClause (rhsIdentifier : option string)
    (typeTypeVar : typevars.Interface) (pos : Z) (list_ : list ast.Expr)
    (body : list ast.Stmt) : M unit :=
  Push ;;
  defer_ Pop
    ((if decide (len list_ ≠ 1) then
        typeSwitchCaseTypes typeTypeVar list_ ;;
        typeSwitchBind rhsIdentifier pos (gotypes.Interface [])
      else
        let* e := index list_ 0 in
        let* rhsType := TypeParser_Parse cfg e in
        AddContract (contracts.IsCompatibleWith
                       (typevars.MakeConstant (PackageName cfg) rhsType)
                       typeTypeVar None true) ;;
        typeSwitchBind rhsIdentifier pos rhsType) ;;
     parseBody body).

Fixpoint typeSwitchClauses (rhsIdentifier : option string)
    (typeTypeVar : typevars.Interface) (l : list ast.Stmt) : M unit :=
  match l with
  | [] => ret tt
  | ast.CaseClause pos list_ body :: rest =>
      let* r := try_ (typeSwitchClause rhsIdentifier typeTypeVar pos
                                       list_ body) in
      match r with
      | inl _ => ret tt
      | inr _ => typeSwitchClauses rhsIdentifier typeTypeVar rest
      end
  | _ :: _ => fail (Errorf "Expected *ast.CaseClause in switch's body")
  end.

(** The guard [x.(type)]: its operand is parsed; a failure there makes
    [parseTypeSwitchStmt] return [nil]. *)
Definition typeSwitchGuard (x : ast.Expr)
    (k : typevars.Interface -> M unit) : M unit :=
  let* r := try_ (ExprParser_Parse cfg x) in
  match r with
  | inl _ => ret tt
  | inr typeAttr =>
      let* typeTypeVar := index (TypeVarList typeAttr) 0 in
      k typeTypeVar
  end.

Definition parseTypeSwitchStmt (init : option ast.Stmt)
    (assign : option ast.Stmt) (body : list ast.Stmt) : M unit :=
  withInit init
    (Push ;;
     defer_ Pop
       match assign with
       | Some (ast.AssignStmt lhs _ rhs) =>
           Push ;;
           defer_ Pop
             (if decide (len lhs ≠ 1)
              then fail (Errorf
                "LHS of the type assert assignment must be a 'single' assignable expression")
              else if decide (len rhs ≠ 1)
              then fail (Errorf
                "RHS of the type assert assignment must be a 'single' expression")
              else
                let* rhs0 := index rhs 0 in
                match rhs0 with
                | ast.TypeAssertExpr x _ =>
                    typeSwitchGuard x (fun typeTypeVar =>
                      let* lhs0 := index lhs 0 in
                      match lhs0 with
                      | ast.Ident name _ =>
                          typeSwitchClauses
                            (if bool_decide (name = "_") then None
                             else Some name)
                            typeTypeVar body
                      | _ => fail (Errorf
                          "Expecting identifier on the RHS of the type switch assigment")
                      end)
                | _ => fail (Errorf
                    "Expecting type assert in type switch assignemnt statement")
                end)
       | Some (ast.ExprStmt x) =>
           match x with
           | ast.TypeAssertExpr x' _ =>
               typeSwitchGuard x' (fun typeTypeVar =>
                 typeSwitchClauses None typeTypeVar body)
           | _ => fail (Errorf "Expecting type assert in type switch")
           end
       | _ => fail (Errorf "Unsupported statement in type switch")
       end).

(** [sDef := ...; sp.SymbolTable.AddVariable(sDef); AddContract(
    PropagatesTo{X: x, Y: VariableFromSymbolDef(sDef)})] of the select
    clauses. *)
Definition selectBind (name : string) (pos : Z) (def : gotypes.DataType)
    (x : typevars.Interface) : M unit :=
  let sDef := newSymbol name pos def in
  ignore_err (AddVariable sDef) ;;
  AddContract (contracts.PropagatesTo
                 x (typevars.VariableFromSymbolDef sDef) None).

(** [AddContract(IsCompatibleWith{X: x, Y: attr.TypeVarList[0]})] after
    parsing an assigned expression. *)
Definition selectAssign (lhs : ast.Expr) (x : typevars.Interface) : M unit :=
  let* assignAttr := ExprParser_Parse cfg lhs in
  let* y := index (TypeVarList assignAttr) 0 in
  AddContract (contracts.IsCompatibleWith x y None false).

(** The receive case [case lhs tok <-ch] of a select clause. *)
Definition selectRecv (lhs : list ast.Expr) (tok : token.Token)
    (rhs : list ast.Expr) : M unit :=
  if decide (len rhs ≠ 1)
  then fail (Errorf
    "Expecting a single expression on the RHS of a clause assigment")
  else
    let* rhs0 := index rhs 0 in
    match rhs0 with
    | ast.UnaryExpr op x =>
        if negb (token.is_ARROW op)
        then fail (Errorf "Expecting unary expression in a form of <-chan")
        else
          let* rhsExprAttr := ExprParser_Parse cfg x in
          if decide (len (DataTypeList rhsExprAttr) ≠ 1)
          then fail (Errorf "Expecting unary expression in a form of <-chan")
          else
            let* d0 := index (DataTypeList rhsExprAttr) 0 in
            match d0 with
            | gotypes.Channel _ value =>
                match lhs with
                | [] => fail (Errorf
                    "Expecting at least one expression on the LHS of a clause assigment")
                | [lhs0] =>
                    let* y := NewVirtualVar in
                    let* x := index (TypeVarList rhsExprAttr) 0 in
                    AddContract (contracts.IsReceiveableFrom x y None) ;;
                    if token.is_DEFINE tok then
                      match lhs0 with
                      | ast.Ident name pos => selectBind name pos value y
                      | _ => fail (Errorf
                          "Expecting an identifier in select clause due to := assignment")
                      end
                    else selectAssign lhs0 y
                | [lhs0; lhs1] =>
                    let* y := NewVirtualVar in
                    let* x := index (TypeVarList rhsExprAttr) 0 in
                    AddContract (contracts.IsReceiveableFrom x y None) ;;
                    if token.is_DEFINE tok then
                      match lhs0, lhs1 with
                      | ast.Ident name1 pos1, ast.Ident name2 pos2 =>
                          selectBind name1 pos1 value y ;;
                          selectBind name2 pos2 boolType
                            (typevars.MakeConstant "builtin" boolType)
                      | _, _ => fail (Errorf
                          "Expecting an identifier in select clause due to := assignment")
                      end
                    else
                      selectAssign lhs0 y ;;
                      selectAssign lhs1
                        (typevars.MakeConstant "builtin" boolType)
                | _ => fail (Errorf
                    "Expecting at most two expression on the LHS of a clause assigment")
                end
            | _ => fail (Errorf
                "Expecting unary expression in a form of <-chan")
            end
    | _ => fail (Errorf "Expecting unary expression in a form of <-chan")
    end.

(** The [switch] on [commClause.Comm]. *)
Definition selectComm (comm : ast.Stmt) : M unit :=
  match comm with
  | ast.ExprStmt x => let* _ := ExprParser_Parse cfg x in ret tt
  | ast.SendStmt chan value =>
      let* sendChanAtrr := ExprParser_Parse cfg chan in
      let* sendValueAtrr := ExprParser_Parse cfg value in
      let* x := index (TypeVarList sendValueAtrr) 0 in
      let* y := index (TypeVarList sendChanAtrr) 0 in
      AddContract (contracts.IsSendableTo x y)
  | ast.AssignStmt lhs tok rhs => selectRecv lhs tok rhs
  | _ => fail (Errorf "Unable to recognize selector CommClause CommCase")
  end.

(** The closure run for one clause of a select statement. *)
Definition selectClause (stmt : ast.Stmt) : M unit :=
  Push ;;
  defer_ Pop
    match stmt with
    | ast.CommClause comm body =>
        match comm with
        | Some c => selectComm c
        | None => ret tt
        end ;;
        parseBody body
    | _ => fail (Errorf "Select must be a list of commClause statements")
    end.

Fixpoint selectClauses (l : list ast.Stmt) : M unit :=
  match l with
  | [] => ret tt
  | stmt :: rest => selectClause stmt ;; selectClauses rest
  end.

Definition parseSelectStmt (body : list ast.Stmt) : M unit :=
  selectClauses body.

Definition parseForStmt (init : option ast.Stmt) (cond : ast.Expr)
    (post : option ast.Stmt) (body : list ast.Stmt) : M unit :=
  Push ;;
  defer_ Pop
    (match init with
     | Some s => ignore_err (Parse s)
     | None => ret tt
     end ;;
     (if ast.is_nil cond then ret tt
      else let* _ := ExprParser_Parse cfg cond in ret tt) ;;
     match post with
     | Some s => ignore_err (Parse s)
     | None => ret tt
     end ;;
     parseBlockStmt body).

(** *** Range *)

Definition intType : gotypes.DataType := gotypes.Builtin "int" false.
Definition runeType : gotypes.DataType := gotypes.Builtin "rune" false.

(** The type assertion of [xExprAttr.DataTypeList[0]] to a pointer: one
    pointer is removed when the type is a pointer. *)
Definition rangeStripPointer (d : gotypes.DataType) : gotypes.DataType :=
  match d with
  | gotypes.Pointer def => def
  | _ => d
  end.

(** The [switch] deriving the key and value types.  In the [Builtin] and
    [Identifier] cases [fmt.Errorf] builds an error value that is neither
    returned nor stored. *)
Definition rangeKeyValue (rangeExpr : gotypes.DataType)
  : M (gotypes.DataType * option gotypes.DataType) :=
  match rangeExpr with
  | gotypes.Array _ elmtype => ret (intType, Some elmtype)
  | gotypes.Slice elmtype => ret (intType, Some elmtype)
  | gotypes.Builtin def _ =>
      let _ := if bool_decide (def ≠ "string")
               then Some (Errorf
                 "Expecting string in range Builtin expression")
               else None in
      ret (intType, Some runeType)
  | gotypes.Identifier def _ =>
      let _ := if bool_decide (def ≠ "string")
               then Some (Errorf
                 "Expecting string in range Identifier expression")
               else None in
      ret (intType, Some runeType)
  | gotypes.Map keytype valuetype => ret (keytype, Some valuetype)
  | gotypes.Channel _ value => ret (value, None)
  | gotypes.Ellipsis def => ret (intType, Some def)
  | _ => panic "Unknown type of range expression"
  end.

(** [if statement.Key != nil { ... }]; [true] when the branch executes
    [return nil]. *)
Definition rangeKey (tok : token.Token) (keyExpr : ast.Expr)
    (key : gotypes.DataType) (xTypeVar : typevars.Interface) : M bool :=
  if ast.is_nil keyExpr then ret false
  else if token.is_DEFINE tok then
    match keyExpr with
    | ast.Ident name pos =>
        if bool_decide (name = "_") then ret false
        else
          let sDef := newSymbol name pos key in
          AddVariable sDef ;;
          AddContract (contracts.PropagatesTo
                         (typevars.MakeRangeKey xTypeVar)
                         (typevars.VariableFromSymbolDef sDef) (Some key)) ;;
          ret false
    | _ => fail (Errorf
        "Expected key as an identifier in the for range statement")
    end
  else
    match stripParens keyExpr with
    | ast.Ident name pos =>
        if bool_decide (name = "_") then ret false
        else
          let* r := try_ (ExprParser_Parse cfg (ast.Ident name pos)) in
          match r with
          | inl _ => ret true
          | inr keyAttr =>
              let* y := index (TypeVarList keyAttr) 0 in
              let* e := index (DataTypeList keyAttr) 0 in
              AddContract (contracts.IsCompatibleWith
                             (typevars.MakeRangeKey xTypeVar) y (Some e)
                             false) ;;
              ret false
          end
    | _ => fail (Errorf
        "Expected key as an identifier in the for range statement")
    end.

(** [if statement.Value != nil { ... }]; in the assignment arm the
    identifier test and the parse are on [statement.Value] itself, not on
    the expression without parentheses. *)
Definition rangeValue (tok : token.Token) (valueExpr : ast.Expr)
    (value : option gotypes.DataType) (xTypeVar : typevars.Interface)
  : M bool :=
  if ast.is_nil valueExpr then ret false
  else if token.is_DEFINE tok then
    match valueExpr with
    | ast.Ident name pos =>
        match value with
        | Some v =>
            if bool_decide (name = "_") then ret false
            else
              let sDef := newSymbol name pos v in
              AddVariable sDef ;;
              AddContract (contracts.PropagatesTo
                             (typevars.MakeRangeValue xTypeVar)
                             (typevars.VariableFromSymbolDef sDef) (Some v)) ;;
              ret false
        | None => ret false
        end
    | _ => fail (Errorf
        "Expected value as an identifier in the for range statement")
    end
  else
    match valueExpr with
    | ast.Ident name pos =>
        match value with
        | Some _ =>
            if bool_decide (name = "_") then ret false
            else
              let* r := try_ (ExprParser_Parse cfg valueExpr) in
              match r with
              | inl _ => ret true
              | inr valueAttr =>
                  let* y := index (TypeVarList valueAttr) 0 in
                  let* e := index (DataTypeList valueAttr) 0 in
                  AddContract (contracts.IsCompatibleWith
                                 (typevars.MakeRangeValue xTypeVar) y (Some e)
                                 false) ;;
                  ret false
              end
        | None => ret false
        end
    | _ => fail (Errorf
        "Expected value as an identifier in the for range statement")
    end.

(** [parseRangeStmt] from the [IsRangeable] contract up to, and without,
    the parse of the body; [true] when it executes [return nil]. *)
Definition rangeBindings (key value : ast.Expr) (tok : token.Token)
    (xExprAttr : ExprAttr) : M bool :=
  let* xTypeVar := index (TypeVarList xExprAttr) 0 in
  AddContract (contracts.IsRangeable xTypeVar) ;;
  let* d0 := index (DataTypeList xExprAttr) 0 in
  let* rangeExpr := FindFirstNonidDataType cfg (rangeStripPointer d0) in
  let* kv := rangeKeyValue rangeExpr in
  let* stop := rangeKey tok key (fst kv) xTypeVar in
  if stop then ret true
  else rangeValue tok value (snd kv) xTypeVar.

Definition parseRangeStmt (key value : ast.Expr) (tok : token.Token)
    (x : ast.Expr) (body : list ast.Stmt) : M unit :=
  let* xExprAttr := ExprParser_Parse cfg x in
  Push ;;
  defer_ Pop
    (let* stop := rangeBindings key value tok xExprAttr in
     if stop then ret tt else parseBlockStmt body).

End Control.

(** *** Parse *)

(** [sp.StmtParser] of the configuration is the statement parser itself
    (the driver sets [config.StmtParser = stmtparser.New(config)]), so
    [sp.StmtParser.Parse] is [Parse]. *)
Fixpoint Parse (statement : ast.Stmt) : M unit :=
  match statement with
  | ast.DeclStmt decl => parseDeclStmt decl
  | ast.LabeledStmt _ stmt => Parse stmt
  | ast.ExprStmt x => parseExprStmt x
  | ast.SendStmt chan value => parseSendStmt chan value
  | ast.IncDecStmt x => parseIncDecStmt x
  | ast.AssignStmt lhs tok rhs => parseAssignStmt lhs tok rhs
  | ast.GoStmt call => parseGoStmt call
  | ast.ReturnStmt results => parseReturnStmt results
  | ast.BranchStmt => parseBranchStmt
  | ast.BlockStmt list_ => parseBlockStmt Parse list_
  | ast.IfStmt init cond body else_ => parseIfStmt Parse init cond body else_
  | ast.SwitchStmt init tag body => parseSwitchStmt Parse init tag body
  | ast.TypeSwitchStmt init assign body =>
      parseTypeSwitchStmt Parse init assign body
  | ast.SelectStmt body => parseSelectStmt Parse body
  | ast.ForStmt init cond post body => parseForStmt Parse init cond post body
  | ast.RangeStmt key value tok x body =>
      parseRangeStmt Parse key value tok x body
  | ast.DeferStmt call => parseDeferStmt call
  | ast.EmptyStmt => ret tt
  | ast.BadStmt | ast.CaseClause _ _ _ | ast.CommClause _ _ =>
      panic "Unknown statement"
  end.

(** *** Function header and body *)

Definition headerSymbol (name : ast.IdentT) (def : gotypes.DataType)
  : gotypes.SymbolDef :=
  gotypes.mkSymbolDef (ast.Name name) "" (Some def)
                      (SymbolPos cfg (ast.NamePos name)).

(** The inner loop [for _, name := range field.Names]. *)
Fixpoint headFieldNames (def : gotypes.DataType) (names : list ast.IdentT)
    (sDefs : list gotypes.SymbolDef) : M (list gotypes.SymbolDef) :=
  match names with
  | [] => ret sDefs
  | name :: rest =>
      let sDef := headerSymbol name def in
      AddContract (contracts.PropagatesTo
                     (typevars.MakeConstant (PackageName cfg) def)
                     (typevars.VariableFromSymbolDef sDef)
                     (gotypes.Def sDef)) ;;
      headFieldNames def rest (sDefs ++ [sDef])
  end.

(** The loop over the parameter or result fields. *)
Fixpoint headFields (prefix : string) (fields : list ast.Field)
    (sDefs : list gotypes.SymbolDef) : M (list gotypes.SymbolDef) :=
  match fields with
  | [] => ret sDefs
  | field :: rest =>
      let* def := wrap_err prefix (TypeParser_Parse cfg (ast.Type_ field)) in
      let* sDefs' := headFieldNames def (ast.Names field) sDefs in
      headFields prefix rest sDefs'
  end.

Definition headOptFields (prefix : string) (fields : option (list ast.Field))
    (sDefs : list gotypes.SymbolDef) : M (list gotypes.SymbolDef) :=
  match fields with
  | Some l => headFields prefix l sDefs
  | None => ret sDefs
  end.

Fixpoint addHeadVariables (sDefs : list gotypes.SymbolDef) : M unit :=
  match sDefs with
  | [] => ret tt
  | sDef :: rest => ignore_err (AddVariable sDef) ;; addHeadVariables rest
  end.

Definition headReceiver (funcDecl : ast.FuncDecl) : M unit :=
  match ast.Recv funcDecl with
  | None => ret tt
  | Some list_ =>
      if decide (len list_ ≠ 1) then
        match ast.FuncName funcDecl with
        | Some _ => fail (Errorf "Method has no receiver")
        | None => panic "invalid memory address or nil pointer dereference"
        end
      else
        let* field := index list_ 0 in
        if decide (len (ast.Names field) > 2)
        then fail (Errorf "Receiver is not a single parameter")
        else
          let* def := wrap_err "sp.parseReceiver"
                               (parseReceiver (ast.Type_ field) true) in
          match ast.Names field with
          | [] => ret tt
          | name :: _ =>
              let sDef := headerSymbol name def in
              AddContract (contracts.PropagatesTo
                             (typevars.MakeConstant (PackageName cfg) def)
                             (typevars.VariableFromSymbolDef sDef)
                             (gotypes.Def sDef)) ;;
              ignore_err (AddVariable sDef)
          end
  end.

Definition parseFuncHeadVariables (funcDecl : ast.FuncDecl) : M unit :=
  Lock ;;
  defer_ Unlock
    (headReceiver funcDecl ;;
     let* sDefs := headOptFields "sp.TypeParser.Parse Params"
                                 (ast.Params funcDecl) [] in
     let* sDefs := headOptFields "sp.TypeParser.Parse Results"
                                 (ast.Results funcDecl) sDefs in
     addHeadVariables sDefs).

Definition ParseFuncBody (funcDecl : ast.FuncDecl) : M unit :=
  Push ;;
  let* r := try_ (parseFuncHeadVariables funcDecl) in
  match r with
  | inl err => Pop ;; fail (Wrapf "sp.ParseFuncBody" err)
  | inr _ =>
      Push ;;
      defer_ (Pop ;; Pop)
        match ast.Body funcDecl with
        | None => ret tt
        | Some list_ => parseStmtList Parse list_
        end
  end.

End Parser.

(** ** ParseFuncDecl *)

(** [ParseFuncDecl]: [funcType] is the node [d.Type] as [TypeParser.Parse]
    receives it (the type parser alone reads it); the receiver list and the
    name are those of [d]. *)
Definition ParseFuncDecl (cfg : Config) (funcType : ast.Expr)
    (d : ast.FuncDecl) : M gotypes.DataType :=
  let* funcDef := TypeParser_Parse cfg funcType in
  match ast.Recv d with
  | None => ret funcDef
  | Some list_ =>
      if decide (len list_ ≠ 1) then
        match ast.FuncName d with
        | Some _ => fail (Errorf "Method has no receiver")
        | None => panic "invalid memory address or nil pointer dereference"
        end
      else
        let* field := index list_ 0 in
        if decide (len (ast.Names field) > 2)
        then fail (Errorf "Receiver is not a single parameter")
        else
          let* recDef := parseReceiver cfg (ast.Type_ field) false in
          ret (gotypes.Method recDef funcDef)
  end.

(** ** Helpers of the expression tests *)

(** The inner loop of [iterVar]: the value specs among the specs of one
    declaration. *)
Fixpoint valueSpecsOf (specs : list ast.Spec) : list ast.Spec :=
  match specs with
  | [] => []
  | ast.ValueSpec names type_ values :: rest =>
      ast.ValueSpec names type_ values :: valueSpecsOf rest
  | _ :: rest => valueSpecsOf rest
  end.

(** [iterVar] on the declarations of a file: the value specs of its
    general declarations, in order. *)
Fixpoint iterVar (decls : list ast.Decl) : list ast.Spec :=
  match decls with
  | [] => []
  | ast.GenDecl specs :: rest => (valueSpecsOf specs ++ iterVar rest)%list
  | _ :: rest => iterVar rest
  end.

(** ** Stand-in collaborators for concrete runs *)

Module stub.

(** Modelled from the spec: the expression parser is not among the
    sources.  This stand-in follows its interface (an attribute record of
    equally long lists, or an error) on identifiers, literals, calls of
    declared functions, selectors of struct-typed variables and receives;
    it emits no contract and leaves the symbol-table stack alone. *)
Fixpoint ExprParser (e : ast.Expr) : M ExprAttr :=
  match e with
  | ast.Ident name _ =>
      if bool_decide (name = "iota")
      then ret (mkExprAttr
                  [gotypes.Builtin "iota" false]
                  [typevars.MakeConstant "builtin"
                     (gotypes.Builtin "iota" false)])
      else
        let* sDef := LookupVariable name in
        match gotypes.Def sDef with
        | Some d => ret (mkExprAttr [d] [typevars.VariableFromSymbolDef sDef])
        | None => fail (Errorf "symbol has no type")
        end
  | ast.BasicLit kind _ =>
      ret (mkExprAttr
             [gotypes.Builtin kind true]
             [typevars.MakeConstant "builtin" (gotypes.Builtin kind true)])
  | ast.ParenExpr x => ExprParser x
  | ast.CallExpr fun_ _ =>
      let* f := ExprParser fun_ in
      match DataTypeList f, TypeVarList f with
      | [gotypes.Function _ results _], [tv] =>
          ret (mkExprAttr results
                 (imap (fun i _ => typevars.ReturnType tv (Z.of_nat i))
                       results))
      | _, _ => fail (Errorf "not a function")
      end
  | ast.SelectorExpr x sel =>
      let* a := ExprParser x in
      match DataTypeList a, TypeVarList a with
      | [gotypes.Struct fields], [tv] =>
          match list_find (fun f => fst f = sel) fields with
          | Some (i, f) =>
              ret (mkExprAttr [snd f] [typevars.Field tv sel (Z.of_nat i)])
          | None => fail (Errorf "no such field")
          end
      | _, _ => fail (Errorf "not a struct")
      end
  | ast.UnaryExpr token.ARROW x =>
      let* a := ExprParser x in
      match DataTypeList a with
      | [gotypes.Channel _ value] =>
          ret (mkExprAttr [value]
                 [typevars.MakeConstant "builtin" value])
      | _ => fail (Errorf "not a channel")
      end
  | _ => fail (Errorf "unsupported expression")
  end.

(** Modelled from the spec: the type parser is not among the sources.
    This stand-in translates type names and pointer types. *)
Fixpoint TypeParser (pkg : string) (e : ast.Expr) : M gotypes.DataType :=
  match e with
  | ast.Ident name _ =>
      if bool_decide (name ∈ ["bool"; "int"; "string"; "rune"; "error"])
      then ret (gotypes.Builtin name false)
      else ret (gotypes.Identifier name pkg)
  | ast.StarExpr x =>
      let* d := TypeParser pkg x in ret (gotypes.Pointer d)
  | _ => fail (Errorf "unsupported type expression")
  end.

(** Modelled from the spec: the symbols accessor is not among the
    sources.  This stand-in takes every data type as already resolved. *)
Definition FindFirstNonidDataType (d : gotypes.DataType)
  : M gotypes.DataType := ret d.

Definition config : Config :=
  mkConfig "main" "main.go" ExprParser (TypeParser "main")
           FindFirstNonidDataType.

(** The state of a parser that has entered the file scope. *)
Definition fileState : State :=
  mkState (stack.Push stack.New) contracts.New alloctable.New None.

(** A state inside a function body: file, header and body scope. *)
Definition bodyState : State :=
  set_SymbolTable (stack.Push (stack.Push (SymbolTable fileState))) fileState.

(** The state reached from [st] by a computation, and its result. *)
Definition exec {A} (m : M A) (st : State) : State := snd (m st).
Definition result {A} (m : M A) (st : State) : Res A := fst (m st).

End stub.

(** * Notions and inputs of the properties *)

(** ** Scope frames *)

(** [Below s s'] relates the stack before and after a computation that
    works in the innermost scope of [s]: [s'] has the height of [s] and the
    tables of [s] below its top. *)
Definition Below (s s' : stack.Stack) : Prop :=
  stack.wf s' /\
  stack.Size s' = stack.Size s /\
  take (Z.to_nat (stack.Size s - 1)) (stack.Tables s') =
  take (Z.to_nat (stack.Size s - 1)) (stack.Tables s).

(** [m] works in the innermost scope, however it ends. *)
Definition frames {A} (m : M A) : Prop :=
  forall st, stack.wf (SymbolTable st) ->
             Below (SymbolTable st) (SymbolTable (snd (m st))).

(** [m] leaves the stack as it found it, however it ends. *)
Definition restores {A} (m : M A) : Prop :=
  forall st, stack.wf (SymbolTable st) ->
             SymbolTable (snd (m st)) = SymbolTable st.

(** The assumption on the collaborators: each call works in the innermost
    scope. *)
Definition collaborators_frame (cfg : Config) : Prop :=
  (forall e, frames (ExprParser_Parse cfg e)) /\
  (forall e, frames (TypeParser_Parse cfg e)) /\
  (forall d, frames (FindFirstNonidDataType cfg d)).

(** The statements a statement holds directly. *)
Definition optStmt (o : option ast.Stmt) : list ast.Stmt :=
  match o with Some s => [s] | None => [] end.

Definition children (s : ast.Stmt) : list ast.Stmt :=
  match s with
  | ast.LabeledStmt _ stmt => [stmt]
  | ast.BlockStmt list_ => list_
  | ast.IfStmt init _ body else_ => optStmt init ++ body ++ optStmt else_
  | ast.CaseClause _ _ body => body
  | ast.SwitchStmt init _ body => optStmt init ++ body
  | ast.TypeSwitchStmt init assign body =>
      optStmt init ++ optStmt assign ++ body
  | ast.CommClause comm body => optStmt comm ++ body
  | ast.SelectStmt body => body
  | ast.ForStmt init _ post body => optStmt init ++ optStmt post ++ body
  | ast.RangeStmt _ _ _ _ body => body
  | _ => []
  end.

(** What the clause loops need of one element of a switch or select
    body: the statements of the clause, parsed by [P], work in the
    innermost scope. *)
Definition clauseFrames (P : ast.Stmt -> M unit) (s : ast.Stmt) : Prop :=
  match s with
  | ast.CaseClause _ _ body => Forall (fun x => frames (P x)) body
  | ast.CommClause _ body => Forall (fun x => frames (P x)) body
  | _ => True
  end.

(** [m] leaves the whole state as it found it. *)
Definition untouched {A} (m : M A) : Prop := forall st, snd (m st) = st.

(** ** What the statements establish *)


(** The symbols of the last loop of [ParseValueSpec] for the type [t]:
    one per name other than [_], in order. *)
Definition trailingSymbols (cfg : Config) (t : gotypes.DataType)
    (names : list ast.IdentT) : list gotypes.SymbolDef :=
  map (fun n => newSymbol cfg (ast.Name n) (ast.NamePos n) t)
      (filter (fun n => ast.Name n <> "_") names).

(** The type under which a variable is found from the innermost scope. *)
Definition typeOfVariable (name : string) (st : State)
  : option gotypes.DataType :=
  match stack.LookupVariable name (SymbolTable st) with
  | Ok sDef => gotypes.Def sDef
  | _ => None
  end.

(** The processing of the left-hand sides of a receive clause, after the
    virtual variable [y] is allocated and [IsReceiveableFrom] emitted. *)
Definition selectRecvLhs (cfg : Config) (lhs : list ast.Expr)
    (tok : token.Token) (value : gotypes.DataType) (y : typevars.Interface)
  : M unit :=
  match lhs with
  | [lhs0] =>
      if token.is_DEFINE tok then
        match lhs0 with
        | ast.Ident name pos => selectBind cfg name pos value y
        | _ => fail (Errorf
            "Expecting an identifier in select clause due to := assignment")
        end
      else selectAssign cfg lhs0 y
  | [lhs0; lhs1] =>
      if token.is_DEFINE tok then
        match lhs0, lhs1 with
        | ast.Ident name1 pos1, ast.Ident name2 pos2 =>
            selectBind cfg name1 pos1 value y ;;
            selectBind cfg name2 pos2 (gotypes.Builtin "bool" false)
              (typevars.Constant "builtin" (gotypes.Builtin "bool" false))
        | _, _ => fail (Errorf
            "Expecting an identifier in select clause due to := assignment")
        end
      else
        selectAssign cfg lhs0 y ;;
        selectAssign cfg lhs1
          (typevars.Constant "builtin" (gotypes.Builtin "bool" false))
  | _ => ret tt
  end.

(** ** Inputs of the runs *)

(** A declaration [func add(a, b int) (sum int) { x := a; { sum = x };
    return sum }] and the same without a body. *)
Definition addDecl (body : option (list ast.Stmt)) : ast.FuncDecl :=
  ast.mkFuncDecl None (Some (ast.mkIdent "add" 5))
    (Some [ast.mkField [ast.mkIdent "a" 9; ast.mkIdent "b" 12]
                       (ast.Ident "int" 14)])
    (Some [ast.mkField [ast.mkIdent "sum" 20] (ast.Ident "int" 24)])
    body.

Definition addBody : list ast.Stmt :=
  [ast.AssignStmt [ast.Ident "x" 31] token.DEFINE [ast.Ident "a" 36];
   ast.BlockStmt
     [ast.AssignStmt [ast.Ident "sum" 41] token.ASSIGN [ast.Ident "x" 47]];
   ast.ReturnStmt [ast.Ident "sum" 58]].

(** A method whose receiver type is not declared, and a function whose
    body uses an undeclared name. *)
Definition methodOfUnknown : ast.FuncDecl :=
  ast.mkFuncDecl
    (Some [ast.mkField [ast.mkIdent "r" 6] (ast.Ident "T" 8)])
    (Some (ast.mkIdent "m" 11)) (Some []) None (Some []).

Definition useUndeclared : list ast.Stmt :=
  [ast.BlockStmt [ast.ExprStmt (ast.Ident "z" 40)]].

(** The assignment [s.f = 1] where [s] is not declared, the switch
    [switch { case y: }] where [y] is not declared, and the declaration
    [var a = 2] in a scope that already declares [a]. *)
Definition assignUndeclaredField : ast.Stmt :=
  ast.AssignStmt [ast.SelectorExpr (ast.Ident "s" 3) "f"] token.ASSIGN
                 [ast.BasicLit "int" "1"].

Definition switchUndeclaredCase : ast.Stmt :=
  ast.SwitchStmt None ast.NilExpr [ast.CaseClause 10 [ast.Ident "y" 15] []].

Definition declareA (value : string) : ast.Stmt :=
  ast.DeclStmt
    (ast.GenDecl [ast.ValueSpec [ast.mkIdent "a" 4] ast.NilExpr
                                [ast.BasicLit "int" value]]).

(** A body scope that declares [a], and the statement [a, b := 1, "x"]
    in it. *)
Definition scopeWithA : State :=
  stub.exec (AddVariable
               (newSymbol stub.config "a" 4 (gotypes.Builtin "int" false)))
            stub.bodyState.

Definition redefineA : ast.Stmt :=
  ast.AssignStmt [ast.Ident "a" 20; ast.Ident "b" 23] token.DEFINE
                 [ast.BasicLit "int" "1"; ast.BasicLit "string" "x"].

(** A file scope that declares [f] with results [(int, string)], and a
    body scope below it. *)
Definition fileWithF : State :=
  stub.exec
    (AddVariable
       (gotypes.mkSymbolDef "f" "main"
          (Some (gotypes.Function []
                   [gotypes.Builtin "int" false;
                    gotypes.Builtin "string" false] false))
          "main.go:1"))
    stub.fileState.

Definition bodyWithF : State :=
  set_SymbolTable (stack.Push (stack.Push (SymbolTable fileWithF))) fileWithF.

Definition callF : ast.Expr := ast.CallExpr (ast.Ident "f" 40) [].

(** The declaration group [const ( A = iota; B; C )]. *)
Definition constGroup : ast.Decl :=
  ast.GenDecl
    [ast.ValueSpec [ast.mkIdent "A" 9] ast.NilExpr [ast.Ident "iota" 13];
     ast.ValueSpec [ast.mkIdent "B" 19] ast.NilExpr [];
     ast.ValueSpec [ast.mkIdent "C" 22] ast.NilExpr []].

(** The body scope after [const A = iota], in which [const B] follows. *)
Definition afterIota : State :=
  stub.exec
    (parseDeclStmt stub.config
       (ast.GenDecl [ast.ValueSpec [ast.mkIdent "A" 9] ast.NilExpr
                                   [ast.Ident "iota" 13]]))
    stub.bodyState.

(** The scope of a range statement over [s], where [s] is a variable of
    the given type: the body scope declares [s], and the range statement
    has pushed its own scope. *)
Definition rangeScope (d : gotypes.DataType) : State :=
  let st := stub.exec (AddVariable (newSymbol stub.config "s" 3 d))
                      stub.bodyState in
  set_SymbolTable (stack.Push (SymbolTable st)) st.

Definition attrOfS (d : gotypes.DataType) : ExprAttr :=
  mkExprAttr [d] [typevars.Variable_ "main" "s" "main.go:3"].

(** The scope of a select clause where the body scope declares
    [ch chan int], and the clause [case v, ok := <-ch]. *)
Definition clauseScope : State :=
  let st := stub.exec
              (AddVariable
                 (newSymbol stub.config "ch" 3
                    (gotypes.Channel "" (gotypes.Builtin "int" false))))
              stub.bodyState in
  set_SymbolTable (stack.Push (SymbolTable st)) st.

(** ** Further notions *)

(** The contract table [c'] extends [c]: the contracts of [c] are the
    first contracts of [c'], in the same order, and no index of a virtual
    variable handed out is handed out again. *)
Definition extends (c c' : contracts.Table) : Prop :=
  contracts.Contracts c `prefix_of` contracts.Contracts c' /\
  contracts.NextVirtual c <= contracts.NextVirtual c'.

(** What a computation keeps of the state besides the stack: the contract
    table is extended and a remembered [lastConstType] stays remembered. *)
Definition Keeps (st st' : State) : Prop :=
  extends (ContractTable st) (ContractTable st') /\
  (is_Some (lastConstType st) -> is_Some (lastConstType st')).

Definition keeps {A} (m : M A) : Prop := forall st, Keeps st (snd (m st)).

(** The assumption on the collaborators for [keeps]. *)
Definition collaborators_keep (cfg : Config) : Prop :=
  (forall e, keeps (ExprParser_Parse cfg e)) /\
  (forall e, keeps (TypeParser_Parse cfg e)) /\
  (forall d, keeps (FindFirstNonidDataType cfg d)).

(** What the clause loops need of one element of a switch or select
    body for [keeps]. *)
Definition clauseKeeps (P : ast.Stmt -> M unit) (s : ast.Stmt) : Prop :=
  match s with
  | ast.CaseClause _ _ body => Forall (fun x => keeps (P x)) body
  | ast.CommClause _ body => Forall (fun x => keeps (P x)) body
  | _ => True
  end.

(** [m] never returns an error: it returns [nil] or panics. *)
Definition noErr {A} (m : M A) : Prop :=
  forall st, is_Err (fst (m st)) = false.

(** The clauses of a switch body are case clauses. *)
Definition isCaseClause (s : ast.Stmt) : Prop :=
  match s with ast.CaseClause _ _ _ => True | _ => False end.

(** The name and position of a symbol, and those a name list gives to
    the symbols declared from it: one per name other than [_]. *)
Definition symbolKey (s : gotypes.SymbolDef) : string * string :=
  (gotypes.Name s, gotypes.Pos s).

Definition declaredKeys (cfg : Config) (names : list ast.IdentT)
  : list (string * string) :=
  map (fun n => (ast.Name n, SymbolPos cfg (ast.NamePos n)))
      (filter (fun n => ast.Name n <> "_") names).

(** The accepted forms of a method receiver, [T] and [*T], with the data
    type [parseReceiver] returns for them. *)
Definition receiverOf (cfg : Config) (e : ast.Expr)
  : option (string * gotypes.DataType) :=
  match e with
  | ast.Ident name _ =>
      Some (name, gotypes.Identifier name (PackageName cfg))
  | ast.StarExpr (ast.Ident name _) =>
      Some (name, gotypes.Pointer (gotypes.Identifier name (PackageName cfg)))
  | _ => None
  end.

(** The value of a computation that returned, and [d] otherwise. *)
Definition resultOr {A} (d : A) (m : M A) (st : State) : A :=
  match fst (m st) with Ok a => a | _ => d end.

(** The statements whose method opens a scope before it does anything
    else: blocks, [for], [select] (one scope per clause), type switches, and
    [if] and [switch] with an init statement. *)
Definition scoped (s : ast.Stmt) : bool :=
  match s with
  | ast.BlockStmt _ | ast.ForStmt _ _ _ _ | ast.SelectStmt _
  | ast.TypeSwitchStmt _ _ _ => true
  | ast.IfStmt (Some _) _ _ _ | ast.SwitchStmt (Some _) _ _ => true
  | _ => false
  end.

(** The statements that declare in the scope they stand in: declaration
    statements and [:=], under labels and as the [else] of an [if] without
    init statement. *)
Fixpoint declaresHere (s : ast.Stmt) : bool :=
  match s with
  | ast.DeclStmt _ => true
  | ast.AssignStmt _ tok _ => token.is_DEFINE tok
  | ast.LabeledStmt _ stmt => declaresHere stmt
  | ast.IfStmt None _ _ (Some e) => declaresHere e
  | _ => false
  end.

(** [m] leaves the stack of symbol tables as it found it. *)
Definition stackSame {A} (m : M A) : Prop :=
  forall st, SymbolTable (snd (m st)) = SymbolTable st.

(** Collaborators that only read the stack. *)
Definition collaborators_read_stack (cfg : Config) : Prop :=
  (forall e, stackSame (ExprParser_Parse cfg e)) /\
  (forall e, stackSame (TypeParser_Parse cfg e)) /\
  (forall d, stackSame (FindFirstNonidDataType cfg d)).

(** The clause [case int: z] of a type switch, where [z] is not
    declared, and the statement [z++]. *)
Definition clauseUsingUndeclared : ast.Stmt :=
  ast.CaseClause 10 [ast.Ident "int" 15] [ast.ExprStmt (ast.Ident "z" 40)].


(** The data types [parseRangeStmt] knows how to iterate over, once
    resolved. *)
Definition rangeable (d : gotypes.DataType) : bool :=
  match d with
  | gotypes.Array _ _ | gotypes.Slice _ | gotypes.Builtin _ _
  | gotypes.Identifier _ _ | gotypes.Map _ _ | gotypes.Channel _ _
  | gotypes.Ellipsis _ => true
  | _ => false
  end.

(** The symbols of one parameter or result field, as the header binder
    builds them from a type parsed against the stack [s]: the type parser
    returned the data type of the field in a state whose stack is [s], and
    each name of the field has a symbol of that type. *)
Definition parsedAgainst (cfg : Config) (s : stack.Stack) (f : ast.Field)
    (group : list gotypes.SymbolDef) : Prop :=
  exists d st_f st_f',
    TypeParser_Parse cfg (ast.Type_ f) st_f = (Ok d, st_f') /\
    SymbolTable st_f = s /\
    group = map (fun n => headerSymbol cfg n d) (ast.Names f).

(** A method without body whose receiver type is not declared, a range
    over [s] and a select clause receiving from [ch], with the scopes in
    which they are parsed. *)
Definition externMethodOfUnknown : ast.FuncDecl :=
  ast.mkFuncDecl
    (Some [ast.mkField [ast.mkIdent "r" 6] (ast.Ident "T" 8)])
    (Some (ast.mkIdent "m" 11)) (Some []) None None.

Definition scopeWithS (d : gotypes.DataType) : State :=
  stub.exec (AddVariable (newSymbol stub.config "s" 3 d)) stub.bodyState.

Definition rangeOverS : ast.Stmt :=
  ast.RangeStmt (ast.Ident "i" 20) (ast.Ident "c" 23) token.DEFINE
                (ast.Ident "s" 30) [ast.ExprStmt (ast.Ident "c" 40)].

Definition scopeWithCh : State :=
  stub.exec
    (AddVariable
       (newSymbol stub.config "ch" 3
          (gotypes.Channel "" (gotypes.Builtin "int" false))))
    stub.bodyState.

Definition receiveClause : ast.Stmt :=
  ast.CommClause
    (Some (ast.AssignStmt [ast.Ident "v" 20; ast.Ident "ok" 23] token.DEFINE
                          [ast.UnaryExpr token.ARROW (ast.Ident "ch" 31)]))
    [ast.ExprStmt (ast.Ident "v" 40)].

(** Modelled from the spec: the type parser is not among the sources.
    This stand-in resolves names through the stack, as a type parser has
    to: a name the stack holds as a variable is neither a type nor a
    package. *)
Fixpoint resolvingTypeParser (pkg : string) (e : ast.Expr)
  : M gotypes.DataType :=
  match e with
  | ast.Ident name _ =>
      if bool_decide (name ∈ ["bool"; "int"; "string"; "rune"; "error"])
      then ret (gotypes.Builtin name false)
      else
        let* r := try_ (LookupVariable name) in
        match r with
        | inr _ => fail (Errorf "not a type")
        | inl _ => ret (gotypes.Identifier name pkg)
        end
  | ast.SelectorExpr (ast.Ident qualifier _) sel =>
      let* r := try_ (LookupVariable qualifier) in
      match r with
      | inr _ => fail (Errorf "not a package")
      | inl _ => ret (gotypes.Identifier sel qualifier)
      end
  | ast.StarExpr x =>
      let* d := resolvingTypeParser pkg x in ret (gotypes.Pointer d)
  | _ => fail (Errorf "unsupported type expression")
  end.

Definition resolvingConfig : Config :=
  mkConfig "main" "main.go" stub.ExprParser (resolvingTypeParser "main")
           stub.FindFirstNonidDataType.

(** [func PostForm(url string, data url.Values)]: the parameter [url]
    has the name of the package of the type of [data]. *)
Definition urlValues : ast.Expr :=
  ast.SelectorExpr (ast.Ident "url" 35) "Values".

Definition postForm : ast.FuncDecl :=
  ast.mkFuncDecl None (Some (ast.mkIdent "PostForm" 5))
    (Some [ast.mkField [ast.mkIdent "url" 14] (ast.Ident "string" 18);
           ast.mkField [ast.mkIdent "data" 26] urlValues])
    None None.

(** The names of the fields of a parameter or result list, in order. *)
Definition fieldNames (fields : list ast.Field) : list string :=
  concat (map (fun f => map ast.Name (ast.Names f)) fields).

(** The value spec [var a, _, b = 1, 2, 3]. *)
Definition blankNames : list ast.IdentT :=
  [ast.mkIdent "a" 5; ast.mkIdent "_" 8; ast.mkIdent "b" 11].

Definition threeValues : list ast.Expr :=
  [ast.BasicLit "int" "1"; ast.BasicLit "int" "2"; ast.BasicLit "int" "3"].

(** A file scope that declares the type [T], the method
    [func (r *T) m(a, b int) (err error)], and a variable [fn] of a function
    type in a body scope. *)
Definition fileWithT : State :=
  stub.exec
    (AddDataType (gotypes.mkSymbolDef "T" "main"
                    (Some (gotypes.Struct [])) "main.go:1"))
    stub.fileState.

Definition methodOfT : ast.FuncDecl :=
  ast.mkFuncDecl
    (Some [ast.mkField [ast.mkIdent "r" 6]
                       (ast.StarExpr (ast.Ident "T" 9))])
    (Some (ast.mkIdent "m" 12))
    (Some [ast.mkField [ast.mkIdent "a" 14; ast.mkIdent "b" 17]
                       (ast.Ident "int" 19)])
    (Some [ast.mkField [ast.mkIdent "err" 25] (ast.Ident "error" 29)])
    (Some []).

Definition scopeWithFn : State :=
  stub.exec
    (AddVariable (newSymbol stub.config "fn" 3 (gotypes.Function [] [] false)))
    stub.bodyState.

(** The blank identifier on the left of an assignment, possibly in
    parentheses. *)
Definition isBlank (e : ast.Expr) : bool :=
  match stripParens e with
  | ast.Ident name _ => bool_decide (name = "_")
  | _ => false
  end.

(** Collaborators that leave the whole state as it is: what the statement
    parser does to the state with them is its own doing. *)
Definition collaborators_untouched (cfg : Config) : Prop :=
  (forall e, untouched (ExprParser_Parse cfg e)) /\
  (forall e, untouched (TypeParser_Parse cfg e)) /\
  (forall d, untouched (FindFirstNonidDataType cfg d)).

(** The declarations [var v = 1], [import ...; var a, b int; type T int]
    and a function, as the declarations of a file. *)
Definition fileDecls : list ast.Decl :=
  [ast.GenDecl [ast.ImportSpec];
   ast.GenDecl [ast.ValueSpec [ast.mkIdent "v" 4] ast.NilExpr
                              [ast.BasicLit "int" "1"]];
   ast.FuncDecl_;
   ast.GenDecl [ast.TypeSpec (ast.mkIdent "T" 30) (ast.Ident "int" 32);
                ast.ValueSpec [ast.mkIdent "a" 40; ast.mkIdent "b" 43]
                              (ast.Ident "int" 45) []]].

(** The kind of a contract: the struct it is a value of. *)
Definition kind (c : contracts.Contract) : nat :=
  match c with
  | contracts.BinaryOp _ _ _ _ _ => 0
  | contracts.UnaryOp _ _ _ _ => 1
  | contracts.PropagatesTo _ _ _ => 2
  | contracts.IsCompatibleWith _ _ _ _ => 3
  | contracts.IsInvocable _ _ => 4
  | contracts.HasField _ _ _ => 5
  | contracts.IsReferenceable _ => 6
  | contracts.ReferenceOf _ _ => 7
  | contracts.IsDereferenceable _ => 8
  | contracts.DereferenceOf _ _ => 9
  | contracts.IsIndexable _ _ _ => 10
  | contracts.IsSendableTo _ _ => 11
  | contracts.IsReceiveableFrom _ _ _ => 12
  | contracts.IsIncDecable _ => 13
  | contracts.IsRangeable _ => 14
  end%nat.

(** A declaration made in the innermost scope by one of the three [Add]
    methods of the stack, and a run of such declarations whose errors are
    dropped. *)
Inductive Declaration :=
| DeclVariable (sym : gotypes.SymbolDef)
| DeclDataType (sym : gotypes.SymbolDef)
| DeclFunction (sym : gotypes.SymbolDef).

Definition declare (d : Declaration) (s : stack.Stack)
  : Res unit * stack.Stack :=
  match d with
  | DeclVariable sym => stack.AddVariable sym s
  | DeclDataType sym => stack.AddDataType sym s
  | DeclFunction sym => stack.AddFunction sym s
  end.

Definition declareAll (ds : list Declaration) (s : stack.Stack)
  : stack.Stack :=
  foldl (fun s d => snd (declare d s)) s ds.

(** A stack of two scopes for the runs: [x] at the file level. *)
Definition symX : gotypes.SymbolDef :=
  gotypes.mkSymbolDef "x" "pkg" None "f.go:1".

Definition symY : gotypes.SymbolDef :=
  gotypes.mkSymbolDef "y" "pkg" None "f.go:2".

Definition twoScopes : stack.Stack :=
  stack.Push (declareAll [DeclVariable symX] (stack.Push stack.New)).

(** * Properties *)

(** ** Scope frames *)

Lemma Below_refl s : stack.wf s -> Below s s.
Proof. by intros H; repeat split. Qed.

Lemma Below_trans s1 s2 s3 : Below s1 s2 -> Below s2 s3 -> Below s1 s3.
Proof.
  intros (_ & Hs & Ht) (Hw & Hs' & Ht'). repeat split; [done | congruence |].
  rewrite Hs in Ht'. congruence.
Qed.

Lemma restores_frames {A} (m : M A) : restores m -> frames m.
Proof. intros H st Hw. rewrite H by done. by apply Below_refl. Qed.

Lemma frames_ret {A} (a : A) : frames (ret a).
Proof. intros st Hw. by apply Below_refl. Qed.

Lemma frames_fail {A} e : frames (@fail A e).
Proof. intros st Hw. by apply Below_refl. Qed.

Lemma frames_panic {A} msg : frames (@panic A msg).
Proof. intros st Hw. by apply Below_refl. Qed.

Lemma frames_bind {A B} (m : M A) (k : A -> M B) :
  frames m -> (forall a, frames (k a)) -> frames (bind m k).
Proof.
  intros Hm Hk st Hw. unfold bind. specialize (Hm st Hw).
  destruct (m st) as [[a|e|p] st1]; simpl in *; try done.
  eapply Below_trans; [exact Hm |]. apply Hk, Hm.
Qed.

Lemma frames_try {A} (m : M A) : frames m -> frames (try_ m).
Proof.
  intros Hm st Hw. unfold try_. specialize (Hm st Hw).
  by destruct (m st) as [[a|e|p] st1].
Qed.

Lemma frames_ignore_err {A} (m : M A) : frames m -> frames (ignore_err m).
Proof.
  intros Hm. apply frames_bind; [by apply frames_try |].
  intros _. apply frames_ret.
Qed.

Lemma frames_wrap_err {A} prefix (m : M A) :
  frames m -> frames (wrap_err prefix m).
Proof.
  intros Hm. apply frames_bind; [by apply frames_try |].
  intros [e|a]; [apply frames_fail | apply frames_ret].
Qed.

Lemma frames_defer {A} (d : M unit) (m : M A) :
  frames m -> frames d -> frames (defer_ d m).
Proof.
  intros Hm Hd st Hw. unfold defer_. specialize (Hm st Hw).
  destruct (m st) as [r st1]; simpl in *.
  assert (Below (SymbolTable st1) (SymbolTable (snd (d st1)))) as H1
    by apply Hd, Hm.
  destruct (d st1) as [[[]|e|p] st2]; simpl in *;
    by eapply Below_trans.
Qed.

Lemma frames_index {A} (l : list A) i : frames (index l i).
Proof. unfold index. destruct (l !! i); [apply frames_ret | apply frames_panic]. Qed.

(** Computations that do not touch the stack. *)
Lemma frames_untouched {A} (m : M A) :
  (forall st, SymbolTable (snd (m st)) = SymbolTable st) -> frames m.
Proof. intros H. apply restores_frames. intros st _. apply H. Qed.

Lemma frames_AddContract c : frames (AddContract c).
Proof. by apply frames_untouched. Qed.

Lemma frames_NewVirtualVar : frames NewVirtualVar.
Proof. by apply frames_untouched. Qed.

Lemma frames_Lock : frames Lock.
Proof. by apply frames_untouched. Qed.

Lemma frames_Unlock : frames Unlock.
Proof. by apply frames_untouched. Qed.

Lemma frames_CurrentLevel : frames CurrentLevel.
Proof. by apply frames_untouched. Qed.

Lemma frames_LookupVariable name : frames (LookupVariable name).
Proof. by apply frames_untouched. Qed.

Lemma frames_Lookup name : frames (Lookup name).
Proof. by apply frames_untouched. Qed.

Lemma frames_setLastConstType d : frames (setLastConstType d).
Proof. by apply frames_untouched. Qed.

Lemma frames_getLastConstType : frames getLastConstType.
Proof. by apply frames_untouched. Qed.

Lemma frames_AllocAddDataType pkg name pos :
  frames (AllocAddDataType pkg name pos).
Proof. by apply frames_untouched. Qed.

Lemma wf_Size_nonneg s : stack.wf s -> 0 <= stack.Size s.
Proof. unfold stack.wf. lia. Qed.

Lemma Below_addAtTop add sym s :
  stack.wf s -> Below s (snd (stack.addAtTop add sym s)).
Proof.
  intros Hw. unfold stack.addAtTop.
  destruct (decide (stack.Size s > 0)); [| by apply Below_refl].
  destruct (stack.table_at s (stack.Size s - 1)) as [t|];
    [| by apply Below_refl].
  destruct (add sym t); simpl; try by apply Below_refl.
  repeat split; simpl.
  - unfold stack.wf in *. simpl. by rewrite length_insert.
  - by rewrite take_insert_ge.
Qed.

Lemma frames_liftStack_add add sym :
  frames (liftStack (stack.addAtTop add sym)).
Proof.
  intros st Hw. unfold liftStack.
  pose proof (Below_addAtTop add sym _ Hw) as H.
  by destruct (stack.addAtTop add sym (SymbolTable st)).
Qed.

Lemma frames_AddVariable sym : frames (AddVariable sym).
Proof. apply frames_liftStack_add. Qed.

Lemma frames_AddDataType sym : frames (AddDataType sym).
Proof. apply frames_liftStack_add. Qed.

(** A scope pushed before [m] and popped by a deferred call after it:
    the stack is the one before the push, however [m] ends. *)
Lemma restores_scope {A} (m : M A) :
  frames m -> restores (Push ;; defer_ Pop m).
Proof.
  intros Hm st Hw. unfold bind, Push, defer_. simpl.
  set (st1 := set_SymbolTable (stack.Push (SymbolTable st)) st).
  assert (stack.wf (SymbolTable st1)) as Hw1.
  { unfold stack.wf in *. simpl. rewrite length_app. simpl. lia. }
  destruct (Hm st1 Hw1) as (Hw2 & Hs & Ht).
  destruct (m st1) as [r st2]; simpl in *.
  unfold Pop, liftStack, stack.Pop.
  pose proof (wf_Size_nonneg _ Hw) as Hnn.
  destruct (decide (stack.Size (SymbolTable st2) > 0)) as [_|Hn]; [| lia].
  assert (SymbolTable
            (set_SymbolTable
               (stack.mkStack
                  (take (Z.to_nat (stack.Size (SymbolTable st2) - 1))
                        (stack.Tables (SymbolTable st2)))
                  (stack.Size (SymbolTable st2) - 1)) st2)
          = SymbolTable st) as Heq.
  { simpl. rewrite Hs.
    replace (stack.Size (SymbolTable st) + 1 - 1) with
      (stack.Size (SymbolTable st)) in * by lia.
    rewrite Ht. unfold stack.wf in Hw. rewrite Hw, Nat2Z.id.
    rewrite take_app_length. rewrite <- Hw. by destruct (SymbolTable st). }
  by destruct r.
Qed.

Lemma frames_scope {A} (m : M A) :
  frames m -> frames (Push ;; defer_ Pop m).
Proof. intros Hm. by apply restores_frames, restores_scope. Qed.

(** ** Every statement works in the innermost scope *)

Create HintDb frames.

#[export] Hint Resolve frames_ret frames_fail frames_panic frames_index
  frames_AddContract frames_NewVirtualVar frames_Lock frames_Unlock
  frames_CurrentLevel frames_LookupVariable frames_Lookup
  frames_setLastConstType frames_getLastConstType frames_AllocAddDataType
  frames_AddVariable frames_AddDataType : frames.

(** Decompose a computation along its binds and case distinctions. *)
Ltac frames_step :=
  lazymatch goal with
  | |- frames (bind _ _) => apply frames_bind; [| intros ?]
  | |- frames (try_ _) => apply frames_try
  | |- frames (ignore_err _) => apply frames_ignore_err
  | |- frames (wrap_err _ _) => apply frames_wrap_err
  | |- frames (if ?b then _ else _) => destruct b
  | |- frames (match ?x with _ => _ end) => destruct x
  | |- frames (let _ := _ in _) => cbv zeta
  | |- frames _ => solve [eauto with frames]
  end.

Ltac frames_go := repeat frames_step.

Section Frames.

Context (cfg : Config) (Hcfg : collaborators_frame cfg).

Lemma frames_ExprParser e : frames (ExprParser_Parse cfg e).
Proof. apply Hcfg. Qed.

Lemma frames_TypeParser e : frames (TypeParser_Parse cfg e).
Proof. apply Hcfg. Qed.

Lemma frames_FindFirstNonid d : frames (FindFirstNonidDataType cfg d).
Proof. apply Hcfg. Qed.

Hint Resolve frames_ExprParser frames_TypeParser frames_FindFirstNonid
  : frames.

Lemma frames_parseReceiver e skip : frames (parseReceiver cfg e skip).
Proof. unfold parseReceiver. frames_go. Qed.

Lemma frames_clearPackageBelowFile sDef :
  frames (clearPackageBelowFile sDef).
Proof. unfold clearPackageBelowFile. frames_go. Qed.

Hint Resolve frames_parseReceiver frames_clearPackageBelowFile : frames.

Lemma frames_valueSpecTuple typeDef attr names i acc :
  frames (valueSpecTuple cfg typeDef attr names i acc).
Proof.
  revert i acc. induction names as [|name rest IH]; intros i acc; simpl;
    frames_go.
Qed.

Lemma frames_valueSpecEach typeDef names values i acc :
  frames (valueSpecEach cfg typeDef names values i acc).
Proof.
  revert i acc. induction values as [|v rest IH]; intros i acc; simpl;
    frames_go.
Qed.

Lemma frames_valueSpecRest typeDef names acc :
  frames (valueSpecRest cfg typeDef names acc).
Proof.
  revert typeDef acc. induction names as [|name rest IH];
    intros typeDef acc; simpl; frames_go.
Qed.

Hint Resolve frames_valueSpecTuple frames_valueSpecEach
  frames_valueSpecRest : frames.

Lemma frames_ParseValueSpec names type_ values :
  frames (ParseValueSpec cfg names type_ values).
Proof.
  unfold ParseValueSpec, valueSpecType, valueSpecSingle. frames_go.
Qed.

Lemma frames_addVariables defs : frames (addVariables defs).
Proof. induction defs as [|d rest IH]; simpl; frames_go. Qed.

Hint Resolve frames_ParseValueSpec frames_addVariables : frames.

Lemma frames_parseDeclStmt decl : frames (parseDeclStmt cfg decl).
Proof.
  destruct decl as [|specs|]; simpl; frames_go.
  induction specs as [|spec rest IH]; simpl; [frames_go |].
  destruct spec; unfold parseTypeSpec; frames_go.
Qed.

Lemma frames_parseReturnStmt results : frames (parseReturnStmt cfg results).
Proof. induction results as [|r rest IH]; simpl; frames_go. Qed.

Lemma frames_rhsIndexer k rhs i : frames (rhsIndexer cfg k rhs i).
Proof. unfold rhsIndexer. frames_go. Qed.

Lemma frames_assignRhsIndexer lhs rhs : frames (assignRhsIndexer cfg lhs rhs).
Proof. unfold assignRhsIndexer. frames_go. Qed.

Lemma frames_assignLhs tok lhs rhsExpr rhsTypeVar :
  frames (assignLhs cfg tok lhs rhsExpr rhsTypeVar).
Proof. unfold assignLhs. frames_go. Qed.

Hint Resolve frames_rhsIndexer frames_assignRhsIndexer frames_assignLhs
  : frames.

Lemma frames_assignLoop k tok rhs lhs i :
  frames (assignLoop cfg k tok rhs lhs i).
Proof.
  revert i. induction lhs as [|l rest IH]; intros i; simpl; frames_go.
Qed.

Hint Resolve frames_assignLoop : frames.

Lemma frames_parseAssignStmt lhs tok rhs :
  frames (parseAssignStmt cfg lhs tok rhs).
Proof. unfold parseAssignStmt. frames_go. Qed.

Hint Resolve frames_parseDeclStmt frames_parseReturnStmt
  frames_parseAssignStmt : frames.

End Frames.

(** ** Induction on statements

    A property that holds of a statement when it holds of the statements
    it holds directly, holds of all statements. *)

Lemma Stmt_children_ind (P : ast.Stmt -> Prop) :
  (forall s, Forall P (children s) -> P s) -> forall s, P s.
Proof.
  intros H. fix F 1. intros s. apply H.
  destruct s; simpl; try (constructor; fail);
    repeat (apply Forall_app; split);
    repeat match goal with
      | |- Forall P (optStmt ?o) =>
          destruct o; simpl; constructor; [apply F | constructor]
      | |- Forall P [_] => constructor; [apply F | constructor]
      | |- Forall P ?l =>
          induction l; constructor; [apply F | assumption]
      end.
Qed.

Ltac frames_step' :=
  lazymatch goal with
  | |- frames (bind Push (fun _ => defer_ Pop _)) => apply frames_scope
  | |- frames (defer_ Unlock _) => apply frames_defer; [| apply frames_Unlock]
  | |- _ => frames_step
  end.

Ltac frames_go' := repeat frames_step'.

Section FramesControl.

Context (cfg : Config) (Hcfg : collaborators_frame cfg).
Context (P : ast.Stmt -> M unit).

Hint Resolve frames_ExprParser frames_TypeParser frames_FindFirstNonid
  frames_parseDeclStmt frames_parseReturnStmt frames_parseAssignStmt
  : frames.

Lemma frames_parseStmtList l :
  Forall (fun s => frames (P s)) l -> frames (parseStmtList P l).
Proof.
  induction 1 as [|s rest Hs Hrest IH]; simpl; frames_go.
Qed.

Lemma frames_parseBlockStmt l :
  Forall (fun s => frames (P s)) l -> frames (parseBlockStmt P l).
Proof.
  intros Hl. unfold parseBlockStmt. apply frames_scope.
  by apply frames_parseStmtList.
Qed.

Lemma frames_parseBody l :
  Forall (fun s => frames (P s)) l -> frames (parseBody P l).
Proof.
  intros Hl. unfold parseBody. destruct l; [apply frames_ret |].
  by apply frames_parseBlockStmt.
Qed.

Hint Resolve frames_parseStmtList frames_parseBlockStmt frames_parseBody
  : frames.

Lemma frames_withInit init k :
  Forall (fun s => frames (P s)) (optStmt init) -> frames k ->
  frames (withInit P init k).
Proof.
  intros Hi Hk. unfold withInit. destruct init as [s|]; [| done].
  apply Forall_cons in Hi as [Hs _]. frames_go'.
Qed.

Lemma frames_parseIfStmt init cond body else_ :
  Forall (fun s => frames (P s)) (optStmt init) ->
  Forall (fun s => frames (P s)) body ->
  Forall (fun s => frames (P s)) (optStmt else_) ->
  frames (parseIfStmt cfg P init cond body else_).
Proof.
  intros Hi Hb He. unfold parseIfStmt. apply frames_withInit; [done |].
  destruct else_ as [e|]; [apply Forall_cons in He as [He _] |]; frames_go.
Qed.

Lemma frames_switchCaseExprs tv l : frames (switchCaseExprs cfg tv l).
Proof. induction l as [|e rest IH]; simpl; frames_go. Qed.

Hint Resolve frames_switchCaseExprs : frames.

Lemma frames_switchClauses tv l :
  Forall (clauseFrames P) l -> frames (switchClauses cfg P tv l).
Proof.
  induction 1 as [|s rest Hs Hrest IH]; simpl; [frames_go |].
  destruct s; simpl in Hs; frames_go.
Qed.

Lemma frames_parseSwitchStmt init tag body :
  Forall (fun s => frames (P s)) (optStmt init) ->
  Forall (clauseFrames P) body ->
  frames (parseSwitchStmt cfg P init tag body).
Proof.
  intros Hi Hb. unfold parseSwitchStmt. apply frames_withInit; [done |].
  pose proof (frames_switchClauses) as Hc. frames_go.
Qed.

Lemma frames_typeSwitchCaseTypes tv l : frames (typeSwitchCaseTypes cfg tv l).
Proof. induction l as [|e rest IH]; simpl; frames_go. Qed.

Lemma frames_typeSwitchBind rhsIdentifier pos def :
  frames (typeSwitchBind cfg rhsIdentifier pos def).
Proof. unfold typeSwitchBind. frames_go. Qed.

Hint Resolve frames_typeSwitchCaseTypes frames_typeSwitchBind : frames.

Lemma frames_typeSwitchClause rhsIdentifier tv pos list_ body :
  Forall (fun x => frames (P x)) body ->
  frames (typeSwitchClause cfg P rhsIdentifier tv pos list_ body).
Proof. intros Hb. unfold typeSwitchClause. frames_go'. Qed.

Lemma frames_typeSwitchClauses rhsIdentifier tv l :
  Forall (clauseFrames P) l ->
  frames (typeSwitchClauses cfg P rhsIdentifier tv l).
Proof.
  induction 1 as [|s rest Hs Hrest IH]; simpl; [frames_go |].
  pose proof frames_typeSwitchClause as Hc.
  destruct s; simpl in Hs; frames_go.
Qed.

Lemma frames_typeSwitchGuard x k :
  (forall tv, frames (k tv)) -> frames (typeSwitchGuard cfg x k).
Proof. intros Hk. unfold typeSwitchGuard. frames_go. Qed.

Lemma frames_parseTypeSwitchStmt init assign body :
  Forall (fun s => frames (P s)) (optStmt init) ->
  Forall (clauseFrames P) body ->
  frames (parseTypeSwitchStmt cfg P init assign body).
Proof.
  intros Hi Hb. unfold parseTypeSwitchStmt. apply frames_withInit; [done |].
  pose proof frames_typeSwitchClauses as Hc.
  apply frames_scope.
  destruct assign as [[]|]; frames_go';
    apply frames_typeSwitchGuard; intros tv; frames_go'.
Qed.

Lemma frames_selectBind name pos def x : frames (selectBind cfg name pos def x).
Proof. unfold selectBind. frames_go. Qed.

Lemma frames_selectAssign lhs x : frames (selectAssign cfg lhs x).
Proof. unfold selectAssign. frames_go. Qed.

Hint Resolve frames_selectBind frames_selectAssign : frames.

Lemma frames_selectRecv lhs tok rhs : frames (selectRecv cfg lhs tok rhs).
Proof. unfold selectRecv. frames_go. Qed.

Hint Resolve frames_selectRecv : frames.

Lemma frames_selectComm comm : frames (selectComm cfg comm).
Proof. unfold selectComm. frames_go. Qed.

Hint Resolve frames_selectComm : frames.

Lemma frames_selectClause stmt :
  clauseFrames P stmt -> frames (selectClause cfg P stmt).
Proof.
  intros Hs. unfold selectClause. apply frames_scope.
  destruct stmt; simpl in Hs; frames_go.
Qed.

Lemma frames_parseSelectStmt body :
  Forall (clauseFrames P) body -> frames (parseSelectStmt cfg P body).
Proof.
  unfold parseSelectStmt.
  induction 1 as [|s rest Hs Hrest IH]; simpl; [frames_go |].
  pose proof frames_selectClause as Hc. frames_go.
Qed.

Lemma frames_parseForStmt init cond post body :
  Forall (fun s => frames (P s)) (optStmt init) ->
  Forall (fun s => frames (P s)) (optStmt post) ->
  Forall (fun s => frames (P s)) body ->
  frames (parseForStmt cfg P init cond post body).
Proof.
  intros Hi Hp Hb. unfold parseForStmt. apply frames_scope.
  destruct init as [i|]; [apply Forall_cons in Hi as [Hi _] |];
    (destruct post as [p|]; [apply Forall_cons in Hp as [Hp _] |]);
    frames_go.
Qed.

Lemma frames_rangeKeyValue d : frames (rangeKeyValue d).
Proof. unfold rangeKeyValue. frames_go. Qed.

Lemma frames_rangeKey tok keyExpr key tv : frames (rangeKey cfg tok keyExpr key tv).
Proof. unfold rangeKey. frames_go. Qed.

Lemma frames_rangeValue tok valueExpr value tv :
  frames (rangeValue cfg tok valueExpr value tv).
Proof. unfold rangeValue. frames_go. Qed.

Hint Resolve frames_rangeKeyValue frames_rangeKey frames_rangeValue : frames.

Lemma frames_rangeBindings key value tok attr :
  frames (rangeBindings cfg key value tok attr).
Proof. unfold rangeBindings. frames_go. Qed.

Hint Resolve frames_rangeBindings : frames.

Lemma frames_parseRangeStmt key value tok x body :
  Forall (fun s => frames (P s)) body ->
  frames (parseRangeStmt cfg P key value tok x body).
Proof. intros Hb. unfold parseRangeStmt. frames_go'. Qed.

End FramesControl.

Section FramesParse.

Context (cfg : Config) (Hcfg : collaborators_frame cfg).

Hint Resolve frames_ExprParser frames_TypeParser frames_FindFirstNonid
  frames_parseDeclStmt frames_parseReturnStmt frames_parseAssignStmt
  frames_parseReceiver : frames.

Lemma frames_Parse_clauses s :
  frames (Parse cfg s) /\ clauseFrames (Parse cfg) s.
Proof.
  induction s as [s IH] using Stmt_children_ind.
  assert (forall l, Forall (fun s => frames (Parse cfg s) /\
                                     clauseFrames (Parse cfg) s) l ->
                    Forall (fun s => frames (Parse cfg s)) l) as Hf.
  { intros l Hl. eapply Forall_impl; [exact Hl |]. by intros x []. }
  assert (forall l, Forall (fun s => frames (Parse cfg s) /\
                                     clauseFrames (Parse cfg) s) l ->
                    Forall (clauseFrames (Parse cfg)) l) as Hc.
  { intros l Hl. eapply Forall_impl; [exact Hl |]. by intros x []. }
  destruct s; simpl in IH; repeat rewrite Forall_app in IH;
    (split; [| simpl; intuition auto]); simpl.
  - apply frames_panic.
  - by apply frames_parseDeclStmt.
  - apply frames_ret.
  - by apply Forall_cons in IH as [[H _] _].
  - unfold parseExprStmt. frames_go.
  - unfold parseSendStmt. frames_go.
  - unfold parseIncDecStmt. frames_go.
  - by apply frames_parseAssignStmt.
  - unfold parseGoStmt. frames_go.
  - unfold parseDeferStmt. frames_go.
  - by apply frames_parseReturnStmt.
  - apply frames_ret.
  - apply frames_parseBlockStmt; auto.
  - destruct IH as (Hi & Hb & He). apply frames_parseIfStmt; auto.
  - apply frames_panic.
  - destruct IH as (Hi & Hb). apply frames_parseSwitchStmt; auto.
  - destruct IH as (Hi & Ha & Hb). apply frames_parseTypeSwitchStmt; auto.
  - apply frames_panic.
  - apply frames_parseSelectStmt; auto.
  - destruct IH as (Hi & Hp & Hb). apply frames_parseForStmt; auto.
  - apply frames_parseRangeStmt; auto.
Qed.

Lemma frames_Parse s : frames (Parse cfg s).
Proof. apply frames_Parse_clauses. Qed.

Lemma frames_headFieldNames def names sDefs :
  frames (headFieldNames cfg def names sDefs).
Proof.
  revert sDefs. induction names as [|n rest IH]; intros sDefs; simpl;
    frames_go.
Qed.

Hint Resolve frames_headFieldNames : frames.

Lemma frames_headFields prefix fields sDefs :
  frames (headFields cfg prefix fields sDefs).
Proof.
  revert sDefs. induction fields as [|f rest IH]; intros sDefs; simpl;
    frames_go.
Qed.

Lemma frames_addHeadVariables sDefs : frames (addHeadVariables sDefs).
Proof. induction sDefs as [|d rest IH]; simpl; frames_go. Qed.

Hint Resolve frames_headFields frames_addHeadVariables : frames.

Lemma frames_parseFuncHeadVariables funcDecl :
  frames (parseFuncHeadVariables cfg funcDecl).
Proof.
  unfold parseFuncHeadVariables, headReceiver, headOptFields. frames_go'.
Qed.

End FramesParse.

(** ** The function body leaves the stack as it found it *)

Lemma wf_Push s : stack.wf s -> stack.wf (stack.Push s).
Proof. unfold stack.wf. simpl. rewrite length_app. simpl. lia. Qed.

(** Popping a stack that has the tables of [Push s] below its top gives
    [s] back. *)
Lemma Pop_Below_Push s s' :
  stack.wf s -> Below (stack.Push s) s' -> stack.Pop s' = (Ok tt, s).
Proof.
  intros Hw (Hw' & Hs & Ht). unfold stack.Pop. simpl in *.
  pose proof (wf_Size_nonneg _ Hw) as Hnn.
  destruct (decide (stack.Size s' > 0)) as [_|Hn]; [| lia].
  rewrite Hs.
  replace (stack.Size s + 1 - 1) with (stack.Size s) in * by lia.
  rewrite Ht. unfold stack.wf in Hw. rewrite Hw, Nat2Z.id.
  rewrite take_app_length. rewrite <- Hw. by destruct s.
Qed.

Lemma set_SymbolTable_same st : set_SymbolTable (SymbolTable st) st = st.
Proof. by destruct st. Qed.

(** Both return paths of [ParseFuncBody] pop what they pushed. *)
Lemma ParseFuncBody_stack cfg funcDecl st :
  collaborators_frame cfg ->
  stack.wf (SymbolTable st) ->
  is_Panic (fst (ParseFuncBody cfg funcDecl st)) = false ->
  SymbolTable (snd (ParseFuncBody cfg funcDecl st)) = SymbolTable st.
Proof.
  intros Hcfg Hw.
  destruct (ParseFuncBody cfg funcDecl st) as [res st'] eqn:Heq. simpl.
  revert Heq. unfold ParseFuncBody.
  unfold bind at 1. unfold Push at 1. simpl.
  set (st1 := set_SymbolTable (stack.Push (SymbolTable st)) st).
  assert (stack.wf (SymbolTable st1)) as Hw1 by by apply wf_Push.
  pose proof (frames_parseFuncHeadVariables cfg Hcfg funcDecl st1 Hw1) as Hh.
  unfold bind at 1. unfold try_.
  destruct (parseFuncHeadVariables cfg funcDecl st1) as [[[]|e|p] st2];
    simpl in Hh.
  - (* the header is bound *)
    unfold bind at 1. unfold Push at 1. simpl.
    set (st3 := set_SymbolTable (stack.Push (SymbolTable st2)) st2).
    assert (stack.wf (SymbolTable st3)) as Hw3 by by apply wf_Push, Hh.
    assert (frames (match ast.Body funcDecl with
                    | Some list_ => parseStmtList (Parse cfg) list_
                    | None => ret tt
                    end)) as Hb.
    { destruct (ast.Body funcDecl) as [l|]; [| apply frames_ret].
      apply frames_parseStmtList, Forall_forall. intros s _.
      by apply frames_Parse. }
    specialize (Hb st3 Hw3). unfold defer_.
    destruct (match ast.Body funcDecl with
              | Some list_ => parseStmtList (Parse cfg) list_
              | None => ret tt
              end st3) as [r st4]; simpl in Hb.
    unfold bind, Pop, liftStack.
    rewrite (Pop_Below_Push (SymbolTable st2) (SymbolTable st4))
      by (done || apply Hh).
    simpl. rewrite (Pop_Below_Push (SymbolTable st) (SymbolTable st2)) by done.
    intros [= <- <-] _. done.
  - (* the header binder returns an error *)
    unfold bind, Pop, liftStack, fail.
    rewrite (Pop_Below_Push (SymbolTable st) (SymbolTable st2)) by done.
    intros [= <- <-] _. done.
  - (* the header binder panics *)
    by intros [= <- <-].
Qed.

(** C7.  When [ParseFuncBody] returns, with [nil] or with an error (from
    the header binder or from any statement of the body), the symbol-table
    stack has the size it had before the call and the table of level 0 is
    the one before the call; indeed the whole stack is.  The collaborating
    parsers are assumed to work in the innermost scope, and the stack to be
    one whose [Size] is its number of tables. *)
Theorem ParseFuncBody_scope_discipline cfg funcDecl st :
  collaborators_frame cfg ->
  stack.wf (SymbolTable st) ->
  is_Panic (fst (ParseFuncBody cfg funcDecl st)) = false ->
  let s' := SymbolTable (snd (ParseFuncBody cfg funcDecl st)) in
  stack.Size s' = stack.Size (SymbolTable st) /\
  stack.Table 0 s' = stack.Table 0 (SymbolTable st) /\
  s' = SymbolTable st.
Proof.
  intros Hcfg Hw Hr s'. subst s'.
  by rewrite (ParseFuncBody_stack cfg funcDecl st Hcfg Hw Hr).
Qed.

(** ** The stand-in collaborators work in the innermost scope *)

Lemma untouched_bind {A B} (m : M A) (k : A -> M B) :
  untouched m -> (forall a, untouched (k a)) -> untouched (bind m k).
Proof.
  intros Hm Hk st. unfold bind. specialize (Hm st).
  destruct (m st) as [[a|e|p] st1]; simpl in *; subst; [apply Hk | done..].
Qed.

Lemma untouched_ret {A} (a : A) : untouched (ret a).
Proof. done. Qed.

Lemma untouched_fail {A} e : untouched (@fail A e).
Proof. done. Qed.

Lemma untouched_LookupVariable name : untouched (LookupVariable name).
Proof. done. Qed.

Ltac untouched_go :=
  repeat lazymatch goal with
    | |- untouched (bind _ _) => apply untouched_bind; [| intros ?]
    | |- untouched (ret _) => apply untouched_ret
    | |- untouched (fail _) => apply untouched_fail
    | |- untouched (LookupVariable _) => apply untouched_LookupVariable
    | |- untouched (if ?b then _ else _) => destruct b
    | |- untouched (match ?x with _ => _ end) => destruct x
    | |- untouched _ => assumption
    end.

Lemma stub_ExprParser_untouched e : untouched (stub.ExprParser e).
Proof. induction e; simpl; untouched_go. Qed.

Lemma stub_TypeParser_untouched pkg e : untouched (stub.TypeParser pkg e).
Proof. induction e; simpl; untouched_go. Qed.

Lemma stub_collaborators_frame : collaborators_frame stub.config.
Proof.
  split; [| split]; intros x; apply frames_untouched; intros st; simpl.
  - by rewrite stub_ExprParser_untouched.
  - by rewrite stub_TypeParser_untouched.
  - done.
Qed.

Lemma ParseFuncBody_scope_discipline_witness :
  stack.wf (SymbolTable stub.fileState) /\
  fst (ParseFuncBody stub.config (addDecl (Some addBody)) stub.fileState)
    = Ok tt /\
  fst (ParseFuncBody stub.config methodOfUnknown stub.fileState)
    = Err (Wrapf "sp.ParseFuncBody"
             (Wrapf "sp.parseReceiver" (Errorf "Symbol not found"))) /\
  fst (ParseFuncBody stub.config (addDecl (Some useUndeclared))
                     stub.fileState)
    = Err (Errorf "Symbol not found") /\
  Forall
    (fun funcDecl =>
       let s' := SymbolTable (snd (ParseFuncBody stub.config funcDecl
                                     stub.fileState)) in
       stack.Size s' = stack.Size (SymbolTable stub.fileState) /\
       stack.Table 0 s' = stack.Table 0 (SymbolTable stub.fileState) /\
       s' = SymbolTable stub.fileState)
    [addDecl (Some addBody); methodOfUnknown; addDecl (Some useUndeclared)].
Proof.
  split; [reflexivity |].
  repeat (split; [vm_compute; reflexivity |]).
  repeat apply Forall_cons_2; try apply Forall_nil_2.
  - apply (ParseFuncBody_scope_discipline stub.config
             (addDecl (Some addBody)) stub.fileState
             stub_collaborators_frame); [reflexivity | vm_compute; reflexivity].
  - apply (ParseFuncBody_scope_discipline stub.config methodOfUnknown
             stub.fileState stub_collaborators_frame);
      [reflexivity | vm_compute; reflexivity].
  - apply (ParseFuncBody_scope_discipline stub.config
             (addDecl (Some useUndeclared)) stub.fileState
             stub_collaborators_frame); [reflexivity | vm_compute; reflexivity].
Defined.

(** ** Errors that do not reach the caller *)

(** C1 (the code departs from it).  In each of the three places the
    collaborator returns an error and [Parse] returns [nil]: the
    expression parser on the selector left-hand side of an assignment and
    on a case expression of a value switch, [AddVariable] on a symbol that
    [ParseValueSpec] produced. *)
Theorem Parse_returns_nil_on_collaborator_error :
  (stub.result (ExprParser_Parse stub.config
                  (ast.SelectorExpr (ast.Ident "s" 3) "f")) stub.bodyState
     = Err (Errorf "Symbol not found") /\
   stub.result (Parse stub.config assignUndeclaredField) stub.bodyState
     = Ok tt) /\
  (stub.result (ExprParser_Parse stub.config (ast.Ident "y" 15))
               stub.bodyState
     = Err (Errorf "Symbol not found") /\
   stub.result (Parse stub.config switchUndeclaredCase) stub.bodyState
     = Ok tt) /\
  (let st := stub.exec (Parse stub.config (declareA "1")) stub.bodyState in
   stub.result (AddVariable
                  (newSymbol stub.config "a" 4 (gotypes.Builtin "int" true)))
               st
     = Err (Errorf "symbol already exists") /\
   stub.result (Parse stub.config (declareA "2")) st = Ok tt).
Proof. repeat split; vm_compute; reflexivity. Qed.

(** ** The package of symbols declared below file level *)

(** C5 (the code departs from it).  [var a, b int = 1, 2] inside a
    function body, at level 2 of the stack: the element-wise loop stores
    both symbols with the package name, and so does the last loop for
    [var c, d int]; only the loop of the single-value branch clears it, as
    for [var e int = 1]. *)
Theorem ParseValueSpec_keeps_package_below_file_level :
  stack.CurrentLevel (SymbolTable stub.bodyState) = 2 /\
  stub.result
    (ParseValueSpec stub.config [ast.mkIdent "a" 5; ast.mkIdent "b" 8]
       (ast.Ident "int" 10) [ast.BasicLit "int" "1"; ast.BasicLit "int" "2"])
    stub.bodyState
  = Ok [gotypes.mkSymbolDef "a" "main" (Some (gotypes.Builtin "int" false))
                            "main.go:5";
        gotypes.mkSymbolDef "b" "main" (Some (gotypes.Builtin "int" false))
                            "main.go:8"] /\
  stub.result
    (ParseValueSpec stub.config [ast.mkIdent "c" 5; ast.mkIdent "d" 8]
       (ast.Ident "int" 10) [])
    stub.bodyState
  = Ok [gotypes.mkSymbolDef "c" "main" (Some (gotypes.Builtin "int" false))
                            "main.go:5";
        gotypes.mkSymbolDef "d" "main" (Some (gotypes.Builtin "int" false))
                            "main.go:8"] /\
  stub.result
    (ParseValueSpec stub.config [ast.mkIdent "e" 5]
       (ast.Ident "int" 7) [ast.BasicLit "int" "1"])
    stub.bodyState
  = Ok [gotypes.mkSymbolDef "e" "" (Some (gotypes.Builtin "int" false))
                            "main.go:5"].
Proof. repeat split; vm_compute; reflexivity. Qed.

(** ** Assignment to an identifier *)

Lemma last_lookup_pred {A} (l : list A) :
  last l = l !! pred (length l).
Proof. apply last_lookup. Qed.

Lemma table_at_top s t :
  stack.wf s -> last (stack.Tables s) = Some t ->
  stack.Size s > 0 /\ stack.table_at s (stack.Size s - 1) = Some t /\
  Z.to_nat (stack.Size s - 1) = pred (length (stack.Tables s)).
Proof.
  intros Hw Hl. unfold stack.wf in Hw. unfold stack.table_at.
  assert (length (stack.Tables s) <> 0%nat) as Hne.
  { destruct (stack.Tables s); [done | simpl; lia]. }
  assert (Z.to_nat (stack.Size s - 1) = pred (length (stack.Tables s))) as He
    by lia.
  repeat split; [lia | | done].
  destruct (decide (0 <= stack.Size s - 1)); [| lia].
  by rewrite He, <- last_lookup_pred.
Qed.

(** On a stack built by its methods the [Add] methods do not panic. *)
Lemma addAtTop_no_panic add sym s :
  stack.wf s -> (forall t, is_Panic (add sym t) = false) ->
  is_Panic (fst (stack.addAtTop add sym s)) = false.
Proof.
  intros Hw Hadd. unfold stack.addAtTop.
  destruct (decide (stack.Size s > 0)) as [Hs|]; [| done].
  destruct (last (stack.Tables s)) as [t|] eqn:Hl.
  - destruct (table_at_top s t Hw Hl) as (_ & -> & _).
    specialize (Hadd t). by destruct (add sym t).
  - apply last_None in Hl. unfold stack.wf in Hw. rewrite Hl in Hw.
    simpl in Hw. lia.
Qed.

Lemma ignore_err_AddVariable sym st :
  stack.wf (SymbolTable st) ->
  ignore_err (AddVariable sym) st = (Ok tt, snd (AddVariable sym st)).
Proof.
  intros Hw. unfold ignore_err, bind, try_, AddVariable, liftStack.
  pose proof (addAtTop_no_panic symboltable.AddVariable sym _ Hw) as Hp.
  unfold stack.AddVariable.
  destruct (stack.addAtTop symboltable.AddVariable sym (SymbolTable st))
    as [[[]| |] s']; simpl in *; try done.
  discriminate Hp. intros t. unfold symboltable.AddVariable.
  by destruct (t !! _).
Qed.





(** ** Assignments with sides of different length *)





(** ** Names of a value spec beyond its values *)

Lemma valueSpecRest_typed cfg t names acc st :
  valueSpecRest cfg (Some t) names acc st
  = (Ok (acc ++ trailingSymbols cfg t names)%list, st).
Proof.
  revert acc. induction names as [|n rest IH]; intros acc; simpl.
  - unfold trailingSymbols. simpl. by rewrite app_nil_r.
  - unfold bind, ret. unfold trailingSymbols. rewrite filter_cons.
    case_bool_decide as Hn.
    + rewrite IH. destruct (decide (ast.Name n <> "_")); done.
    + rewrite IH. destruct (decide (ast.Name n <> "_")); [| done].
      simpl. unfold trailingSymbols. by rewrite <- app_assoc.
Qed.

Lemma valueSpecRest_untyped cfg n rest acc st :
  valueSpecRest cfg None (n :: rest) acc st
  = match lastConstType st with
    | Some t => (Ok (acc ++ trailingSymbols cfg t (n :: rest))%list, st)
    | None =>
        (Err (Errorf "No type in ValueSpec declaration for identifier"), st)
    end.
Proof.
  simpl. unfold bind, getLastConstType. simpl.
  destruct (lastConstType st) as [t|]; [| done]. simpl.
  unfold trailingSymbols. rewrite filter_cons.
  case_bool_decide as Hn; rewrite valueSpecRest_typed;
    destruct (decide (ast.Name n <> "_")); try done.
  simpl. unfold trailingSymbols. by rewrite <- app_assoc.
Qed.

(** C4, as the code has it.  When [ParseValueSpec] does not take the
    branch of a single value whose first data type is not [iota], and the
    loop over the values has produced [symbolsDef] in state [st1]: each
    name beyond the values that is not [_] gets a symbol typed by the
    explicit type when there is one and by [lastConstType] otherwise; with
    neither, and at least one such name, an error is returned; the state,
    and so the contract table, is [st1] in all cases.  For the group
    [const ( A = iota; B; C )] exactly one contract is emitted, a
    [PropagatesTo] for [A], and [A], [B], [C] are typed
    [Builtin{int, untyped}]. *)
Theorem ParseValueSpec_trailing_names :
  (forall cfg names type_ values st typeDef st0 st0' symbolsDef st1,
     valueSpecType cfg type_ st = (Ok typeDef, st0) ->
     valueSpecSingle cfg typeDef names values st0 = (Ok None, st0') ->
     len values <= len names ->
     valueSpecEach cfg typeDef names values 0 [] st0' = (Ok symbolsDef, st1) ->
     let trailing := drop (length values) names in
     ParseValueSpec cfg names type_ values st
     = match typeDef, lastConstType st1, trailing with
       | Some t, _, _ => (Ok (symbolsDef ++ trailingSymbols cfg t trailing)%list, st1)
       | None, _, [] => (Ok symbolsDef, st1)
       | None, Some t, _ =>
           (Ok (symbolsDef ++ trailingSymbols cfg t trailing)%list, st1)
       | None, None, _ :: _ =>
           (Err (Errorf "No type in ValueSpec declaration for identifier"),
            st1)
       end) /\
  (let st' := stub.exec (parseDeclStmt stub.config constGroup)
                        stub.bodyState in
   contracts.Contracts (ContractTable st')
   = [contracts.PropagatesTo
        (typevars.Constant "builtin" (gotypes.Builtin "iota" false))
        (typevars.Variable_ "main" "A" "main.go:9")
        (Some (gotypes.Builtin "int" true))] /\
   map (fun n => typeOfVariable n st') ["A"; "B"; "C"]
   = [Some (gotypes.Builtin "int" true);
      Some (gotypes.Builtin "int" true);
      Some (gotypes.Builtin "int" true)]).
Proof.
  split.
  - intros cfg names type_ values st typeDef st0 st0' symbolsDef st1
           Htype Hsingle Hlen Heach trailing.
    unfold ParseValueSpec. unfold bind at 1. rewrite Htype.
    unfold bind at 1. rewrite Hsingle.
    destruct (decide (len names < len values)); [lia |].
    unfold bind. rewrite Heach. fold trailing.
    destruct typeDef as [t|].
    + apply valueSpecRest_typed.
    + destruct trailing as [|name rest];
        [by destruct (lastConstType st1) |].
      rewrite valueSpecRest_untyped. by destruct (lastConstType st1).
  - vm_compute. done.
Qed.

Lemma ParseValueSpec_trailing_names_witness :
  lastConstType afterIota = Some (gotypes.Builtin "int" true) /\
  ParseValueSpec stub.config [ast.mkIdent "B" 19] ast.NilExpr [] afterIota
  = (Ok [gotypes.mkSymbolDef "B" "main" (Some (gotypes.Builtin "int" true))
                             "main.go:19"],
     afterIota).
Proof.
  split; [vm_compute; reflexivity |].
  rewrite (proj1 ParseValueSpec_trailing_names stub.config
             [ast.mkIdent "B" 19] ast.NilExpr [] afterIota None
             afterIota afterIota [] afterIota).
  - vm_compute. reflexivity.
  - reflexivity.
  - reflexivity.
  - discriminate.
  - reflexivity.
Defined.

(** C4 as stated fails: in [var a, b = f()] there are two names and one
    value, so [b] is a name beyond the values; it is typed by the second
    result of [f], though no type is written and no [lastConstType] is
    remembered, no error is returned, and a [PropagatesTo] contract is
    emitted for it. *)
Lemma value_spec_tuple_counterexample :
  lastConstType bodyWithF = None /\
  ParseValueSpec stub.config [ast.mkIdent "a" 24; ast.mkIdent "b" 27]
                 ast.NilExpr [callF] bodyWithF
  = (Ok [gotypes.mkSymbolDef "a" "" (Some (gotypes.Builtin "int" false))
                             "main.go:24";
         gotypes.mkSymbolDef "b" "" (Some (gotypes.Builtin "string" false))
                             "main.go:27"],
     set_ContractTable
       (contracts.mkTable
          [contracts.PropagatesTo
             (typevars.ReturnType
                (typevars.Variable_ "main" "f" "main.go:1") 0)
             (typevars.Variable_ "" "a" "main.go:24")
             (Some (gotypes.Builtin "int" false));
           contracts.PropagatesTo
             (typevars.ReturnType
                (typevars.Variable_ "main" "f" "main.go:1") 1)
             (typevars.Variable_ "" "b" "main.go:27")
             (Some (gotypes.Builtin "string" false))] 0)
       bodyWithF).
Proof. split; vm_compute; reflexivity. Qed.

(** ** Binding a name in the innermost scope *)

Lemma AddVariable_fresh sym st t :
  stack.wf (SymbolTable st) ->
  last (stack.Tables (SymbolTable st)) = Some t ->
  t !! (gotypes.Name sym, symboltable.VariableSymbol) = None ->
  exists st',
    AddVariable sym st = (Ok tt, st') /\
    stack.wf (SymbolTable st') /\
    last (stack.Tables (SymbolTable st'))
    = Some (<[(gotypes.Name sym, symboltable.VariableSymbol) := sym]> t) /\
    ContractTable st' = ContractTable st.
Proof.
  intros Hw Hl Ht.
  destruct (table_at_top _ t Hw Hl) as (Hs & Hat & Hidx).
  unfold AddVariable, liftStack, stack.AddVariable, stack.addAtTop.
  destruct (decide (stack.Size (SymbolTable st) > 0)); [| lia].
  rewrite Hat. unfold symboltable.AddVariable. rewrite Ht.
  eexists. split; [reflexivity |]. simpl.
  assert (length (stack.Tables (SymbolTable st)) <> 0%nat) as Hne.
  { unfold stack.wf in Hw. lia. }
  repeat split.
  - unfold stack.wf in *. simpl. by rewrite length_insert.
  - rewrite last_lookup_pred, length_insert, Hidx.
    apply list_lookup_insert_eq. lia.
Qed.

Lemma typeOfVariable_top name st t sym :
  stack.wf (SymbolTable st) ->
  last (stack.Tables (SymbolTable st)) = Some t ->
  t !! (name, symboltable.VariableSymbol) = Some sym ->
  typeOfVariable name st = gotypes.Def sym.
Proof.
  intros Hw Hl Ht. unfold typeOfVariable, stack.LookupVariable.
  destruct (table_at_top _ t Hw Hl) as (Hs & Hat & Hidx).
  unfold stack.wf in Hw.
  replace (Z.to_nat (stack.Size (SymbolTable st)))
    with (S (pred (length (stack.Tables (SymbolTable st))))) by lia.
  simpl. rewrite <- last_lookup_pred, Hl.
  unfold symboltable.LookupVariable. by rewrite Ht.
Qed.

Lemma define_step sym c st t :
  stack.wf (SymbolTable st) ->
  last (stack.Tables (SymbolTable st)) = Some t ->
  t !! (gotypes.Name sym, symboltable.VariableSymbol) = None ->
  exists st',
    (AddVariable sym ;; AddContract c) st = (Ok tt, st') /\
    (ignore_err (AddVariable sym) ;; AddContract c) st = (Ok tt, st') /\
    stack.wf (SymbolTable st') /\
    last (stack.Tables (SymbolTable st'))
    = Some (<[(gotypes.Name sym, symboltable.VariableSymbol) := sym]> t) /\
    contracts.Contracts (ContractTable st')
    = (contracts.Contracts (ContractTable st) ++ [c])%list.
Proof.
  intros Hw Hl Ht.
  destruct (AddVariable_fresh sym st t Hw Hl Ht) as (st1 & Ha & Hw1 & Hl1 & Hc).
  exists (snd (AddContract c st1)).
  unfold bind. rewrite ignore_err_AddVariable by done. rewrite Ha. simpl.
  repeat split; try done. by rewrite Hc.
Qed.

(** Two names bound one after the other in a scope that holds neither. *)
Lemma define_two sym1 c1 sym2 c2 st t :
  stack.wf (SymbolTable st) ->
  last (stack.Tables (SymbolTable st)) = Some t ->
  t !! (gotypes.Name sym1, symboltable.VariableSymbol) = None ->
  t !! (gotypes.Name sym2, symboltable.VariableSymbol) = None ->
  gotypes.Name sym1 <> gotypes.Name sym2 ->
  exists st1 st2,
    (AddVariable sym1 ;; AddContract c1) st = (Ok tt, st1) /\
    (ignore_err (AddVariable sym1) ;; AddContract c1) st = (Ok tt, st1) /\
    (AddVariable sym2 ;; AddContract c2) st1 = (Ok tt, st2) /\
    (ignore_err (AddVariable sym2) ;; AddContract c2) st1 = (Ok tt, st2) /\
    contracts.Contracts (ContractTable st2)
    = (contracts.Contracts (ContractTable st) ++ [c1; c2])%list /\
    typeOfVariable (gotypes.Name sym1) st2 = gotypes.Def sym1 /\
    typeOfVariable (gotypes.Name sym2) st2 = gotypes.Def sym2.
Proof.
  intros Hw Hl H1 H2 Hne.
  destruct (define_step sym1 c1 st t Hw Hl H1)
    as (st1 & Ha1 & Hi1 & Hw1 & Hl1 & Hc1).
  assert (<[(gotypes.Name sym1, symboltable.VariableSymbol) := sym1]> t
            !! (gotypes.Name sym2, symboltable.VariableSymbol) = None) as H2'.
  { rewrite lookup_insert_ne; [done | congruence]. }
  destruct (define_step sym2 c2 st1 _ Hw1 Hl1 H2')
    as (st2 & Ha2 & Hi2 & Hw2 & Hl2 & Hc2).
  exists st1, st2. repeat split; try done.
  - rewrite Hc2, Hc1. by rewrite <- app_assoc.
  - eapply typeOfVariable_top; [done | exact Hl2 |].
    rewrite lookup_insert_ne by congruence. apply lookup_insert_eq.
  - eapply typeOfVariable_top; [done | exact Hl2 |]. apply lookup_insert_eq.
Qed.

(** ** Range *)

(** The run of [rangeBindings] once the iteration expression is resolved
    to a [Builtin] or an [Identifier], whatever its name. *)
Lemma rangeBindings_builtin_or_identifier cfg key value tok xAttr st
    xTV tvs d0 ds resolved st2 :
  TypeVarList xAttr = xTV :: tvs ->
  DataTypeList xAttr = d0 :: ds ->
  FindFirstNonidDataType cfg (rangeStripPointer d0)
    (snd (AddContract (contracts.IsRangeable xTV) st)) = (Ok resolved, st2) ->
  (exists def u, resolved = gotypes.Builtin def u) \/
  (exists def pkg, resolved = gotypes.Identifier def pkg) ->
  rangeBindings cfg key value tok xAttr st
  = (let* stop := rangeKey cfg tok key intType xTV in
     if stop then ret true
     else rangeValue cfg tok value (Some runeType) xTV) st2.
Proof.
  intros Htv Hd Hres Hshape. unfold rangeBindings.
  rewrite Htv, Hd. unfold index. simpl.
  unfold bind at 1. simpl. unfold bind at 1. simpl.
  unfold bind at 1. simpl. unfold bind at 1.
  unfold AddContract in Hres. simpl in Hres. rewrite Hres.
  destruct Hshape as [(def & u & ->)|(def & pkg & ->)]; done.
Qed.

(** With [:=] and two identifiers new to the scope, the key is bound to
    [int] and the value to [rune]. *)
Lemma rangeDefine_int_rune cfg xTV k kp v vp st t :
  k <> "_" -> v <> "_" -> k <> v ->
  stack.wf (SymbolTable st) ->
  last (stack.Tables (SymbolTable st)) = Some t ->
  t !! (k, symboltable.VariableSymbol) = None ->
  t !! (v, symboltable.VariableSymbol) = None ->
  exists st3,
    (let* stop := rangeKey cfg token.DEFINE (ast.Ident k kp) intType xTV in
     if stop then ret true
     else rangeValue cfg token.DEFINE (ast.Ident v vp)
                     (Some runeType) xTV) st
    = (Ok false, st3) /\
    contracts.Contracts (ContractTable st3)
    = (contracts.Contracts (ContractTable st) ++
       [contracts.PropagatesTo
          (typevars.RangeKey xTV)
          (typevars.Variable_ (PackageName cfg) k (SymbolPos cfg kp))
          (Some (gotypes.Builtin "int" false));
        contracts.PropagatesTo
          (typevars.RangeValue xTV)
          (typevars.Variable_ (PackageName cfg) v (SymbolPos cfg vp))
          (Some (gotypes.Builtin "rune" false))])%list /\
    typeOfVariable k st3 = Some (gotypes.Builtin "int" false) /\
    typeOfVariable v st3 = Some (gotypes.Builtin "rune" false).
Proof.
  intros Hk Hv Hkv Hw Hl Htk Htv.
  destruct (define_two
              (newSymbol cfg k kp intType)
              (contracts.PropagatesTo
                 (typevars.MakeRangeKey xTV)
                 (typevars.VariableFromSymbolDef (newSymbol cfg k kp intType))
                 (Some intType))
              (newSymbol cfg v vp runeType)
              (contracts.PropagatesTo
                 (typevars.MakeRangeValue xTV)
                 (typevars.VariableFromSymbolDef (newSymbol cfg v vp runeType))
                 (Some runeType))
              st t Hw Hl Htk Htv Hkv)
    as (st1 & st2 & Ha1 & _ & Ha2 & _ & Hc & Hk' & Hv').
  exists st2. repeat split; try done.
  unfold rangeKey, rangeValue. simpl.
  rewrite !bool_decide_eq_false_2 by done.
  revert Ha1 Ha2. unfold bind.
  destruct (AddVariable (newSymbol cfg k kp intType) st) as [[[]| |] sa];
    try done.
  simpl. intros [= <-].
  destruct (AddVariable (newSymbol cfg v vp runeType) _) as [[[]| |] sb];
    try done.
  simpl. by intros [= <-].
Qed.

(** ** Receive clauses of a select statement *)

Lemma selectRecv_channel cfg lhs tok x st attr st1 dir value chanTV tvs :
  ExprParser_Parse cfg x st = (Ok attr, st1) ->
  DataTypeList attr = [gotypes.Channel dir value] ->
  TypeVarList attr = chanTV :: tvs ->
  (length lhs = 1 \/ length lhs = 2)%nat ->
  let y := typevars.VirtualVar (contracts.NextVirtual (ContractTable st1)) in
  selectRecv cfg lhs tok [ast.UnaryExpr token.ARROW x] st
  = selectRecvLhs cfg lhs tok value y
      (snd (AddContract (contracts.IsReceiveableFrom chanTV y None)
                        (snd (NewVirtualVar st1)))).
Proof.
  intros Hx Hd Htv Hlen y. unfold selectRecv. simpl.
  unfold index. simpl. unfold bind at 1. simpl.
  unfold bind at 1. rewrite Hx. rewrite Hd. simpl.
  unfold bind at 1. simpl.
  destruct lhs as [|lhs0 [|lhs1 [|]]]; simpl in Hlen; try lia;
    rewrite Htv; simpl; unfold bind at 1; simpl; unfold bind at 1; simpl;
    unfold bind at 1; simpl; done.
Qed.

(** The receive case on its own: for one or two left-hand sides and a
    right-hand side [<-x] with [x] of a channel type, a virtual variable [y]
    with the next free index is allocated and [IsReceiveableFrom(chanTV, y)]
    is emitted before the left-hand sides are processed; with [:=] and two
    identifiers new to the scope both are bound.  A right-hand side that is
    not a single [<-x], or whose [x] has not a single channel type, is an
    error. *)
Lemma selectRecv_receive :
  (forall cfg lhs tok x st attr st1 dir value chanTV tvs,
     ExprParser_Parse cfg x st = (Ok attr, st1) ->
     DataTypeList attr = [gotypes.Channel dir value] ->
     TypeVarList attr = chanTV :: tvs ->
     (length lhs = 1 \/ length lhs = 2)%nat ->
     let y := typevars.VirtualVar
                (contracts.NextVirtual (ContractTable st1)) in
     let st2 := snd (AddContract (contracts.IsReceiveableFrom chanTV y None)
                                 (snd (NewVirtualVar st1))) in
     contracts.Contracts (ContractTable st2)
     = (contracts.Contracts (ContractTable st1) ++
        [contracts.IsReceiveableFrom chanTV y None])%list /\
     contracts.NextVirtual (ContractTable st2)
     = contracts.NextVirtual (ContractTable st1) + 1 /\
     selectRecv cfg lhs tok [ast.UnaryExpr token.ARROW x] st
     = selectRecvLhs cfg lhs tok value y st2 /\
     (forall name1 pos1 name2 pos2 t,
        lhs = [ast.Ident name1 pos1; ast.Ident name2 pos2] ->
        tok = token.DEFINE ->
        name1 <> name2 ->
        stack.wf (SymbolTable st1) ->
        last (stack.Tables (SymbolTable st1)) = Some t ->
        t !! (name1, symboltable.VariableSymbol) = None ->
        t !! (name2, symboltable.VariableSymbol) = None ->
        exists st3,
          selectRecv cfg lhs tok [ast.UnaryExpr token.ARROW x] st
          = (Ok tt, st3) /\
          contracts.Contracts (ContractTable st3)
          = (contracts.Contracts (ContractTable st1) ++
             [contracts.IsReceiveableFrom chanTV y None;
              contracts.PropagatesTo
                y (typevars.Variable_ (PackageName cfg) name1
                                      (SymbolPos cfg pos1)) None;
              contracts.PropagatesTo
                (typevars.Constant "builtin" (gotypes.Builtin "bool" false))
                (typevars.Variable_ (PackageName cfg) name2
                                    (SymbolPos cfg pos2)) None])%list /\
          typeOfVariable name1 st3 = Some value /\
          typeOfVariable name2 st3 = Some (gotypes.Builtin "bool" false))) /\
  (forall cfg lhs tok rhs st,
     (forall x, rhs <> [ast.UnaryExpr token.ARROW x]) ->
     exists e, selectRecv cfg lhs tok rhs st = (Err e, st)) /\
  (forall cfg lhs tok x st attr st1,
     ExprParser_Parse cfg x st = (Ok attr, st1) ->
     (forall dir value, DataTypeList attr <> [gotypes.Channel dir value]) ->
     exists e,
       selectRecv cfg lhs tok [ast.UnaryExpr token.ARROW x] st = (Err e, st1)).
Proof.
  split; [| split].
  - intros cfg lhs tok x st attr st1 dir value chanTV tvs Hx Hd Htv Hlen y st2.
    pose proof (selectRecv_channel cfg lhs tok x st attr st1 dir value chanTV
                  tvs Hx Hd Htv Hlen) as Heq.
    split; [done |]. split; [done |]. split; [exact Heq |].
    intros name1 pos1 name2 pos2 t -> -> Hne Hw Hl H1 H2.
    rewrite Heq.
    unfold selectRecvLhs, selectBind, token.is_DEFINE. cbv beta iota zeta.
    destruct (define_two
                (newSymbol cfg name1 pos1 value)
                (contracts.PropagatesTo
                   y (typevars.VariableFromSymbolDef
                        (newSymbol cfg name1 pos1 value)) None)
                (newSymbol cfg name2 pos2 (gotypes.Builtin "bool" false))
                (contracts.PropagatesTo
                   (typevars.Constant "builtin" (gotypes.Builtin "bool" false))
                   (typevars.VariableFromSymbolDef
                      (newSymbol cfg name2 pos2
                                 (gotypes.Builtin "bool" false))) None)
                (snd (AddContract (contracts.IsReceiveableFrom chanTV y None)
                                  (snd (NewVirtualVar st1)))) t)
      as (sa & sb & _ & Ha & _ & Hb & Hc & Ht1 & Ht2); try done.
    exists sb. repeat split; try done.
    + unfold bind at 1. unfold y in Ha. rewrite Ha. exact Hb.
    + rewrite Hc. simpl. by rewrite <- app_assoc.
  - intros cfg lhs tok rhs st Hrhs. unfold selectRecv.
    destruct (decide (len rhs <> 1)) as [|Hone]; [by eexists |].
    destruct rhs as [|rhs0 [|]]; try (exfalso; apply Hone; reflexivity);
      try (unfold len in Hone; simpl in Hone; lia).
    unfold index. simpl. unfold bind at 1. simpl.
    destruct rhs0; try by eexists.
    destruct Op; try by eexists.
    by destruct (Hrhs rhs0).
  - intros cfg lhs tok x st attr st1 Hx Hd. unfold selectRecv. simpl.
    unfold index. simpl. unfold bind at 1. simpl.
    unfold bind at 1. rewrite Hx.
    destruct (decide (len (DataTypeList attr) <> 1)) as [|Hone];
      [by eexists |].
    destruct (DataTypeList attr) as [|d0 [|]] eqn:Hl;
      try (exfalso; apply Hone; reflexivity);
      try (unfold len in Hone; simpl in Hone; lia).
    simpl. unfold bind at 1. simpl.
    destruct d0; try by eexists.
    by destruct (Hd Dir d0).
Qed.

(** A receive clause with no or more than two left-hand sides is rejected
    before a virtual variable is allocated. *)
Lemma selectRecv_lhs_count cfg lhs tok x st attr st1 dir value :
  ExprParser_Parse cfg x st = (Ok attr, st1) ->
  DataTypeList attr = [gotypes.Channel dir value] ->
  (length lhs = 0 \/ 2 < length lhs)%nat ->
  exists e,
    selectRecv cfg lhs tok [ast.UnaryExpr token.ARROW x] st = (Err e, st1).
Proof.
  intros Hx Hd Hlen. unfold selectRecv. simpl.
  unfold index. simpl. unfold bind at 1. simpl.
  unfold bind at 1. rewrite Hx. rewrite Hd. simpl.
  unfold bind at 1. simpl.
  destruct lhs as [|lhs0 [|lhs1 [|]]]; simpl in Hlen; try lia; by eexists.
Qed.

(** ** The scenarios of the specification, run *)

(** [for i, c := range s] with [s string] in a function body. *)
Example Parse_range_over_string :
  let st := stub.exec
              (AddVariable (newSymbol stub.config "s" 3
                                      (gotypes.Builtin "string" false)))
              stub.bodyState in
  let stmt := ast.RangeStmt (ast.Ident "i" 20) (ast.Ident "c" 23)
                            token.DEFINE (ast.Ident "s" 30) [] in
  Parse stub.config stmt st
  = (Ok tt,
     set_ContractTable
       (contracts.mkTable
          [contracts.IsRangeable (typevars.Variable_ "main" "s" "main.go:3");
           contracts.PropagatesTo
             (typevars.RangeKey (typevars.Variable_ "main" "s" "main.go:3"))
             (typevars.Variable_ "main" "i" "main.go:20")
             (Some (gotypes.Builtin "int" false));
           contracts.PropagatesTo
             (typevars.RangeValue (typevars.Variable_ "main" "s" "main.go:3"))
             (typevars.Variable_ "main" "c" "main.go:23")
             (Some (gotypes.Builtin "rune" false))] 0)
       st).
Proof. vm_compute. reflexivity. Qed.

(** [select { case v, ok := <-ch: }] with [ch chan int] in a function
    body. *)
Example Parse_select_receive :
  let st := stub.exec
              (AddVariable
                 (newSymbol stub.config "ch" 3
                    (gotypes.Channel "" (gotypes.Builtin "int" false))))
              stub.bodyState in
  let stmt := ast.SelectStmt
                [ast.CommClause
                   (Some (ast.AssignStmt
                            [ast.Ident "v" 20; ast.Ident "ok" 23]
                            token.DEFINE
                            [ast.UnaryExpr token.ARROW (ast.Ident "ch" 31)]))
                   []] in
  Parse stub.config stmt st
  = (Ok tt,
     set_ContractTable
       (contracts.mkTable
          [contracts.IsReceiveableFrom
             (typevars.Variable_ "main" "ch" "main.go:3")
             (typevars.VirtualVar 0) None;
           contracts.PropagatesTo
             (typevars.VirtualVar 0)
             (typevars.Variable_ "main" "v" "main.go:20") None;
           contracts.PropagatesTo
             (typevars.Constant "builtin" (gotypes.Builtin "bool" false))
             (typevars.Variable_ "main" "ok" "main.go:23") None] 1)
       st).
Proof. vm_compute. reflexivity. Qed.

(** [var a, b int = 1, 2] at file level. *)
Example ParseValueSpec_typed_pair :
  ParseValueSpec stub.config [ast.mkIdent "a" 5; ast.mkIdent "b" 8]
    (ast.Ident "int" 10) [ast.BasicLit "int" "1"; ast.BasicLit "int" "2"]
    stub.fileState
  = (Ok [gotypes.mkSymbolDef "a" "main" (Some (gotypes.Builtin "int" false))
                             "main.go:5";
         gotypes.mkSymbolDef "b" "main" (Some (gotypes.Builtin "int" false))
                             "main.go:8"],
     set_ContractTable
       (contracts.mkTable
          [contracts.IsCompatibleWith
             (typevars.Constant "builtin" (gotypes.Builtin "int" true))
             (typevars.Variable_ "main" "a" "main.go:5")
             (Some (gotypes.Builtin "int" false)) false;
           contracts.IsCompatibleWith
             (typevars.Constant "builtin" (gotypes.Builtin "int" true))
             (typevars.Variable_ "main" "b" "main.go:8")
             (Some (gotypes.Builtin "int" false)) false] 0)
       stub.fileState).
Proof. vm_compute. reflexivity. Qed.

(** [x, ok := iface.(Foo)] with [iface interface{}] in a function body. *)
Example Parse_type_assertion_pair :
  let st := stub.exec
              (AddVariable (newSymbol stub.config "iface" 3
                                      (gotypes.Interface [])))
              stub.bodyState in
  let stmt := ast.AssignStmt [ast.Ident "x" 20; ast.Ident "ok" 23]
                token.DEFINE
                [ast.TypeAssertExpr (ast.Ident "iface" 29)
                                    (ast.Ident "Foo" 36)] in
  let foo := gotypes.Identifier "Foo" "main" in
  stub.result (Parse stub.config stmt) st = Ok tt /\
  contracts.Contracts (ContractTable (stub.exec (Parse stub.config stmt) st))
  = [contracts.IsCompatibleWith
       (typevars.Variable_ "main" "iface" "main.go:3")
       (typevars.Constant "main" foo) (Some foo) false;
     contracts.PropagatesTo
       (typevars.Constant "main" foo)
       (typevars.Variable_ "main" "x" "main.go:20") (Some foo);
     contracts.PropagatesTo
       (typevars.Constant "main" (gotypes.Builtin "bool" false))
       (typevars.Variable_ "main" "ok" "main.go:23")
       (Some (gotypes.Builtin "bool" false))] /\
  typeOfVariable "x" (stub.exec (Parse stub.config stmt) st) = Some foo /\
  typeOfVariable "ok" (stub.exec (Parse stub.config stmt) st)
  = Some (gotypes.Builtin "bool" false).
Proof. repeat split; vm_compute; reflexivity. Qed.

(** [for k, v := range s] with [s []string] in a function body. *)
Example Parse_range_over_slice :
  let st := stub.exec
              (AddVariable
                 (newSymbol stub.config "s" 3
                    (gotypes.Slice (gotypes.Builtin "string" false))))
              stub.bodyState in
  let stmt := ast.RangeStmt (ast.Ident "k" 20) (ast.Ident "v" 23)
                            token.DEFINE (ast.Ident "s" 30) [] in
  Parse stub.config stmt st
  = (Ok tt,
     set_ContractTable
       (contracts.mkTable
          [contracts.IsRangeable (typevars.Variable_ "main" "s" "main.go:3");
           contracts.PropagatesTo
             (typevars.RangeKey (typevars.Variable_ "main" "s" "main.go:3"))
             (typevars.Variable_ "main" "k" "main.go:20")
             (Some (gotypes.Builtin "int" false));
           contracts.PropagatesTo
             (typevars.RangeValue (typevars.Variable_ "main" "s" "main.go:3"))
             (typevars.Variable_ "main" "v" "main.go:23")
             (Some (gotypes.Builtin "string" false))] 0)
       st).
Proof. vm_compute. reflexivity. Qed.

(** * Further properties *)

(** ** The stack of symbol tables *)

Lemma wf_addAtTop add sym s :
  stack.wf s -> stack.wf (snd (stack.addAtTop add sym s)).
Proof. intros Hw. by destruct (Below_addAtTop add sym s Hw). Qed.

Lemma wf_Pop s : stack.wf s -> stack.wf (snd (stack.Pop s)).
Proof.
  intros Hw. unfold stack.Pop.
  destruct (decide (stack.Size s > 0)); [| done].
  unfold stack.wf in *. simpl. rewrite length_take. lia.
Qed.

Lemma wf_Reset level s : stack.wf s -> stack.wf (snd (stack.Reset level s)).
Proof.
  intros Hw. unfold stack.Reset.
  destruct (decide (level < 0 \/ stack.Size s - 1 < level)); [done|].
  unfold stack.wf in *.
  destruct (decide (level = 0)); simpl; rewrite length_take; lia.
Qed.

Lemma Below_declare d s : stack.wf s -> Below s (snd (declare d s)).
Proof. intros Hw. destruct d; by apply Below_addAtTop. Qed.

Lemma Below_declareAll ds s :
  stack.wf s -> Below s (declareAll ds s).
Proof.
  revert s. induction ds as [|d ds IH]; intros s Hw; simpl.
  - by apply Below_refl.
  - pose proof (Below_declare d s Hw) as Hb.
    eapply Below_trans; [exact Hb|]. apply IH. by destruct Hb.
Qed.

Lemma lookupVariableFrom_wf name s n :
  (n <= length (stack.Tables s))%nat ->
  is_Panic (stack.lookupVariableFrom name s n) = false.
Proof.
  induction n as [|i IH]; intros Hn; simpl; [done|].
  destruct (stack.Tables s !! i) as [t|] eqn:Ht.
  - destruct (symboltable.LookupVariable name t); [done | |]; apply IH; lia.
  - apply lookup_ge_None in Ht. lia.
Qed.

Lemma lookupFrom_wf name s n :
  (n <= length (stack.Tables s))%nat ->
  is_Panic (stack.lookupFrom name s n) = false.
Proof.
  induction n as [|i IH]; intros Hn; simpl; [done|].
  destruct (stack.Tables s !! i) as [t|] eqn:Ht.
  - destruct (symboltable.Lookup name t); [done | |]; apply IH; lia.
  - apply lookup_ge_None in Ht. lia.
Qed.

Lemma table_at_in_range s level :
  stack.wf s -> 0 <= level < stack.Size s ->
  exists t, stack.table_at s level = Some t /\
            stack.Tables s !! Z.to_nat level = Some t.
Proof.
  intros Hw Hl. unfold stack.table_at, stack.wf in *.
  destruct (decide (0 <= level)); [| lia].
  destruct (stack.Tables s !! Z.to_nat level) as [t|] eqn:Ht; [by exists t|].
  apply lookup_ge_None in Ht. lia.
Qed.

(** X1. Whatever is declared in a scope is gone with it: opening a scope
    with [Push], declaring any variables, data types and functions with the
    [Add] methods (whether they are accepted or rejected) and closing it with
    [Pop] gives back exactly the stack there was. *)
Theorem Push_declare_Pop s ds :
  stack.wf s ->
  stack.Pop (declareAll ds (stack.Push s)) = (Ok tt, s).
Proof.
  intros Hw. apply Pop_Below_Push; [done|].
  apply Below_declareAll. by apply wf_Push.
Qed.

Lemma Push_declare_Pop_witness :
  stack.wf twoScopes /\
  stack.Pop (declareAll [DeclVariable symY; DeclFunction symX]
                        (stack.Push twoScopes)) = (Ok tt, twoScopes).
Proof.
  assert (stack.wf twoScopes) as Hw by (vm_compute; reflexivity).
  split; [exact Hw | exact (Push_declare_Pop twoScopes _ Hw)].
Defined.

(** X2. [Size] is the number of tables on every stack built from [New] by
    the methods of the stack, and on such a stack no method indexes
    [Tables] out of range: the lookups and [Table] never panic, and an [Add]
    method panics only if the table it adds to does. *)
Theorem stack_Size_invariant :
  stack.wf stack.New /\
  forall s, stack.wf s ->
    stack.wf (stack.Push s) /\
    stack.wf (snd (stack.Pop s)) /\
    (forall sym, stack.wf (snd (stack.AddVariable sym s)) /\
                 stack.wf (snd (stack.AddDataType sym s)) /\
                 stack.wf (snd (stack.AddFunction sym s))) /\
    (forall level, stack.wf (snd (stack.Reset level s))) /\
    (forall name, is_Panic (stack.LookupVariable name s) = false /\
                  is_Panic (stack.Lookup name s) = false) /\
    (forall level, is_Panic (stack.Table level s) = false) /\
    (forall sym,
       is_Panic (fst (stack.AddVariable sym s)) =
       match last (stack.Tables s) with
       | Some t => is_Panic (symboltable.AddVariable sym t)
       | None => false
       end).
Proof.
  split; [done|]. intros s Hw.
  split; [by apply wf_Push|].
  split; [by apply wf_Pop|].
  split; [intros sym; repeat split; by apply wf_addAtTop|].
  split; [intros level; by apply wf_Reset|].
  split.
  { intros name. unfold stack.LookupVariable, stack.Lookup.
    split; [apply lookupVariableFrom_wf | apply lookupFrom_wf];
      unfold stack.wf in Hw; lia. }
  split.
  { intros level. unfold stack.Table.
    destruct (decide (level < 0 \/ stack.Size s - 1 < level)); [done|].
    destruct (table_at_in_range s level Hw) as (t & -> & _); [lia | done]. }
  intros sym. unfold stack.AddVariable, stack.addAtTop.
  destruct (last (stack.Tables s)) as [t|] eqn:Hl.
  - destruct (table_at_top s t Hw Hl) as (Hs & -> & _).
    destruct (decide (stack.Size s > 0)); [| lia].
    by destruct (symboltable.AddVariable sym t).
  - apply last_None in Hl. unfold stack.wf in Hw. rewrite Hl in Hw.
    simpl in Hw. destruct (decide (stack.Size s > 0)); [lia | done].
Qed.


(** X4. The empty stack, [Size = len(Tables) = 0]: [Pop] panics, the
    three [Add] methods return the error of an empty stack, no name is
    found, and no level has a table or can be reset to; the stack is
    unchanged. *)
Theorem stack_empty s :
  stack.wf s ->
  stack.Size s = 0 ->
  stack.Pop s = (Panic "Popping over an empty stack of symbol tables", s) /\
  (forall sym,
     stack.AddVariable sym s =
       (Err (Errorf "Symbol table stack is empty"), s) /\
     stack.AddDataType sym s =
       (Err (Errorf "Symbol table stack is empty"), s) /\
     stack.AddFunction sym s =
       (Err (Errorf "Symbol table stack is empty"), s)) /\
  (forall name,
     stack.LookupVariable name s = Err (Errorf "Symbol not found") /\
     stack.Lookup name s = Err (Errorf "Symbol not found")) /\
  (forall level,
     stack.Table level s = Err (Errorf "No symbol table found for level") /\
     stack.Reset level s = (Err (Errorf "Level out of range"), s)).
Proof.
  intros Hw Hs.
  split.
  { unfold stack.Pop. destruct (decide (stack.Size s > 0)); [lia | done]. }
  split.
  { intros sym.
    unfold stack.AddVariable, stack.AddDataType, stack.AddFunction,
      stack.addAtTop.
    destruct (decide (stack.Size s > 0)); [lia | done]. }
  split.
  { intros name. unfold stack.LookupVariable, stack.Lookup.
    rewrite Hs. done. }
  intros level. unfold stack.Table, stack.Reset.
  destruct (decide (level < 0 \/ stack.Size s - 1 < level)); [done | lia].
Qed.

Lemma stack_empty_witness :
  stack.wf stack.New /\ stack.Size stack.New = 0 /\
  stack.Pop stack.New =
    (Panic "Popping over an empty stack of symbol tables", stack.New).
Proof.
  assert (stack.wf stack.New) as Hw by reflexivity.
  assert (stack.Size stack.New = 0) as Hs by reflexivity.
  split; [exact Hw |]. split; [exact Hs |].
  exact (proj1 (stack_empty stack.New Hw Hs)).
Defined.

Lemma stack_Size_invariant_witness :
  stack.wf twoScopes /\ stack.wf (snd (stack.Pop twoScopes)).
Proof.
  assert (stack.wf twoScopes) as Hw by (vm_compute; reflexivity).
  split; [exact Hw |].
  exact (proj1 (proj2 (proj2 stack_Size_invariant twoScopes Hw))).
Defined.


Lemma lookupVariableFrom_Ok name s n d :
  (n <= length (stack.Tables s))%nat ->
  stack.lookupVariableFrom name s n = Ok d <->
  exists i t,
    (i < n)%nat /\ stack.Tables s !! i = Some t /\
    symboltable.LookupVariable name t = Ok d /\
    forall j t', (i < j < n)%nat -> stack.Tables s !! j = Some t' ->
                 is_Ok (symboltable.LookupVariable name t') = false.
Proof.
  induction n as [|k IH]; intros Hn; simpl.
  { split; [done | intros (i & _ & Hi & _); lia]. }
  destruct (stack.Tables s !! k) as [t|] eqn:Ht;
    [| apply lookup_ge_None in Ht; lia].
  destruct (symboltable.LookupVariable name t) as [d'|e|p] eqn:Hl.
  - split.
    + intros [= ->]. exists k, t. repeat split; [lia | done | done |].
      intros j t' Hj. lia.
    + intros (i & t' & Hi & Hti & Hli & Hup).
      destruct (decide (i = k)) as [->|Hne].
      * rewrite Ht in Hti. injection Hti as <-. by rewrite Hl in Hli.
      * assert (i < k < S k)%nat as Hik by lia.
        specialize (Hup k t Hik Ht). by rewrite Hl in Hup.
  - rewrite IH by lia. split.
    + intros (i & t' & Hi & Hti & Hli & Hup). exists i, t'.
      repeat split; [lia | done | done |].
      intros j t'' Hj Htj. destruct (decide (j = k)) as [->|Hne].
      * rewrite Ht in Htj. injection Htj as <-. by rewrite Hl.
      * apply (Hup j t''); [lia | done].
    + intros (i & t' & Hi & Hti & Hli & Hup).
      destruct (decide (i = k)) as [->|Hne].
      * rewrite Ht in Hti. injection Hti as <-. by rewrite Hl in Hli.
      * exists i, t'. repeat split; [lia | done | done |].
        intros j t'' Hj. apply Hup. lia.
  - rewrite IH by lia. split.
    + intros (i & t' & Hi & Hti & Hli & Hup). exists i, t'.
      repeat split; [lia | done | done |].
      intros j t'' Hj Htj. destruct (decide (j = k)) as [->|Hne].
      * rewrite Ht in Htj. injection Htj as <-. by rewrite Hl.
      * apply (Hup j t''); [lia | done].
    + intros (i & t' & Hi & Hti & Hli & Hup).
      destruct (decide (i = k)) as [->|Hne].
      * rewrite Ht in Hti. injection Hti as <-. by rewrite Hl in Hli.
      * exists i, t'. repeat split; [lia | done | done |].
        intros j t'' Hj. apply Hup. lia.
Qed.

Lemma lookupVariableFrom_Err name s n :
  (n <= length (stack.Tables s))%nat ->
  is_Ok (stack.lookupVariableFrom name s n) = false ->
  stack.lookupVariableFrom name s n = Err (Errorf "Symbol not found").
Proof.
  induction n as [|k IH]; intros Hn; simpl; [done|].
  destruct (stack.Tables s !! k) as [t|] eqn:Ht;
    [| apply lookup_ge_None in Ht; lia].
  destruct (symboltable.LookupVariable name t); [done | |];
    apply IH; lia.
Qed.

(** X5. [LookupVariable] finds the innermost declaration: it returns [d]
    exactly when some table of the stack has [d] under the name and no table
    above it has the name, so a declaration in an inner scope hides those of
    the outer scopes; when it does not succeed its error is
    that the symbol is not found. *)
Theorem LookupVariable_innermost name s :
  stack.wf s ->
  (forall d,
     stack.LookupVariable name s = Ok d <->
     exists i t,
       stack.Tables s !! i = Some t /\
       symboltable.LookupVariable name t = Ok d /\
       forall j t', (i < j)%nat -> stack.Tables s !! j = Some t' ->
                    is_Ok (symboltable.LookupVariable name t') = false) /\
  (is_Ok (stack.LookupVariable name s) = false ->
   stack.LookupVariable name s = Err (Errorf "Symbol not found")).
Proof.
  intros Hw. unfold stack.wf in Hw. unfold stack.LookupVariable.
  rewrite Hw, Nat2Z.id. split.
  - intros d. rewrite lookupVariableFrom_Ok by lia. split.
    + intros (i & t & Hi & Hti & Hli & Hup). exists i, t.
      repeat split; [done | done |].
      intros j t' Hj Htj. apply (Hup j t'); [| done].
      apply lookup_lt_Some in Htj. lia.
    + intros (i & t & Hti & Hli & Hup). exists i, t.
      repeat split; [by eapply lookup_lt_Some | done | done |].
      intros j t' Hj. apply Hup. lia.
  - apply lookupVariableFrom_Err. lia.
Qed.

Lemma LookupVariable_innermost_witness :
  stack.wf twoScopes /\
  (stack.LookupVariable "x" twoScopes = Ok symX <->
   exists i t,
     stack.Tables twoScopes !! i = Some t /\
     symboltable.LookupVariable "x" t = Ok symX /\
     forall j t', (i < j)%nat -> stack.Tables twoScopes !! j = Some t' ->
                  is_Ok (symboltable.LookupVariable "x" t') = false).
Proof.
  assert (stack.wf twoScopes) as Hw by (vm_compute; reflexivity).
  split; [exact Hw |].
  exact (proj1 (LookupVariable_innermost "x" twoScopes Hw) symX).
Defined.

Lemma lookupVariableFrom_app name ts1 ts2 z1 z2 n :
  (n <= length ts1)%nat ->
  stack.lookupVariableFrom name (stack.mkStack (ts1 ++ ts2) z1) n =
  stack.lookupVariableFrom name (stack.mkStack ts1 z2) n.
Proof.
  induction n as [|k IH]; intros Hn; simpl; [done|].
  rewrite lookup_app_l by lia.
  destruct (ts1 !! k) as [t|]; [| done].
  destruct (symboltable.LookupVariable name t); [done | |]; apply IH; lia.
Qed.

Lemma lookupFrom_app name ts1 ts2 z1 z2 n :
  (n <= length ts1)%nat ->
  stack.lookupFrom name (stack.mkStack (ts1 ++ ts2) z1) n =
  stack.lookupFrom name (stack.mkStack ts1 z2) n.
Proof.
  induction n as [|k IH]; intros Hn; simpl; [done|].
  rewrite lookup_app_l by lia.
  destruct (ts1 !! k) as [t|]; [| done].
  destruct (symboltable.Lookup name t); [done | |]; apply IH; lia.
Qed.

(** X6. Opening a scope hides nothing and shows nothing new: after [Push]
    every name is looked up with the result it had before, the tables of the
    levels there were are the same, and the new innermost level holds the
    table [NewTable] returns. *)
Theorem Push_keeps_lookups s :
  stack.wf s ->
  (forall name,
     stack.LookupVariable name (stack.Push s) = stack.LookupVariable name s /\
     stack.Lookup name (stack.Push s) = stack.Lookup name s) /\
  (forall level, 0 <= level < stack.Size s ->
     stack.Table level (stack.Push s) = stack.Table level s) /\
  stack.Table (stack.Size s) (stack.Push s) = Ok symboltable.NewTable.
Proof.
  intros Hw. pose proof Hw as Hw'. unfold stack.wf in Hw'.
  destruct s as [ts z]. simpl in *. subst z.
  split; [| split].
  - intros name.
    unfold stack.LookupVariable, stack.Lookup, stack.Push. simpl.
    replace (Z.to_nat (Z.of_nat (length ts) + 1)) with (S (length ts))
      by lia.
    rewrite Nat2Z.id. simpl.
    rewrite !lookup_app_r by lia. rewrite Nat.sub_diag. simpl.
    unfold symboltable.LookupVariable at 1, symboltable.Lookup at 1,
      symboltable.NewTable.
    rewrite !lookup_empty.
    split; [apply lookupVariableFrom_app | apply lookupFrom_app]; lia.
  - intros level Hl. unfold stack.Table, stack.Push, stack.table_at. simpl.
    destruct (decide (level < 0 \/ Z.of_nat (length ts) + 1 - 1 < level));
      [lia|].
    destruct (decide (level < 0 \/ Z.of_nat (length ts) - 1 < level));
      [lia|].
    destruct (decide (0 <= level)); [| lia].
    rewrite lookup_app_l by lia. done.
  - unfold stack.Table, stack.Push, stack.table_at. simpl.
    destruct (decide (Z.of_nat (length ts) < 0 \/
                      Z.of_nat (length ts) + 1 - 1 < Z.of_nat (length ts)));
      [lia|].
    destruct (decide (0 <= Z.of_nat (length ts))); [| lia].
    rewrite Nat2Z.id, lookup_app_r by lia. by rewrite Nat.sub_diag.
Qed.

Lemma Push_keeps_lookups_witness :
  stack.wf twoScopes /\
  stack.LookupVariable "x" (stack.Push twoScopes) =
  stack.LookupVariable "x" twoScopes.
Proof.
  assert (stack.wf twoScopes) as Hw by (vm_compute; reflexivity).
  split; [exact Hw |].
  exact (proj1 (proj1 (Push_keeps_lookups twoScopes Hw) "x")).
Defined.

(** X7. [Reset] to a level of the stack cuts the stack down to that level:
    it succeeds, the levels up to it keep their tables and the levels above
    it have none any more; resetting to the innermost level changes nothing,
    and a level outside the stack is refused. *)
Theorem Reset_cuts_to_level level s :
  stack.wf s ->
  (0 <= level < stack.Size s ->
   fst (stack.Reset level s) = Ok tt /\
   stack.Size (snd (stack.Reset level s)) = level + 1 /\
   (forall j, j <= level ->
      stack.Table j (snd (stack.Reset level s)) = stack.Table j s) /\
   (forall j, level < j ->
      stack.Table j (snd (stack.Reset level s)) =
      Err (Errorf "No symbol table found for level")) /\
   (level = stack.Size s - 1 -> snd (stack.Reset level s) = s)) /\
  (~ 0 <= level < stack.Size s ->
   stack.Reset level s = (Err (Errorf "Level out of range"), s)).
Proof.
  intros Hw. pose proof Hw as Hw'. unfold stack.wf in Hw'.
  split; intros Hl; unfold stack.Reset;
    destruct (decide (level < 0 \/ stack.Size s - 1 < level));
    try lia; try done.
  assert (snd (if decide (level = 0)
               then (Ok tt, stack.mkStack (take 1 (stack.Tables s)) 1)
               else (Ok tt,
                     stack.mkStack
                       (take (Z.to_nat (level + 1)) (stack.Tables s))
                       (level + 1))) =
          stack.mkStack (take (Z.to_nat (level + 1)) (stack.Tables s))
                        (level + 1)) as Hsnd.
  { destruct (decide (level = 0)) as [->|]; done. }
  split; [by destruct (decide (level = 0))|].
  rewrite Hsnd. simpl.
  split; [done|]. split; [| split].
  - intros j Hj. unfold stack.Table, stack.table_at. simpl.
    destruct (decide (j < 0 \/ level + 1 - 1 < j));
      destruct (decide (j < 0 \/ stack.Size s - 1 < j));
      try lia; try done.
    destruct (decide (0 <= j)); [| lia].
    rewrite lookup_take_lt by lia. done.
  - intros j Hj. unfold stack.Table. simpl.
    destruct (decide (j < 0 \/ level + 1 - 1 < j)); [done | lia].
  - intros ->. destruct s as [ts z]. simpl in *. subst z.
    f_equal; [| lia]. apply take_ge. lia.
Qed.

Lemma Reset_cuts_to_level_witness :
  stack.wf twoScopes /\ 0 <= 0 < stack.Size twoScopes /\
  stack.Size (snd (stack.Reset 0 twoScopes)) = 0 + 1.
Proof.
  assert (stack.wf twoScopes) as Hw by (vm_compute; reflexivity).
  assert (0 <= 0 < stack.Size twoScopes) as Hl by (vm_compute; done).
  split; [exact Hw |]. split; [exact Hl |].
  exact (proj1 (proj2 (proj1 (Reset_cuts_to_level 0 twoScopes Hw) Hl))).
Defined.

Lemma addAtTop_outer_tables add sym s level :
  stack.wf s -> level < stack.Size s - 1 ->
  stack.Size (snd (stack.addAtTop add sym s)) = stack.Size s /\
  stack.Table level (snd (stack.addAtTop add sym s)) = stack.Table level s.
Proof.
  intros Hw Hl. pose proof Hw as Hw'. unfold stack.wf in Hw'.
  unfold stack.addAtTop.
  destruct (decide (stack.Size s > 0)); [| done].
  destruct (stack.table_at s (stack.Size s - 1)) as [t|]; [| done].
  destruct (add sym t) as [t'| |]; [| done | done]. simpl.
  split; [done|]. unfold stack.Table, stack.table_at. simpl.
  destruct (decide (level < 0 \/ stack.Size s - 1 < level)); [done|].
  destruct (decide (0 <= level)); [| lia].
  rewrite list_lookup_insert_ne by lia. done.
Qed.

(** X8. The [Add] methods declare in the innermost scope only: whatever
    they are given, the height of the stack and the table of every level
    below the innermost one are as before. *)
Theorem Add_innermost_only sym s level :
  stack.wf s -> level < stack.Size s - 1 ->
  (stack.Size (snd (stack.AddVariable sym s)) = stack.Size s /\
   stack.Table level (snd (stack.AddVariable sym s)) = stack.Table level s) /\
  (stack.Size (snd (stack.AddDataType sym s)) = stack.Size s /\
   stack.Table level (snd (stack.AddDataType sym s)) = stack.Table level s) /\
  (stack.Size (snd (stack.AddFunction sym s)) = stack.Size s /\
   stack.Table level (snd (stack.AddFunction sym s)) = stack.Table level s).
Proof.
  intros Hw Hl.
  split; [| split];
    unfold stack.AddVariable, stack.AddDataType, stack.AddFunction;
    by apply addAtTop_outer_tables.
Qed.

Lemma Add_innermost_only_witness :
  stack.wf twoScopes /\ 0 < stack.Size twoScopes - 1 /\
  stack.Table 0 (snd (stack.AddVariable symY twoScopes)) =
  stack.Table 0 twoScopes.
Proof.
  assert (stack.wf twoScopes) as Hw by (vm_compute; reflexivity).
  assert (0 < stack.Size twoScopes - 1) as Hl by (vm_compute; done).
  split; [exact Hw |]. split; [exact Hl |].
  exact (proj2 (proj1 (Add_innermost_only symY twoScopes 0 Hw Hl))).
Defined.

(** ** What every statement keeps of the state besides the stack *)

Lemma extends_refl c : extends c c.
Proof. split; [done | lia]. Qed.

Lemma extends_trans c1 c2 c3 : extends c1 c2 -> extends c2 c3 -> extends c1 c3.
Proof. intros [H1 H2] [H3 H4]. split; [by etrans | lia]. Qed.

Lemma Keeps_refl st : Keeps st st.
Proof. split; [apply extends_refl | done]. Qed.

Lemma Keeps_trans st1 st2 st3 : Keeps st1 st2 -> Keeps st2 st3 -> Keeps st1 st3.
Proof.
  intros [H1 H2] [H3 H4]. split; [by eapply extends_trans | auto].
Qed.

Lemma keeps_ret {A} (a : A) : keeps (ret a).
Proof. intros st. apply Keeps_refl. Qed.

Lemma keeps_fail {A} e : keeps (@fail A e).
Proof. intros st. apply Keeps_refl. Qed.

Lemma keeps_panic {A} msg : keeps (@panic A msg).
Proof. intros st. apply Keeps_refl. Qed.

Lemma keeps_bind {A B} (m : M A) (k : A -> M B) :
  keeps m -> (forall a, keeps (k a)) -> keeps (bind m k).
Proof.
  intros Hm Hk st. unfold bind. specialize (Hm st).
  destruct (m st) as [[a|e|p] st1]; simpl in *; try done.
  eapply Keeps_trans; [exact Hm |]. apply Hk.
Qed.

Lemma keeps_try {A} (m : M A) : keeps m -> keeps (try_ m).
Proof.
  intros Hm st. unfold try_. specialize (Hm st).
  by destruct (m st) as [[a|e|p] st1].
Qed.

Lemma keeps_ignore_err {A} (m : M A) : keeps m -> keeps (ignore_err m).
Proof.
  intros Hm. apply keeps_bind; [by apply keeps_try |].
  intros _. apply keeps_ret.
Qed.

Lemma keeps_wrap_err {A} prefix (m : M A) :
  keeps m -> keeps (wrap_err prefix m).
Proof.
  intros Hm. apply keeps_bind; [by apply keeps_try |].
  intros [e|a]; [apply keeps_fail | apply keeps_ret].
Qed.

Lemma keeps_defer {A} (d : M unit) (m : M A) :
  keeps m -> keeps d -> keeps (defer_ d m).
Proof.
  intros Hm Hd st. unfold defer_. specialize (Hm st).
  destruct (m st) as [r st1]; simpl in *.
  specialize (Hd st1).
  destruct (d st1) as [[[]|e|p] st2]; simpl in *; by eapply Keeps_trans.
Qed.

Lemma keeps_index {A} (l : list A) i : keeps (index l i).
Proof. unfold index. destruct (l !! i); [apply keeps_ret | apply keeps_panic]. Qed.

Lemma Keeps_same st st' :
  ContractTable st' = ContractTable st ->
  lastConstType st' = lastConstType st -> Keeps st st'.
Proof.
  intros Hc Hl. unfold Keeps. rewrite Hc, Hl.
  split; [apply extends_refl | done].
Qed.

(** The methods of the stack and of the table of allocated symbols leave
    the contract table and [lastConstType] alone. *)
Lemma keeps_liftStack {A} (f : stack.Stack -> Res A * stack.Stack) :
  keeps (liftStack f).
Proof.
  intros st. unfold liftStack. destruct (f (SymbolTable st)). simpl.
  by apply Keeps_same.
Qed.

Lemma keeps_readStack {A} (f : stack.Stack -> Res A) : keeps (readStack f).
Proof. intros st. by apply Keeps_same. Qed.

Lemma keeps_Push : keeps Push.
Proof. intros st. by apply Keeps_same. Qed.

Lemma keeps_Pop : keeps Pop.
Proof. apply keeps_liftStack. Qed.

Lemma keeps_AddVariable sym : keeps (AddVariable sym).
Proof. apply keeps_liftStack. Qed.

Lemma keeps_AddDataType sym : keeps (AddDataType sym).
Proof. apply keeps_liftStack. Qed.

Lemma keeps_LookupVariable name : keeps (LookupVariable name).
Proof. apply keeps_readStack. Qed.

Lemma keeps_Lookup name : keeps (Lookup name).
Proof. apply keeps_readStack. Qed.

Lemma keeps_CurrentLevel : keeps CurrentLevel.
Proof. intros st. by apply Keeps_same. Qed.

Lemma keeps_Lock : keeps Lock.
Proof. intros st. by apply Keeps_same. Qed.

Lemma keeps_Unlock : keeps Unlock.
Proof. intros st. by apply Keeps_same. Qed.

Lemma keeps_AllocAddDataType pkg name pos :
  keeps (AllocAddDataType pkg name pos).
Proof. intros st. by apply Keeps_same. Qed.

Lemma keeps_getLastConstType : keeps getLastConstType.
Proof. intros st. by apply Keeps_same. Qed.

(** [lastConstType] is only ever assigned a data type. *)
Lemma keeps_setLastConstType d : keeps (setLastConstType d).
Proof. intros st. split; [apply extends_refl | by eexists]. Qed.

(** A contract is added at the end; a virtual variable takes the next
    index. *)
Lemma keeps_AddContract c : keeps (AddContract c).
Proof.
  intros st. split; [| done]. split; simpl; [| lia].
  by apply prefix_app_r.
Qed.

Lemma keeps_NewVirtualVar : keeps NewVirtualVar.
Proof. intros st. split; [| done]. split; simpl; [done | lia]. Qed.

Lemma keeps_scope {A} (m : M A) : keeps m -> keeps (Push ;; defer_ Pop m).
Proof.
  intros Hm. apply keeps_bind; [apply keeps_Push |].
  intros _. apply keeps_defer; [done | apply keeps_Pop].
Qed.

Create HintDb keeps.

#[export] Hint Resolve keeps_ret keeps_fail keeps_panic keeps_index
  keeps_AddContract keeps_NewVirtualVar keeps_Lock keeps_Unlock
  keeps_CurrentLevel keeps_LookupVariable keeps_Lookup
  keeps_setLastConstType keeps_getLastConstType keeps_AllocAddDataType
  keeps_AddVariable keeps_AddDataType keeps_Push keeps_Pop : keeps.

Ltac keeps_step :=
  lazymatch goal with
  | |- keeps (bind Push (fun _ => defer_ Pop _)) => apply keeps_scope
  | |- keeps (bind _ _) => apply keeps_bind; [| intros ?]
  | |- keeps (try_ _) => apply keeps_try
  | |- keeps (ignore_err _) => apply keeps_ignore_err
  | |- keeps (wrap_err _ _) => apply keeps_wrap_err
  | |- keeps (defer_ _ _) => apply keeps_defer
  | |- keeps (if ?b then _ else _) => destruct b
  | |- keeps (match ?x with _ => _ end) => destruct x
  | |- keeps (let _ := _ in _) => cbv zeta
  | |- keeps _ => solve [eauto with keeps]
  end.

Ltac keeps_go := repeat keeps_step.

Section Keeps.

Context (cfg : Config) (Hcfg : collaborators_keep cfg).

Lemma keeps_ExprParser e : keeps (ExprParser_Parse cfg e).
Proof. apply Hcfg. Qed.

Lemma keeps_TypeParser e : keeps (TypeParser_Parse cfg e).
Proof. apply Hcfg. Qed.

Lemma keeps_FindFirstNonid d : keeps (FindFirstNonidDataType cfg d).
Proof. apply Hcfg. Qed.

Hint Resolve keeps_ExprParser keeps_TypeParser keeps_FindFirstNonid
  : keeps.

Lemma keeps_parseReceiver e skip : keeps (parseReceiver cfg e skip).
Proof. unfold parseReceiver. keeps_go. Qed.

Lemma keeps_clearPackageBelowFile sDef :
  keeps (clearPackageBelowFile sDef).
Proof. unfold clearPackageBelowFile. keeps_go. Qed.

Hint Resolve keeps_parseReceiver keeps_clearPackageBelowFile : keeps.

Lemma keeps_valueSpecTuple typeDef attr names i acc :
  keeps (valueSpecTuple cfg typeDef attr names i acc).
Proof.
  revert i acc. induction names as [|name rest IH]; intros i acc; simpl;
    keeps_go.
Qed.

Lemma keeps_valueSpecEach typeDef names values i acc :
  keeps (valueSpecEach cfg typeDef names values i acc).
Proof.
  revert i acc. induction values as [|v rest IH]; intros i acc; simpl;
    keeps_go.
Qed.

Lemma keeps_valueSpecRest typeDef names acc :
  keeps (valueSpecRest cfg typeDef names acc).
Proof.
  revert typeDef acc. induction names as [|name rest IH];
    intros typeDef acc; simpl; keeps_go.
Qed.

Hint Resolve keeps_valueSpecTuple keeps_valueSpecEach
  keeps_valueSpecRest : keeps.

Lemma keeps_ParseValueSpec names type_ values :
  keeps (ParseValueSpec cfg names type_ values).
Proof.
  unfold ParseValueSpec, valueSpecType, valueSpecSingle. keeps_go.
Qed.

Lemma keeps_addVariables defs : keeps (addVariables defs).
Proof. induction defs as [|d rest IH]; simpl; keeps_go. Qed.

Hint Resolve keeps_ParseValueSpec keeps_addVariables : keeps.

Lemma keeps_parseDeclStmt decl : keeps (parseDeclStmt cfg decl).
Proof.
  destruct decl as [|specs|]; simpl; keeps_go.
  induction specs as [|spec rest IH]; simpl; [keeps_go |].
  destruct spec; unfold parseTypeSpec; keeps_go.
Qed.

Lemma keeps_parseReturnStmt results : keeps (parseReturnStmt cfg results).
Proof. induction results as [|r rest IH]; simpl; keeps_go. Qed.

Lemma keeps_rhsIndexer k rhs i : keeps (rhsIndexer cfg k rhs i).
Proof. unfold rhsIndexer. keeps_go. Qed.

Lemma keeps_assignRhsIndexer lhs rhs : keeps (assignRhsIndexer cfg lhs rhs).
Proof. unfold assignRhsIndexer. keeps_go. Qed.

Lemma keeps_assignLhs tok lhs rhsExpr rhsTypeVar :
  keeps (assignLhs cfg tok lhs rhsExpr rhsTypeVar).
Proof. unfold assignLhs. keeps_go. Qed.

Hint Resolve keeps_rhsIndexer keeps_assignRhsIndexer keeps_assignLhs
  : keeps.

Lemma keeps_assignLoop k tok rhs lhs i :
  keeps (assignLoop cfg k tok rhs lhs i).
Proof.
  revert i. induction lhs as [|l rest IH]; intros i; simpl; keeps_go.
Qed.

Hint Resolve keeps_assignLoop : keeps.

Lemma keeps_parseAssignStmt lhs tok rhs :
  keeps (parseAssignStmt cfg lhs tok rhs).
Proof. unfold parseAssignStmt. keeps_go. Qed.

Hint Resolve keeps_parseDeclStmt keeps_parseReturnStmt
  keeps_parseAssignStmt : keeps.

End Keeps.

Section KeepsControl.

Context (cfg : Config) (Hcfg : collaborators_keep cfg).
Context (P : ast.Stmt -> M unit).

Hint Resolve keeps_ExprParser keeps_TypeParser keeps_FindFirstNonid
  keeps_parseDeclStmt keeps_parseReturnStmt keeps_parseAssignStmt
  : keeps.

Lemma keeps_parseStmtList l :
  Forall (fun s => keeps (P s)) l -> keeps (parseStmtList P l).
Proof.
  induction 1 as [|s rest Hs Hrest IH]; simpl; keeps_go.
Qed.

Lemma keeps_parseBlockStmt l :
  Forall (fun s => keeps (P s)) l -> keeps (parseBlockStmt P l).
Proof.
  intros Hl. unfold parseBlockStmt. apply keeps_scope.
  by apply keeps_parseStmtList.
Qed.

Lemma keeps_parseBody l :
  Forall (fun s => keeps (P s)) l -> keeps (parseBody P l).
Proof.
  intros Hl. unfold parseBody. destruct l; [apply keeps_ret |].
  by apply keeps_parseBlockStmt.
Qed.

Hint Resolve keeps_parseStmtList keeps_parseBlockStmt keeps_parseBody
  : keeps.

Lemma keeps_withInit init k :
  Forall (fun s => keeps (P s)) (optStmt init) -> keeps k ->
  keeps (withInit P init k).
Proof.
  intros Hi Hk. unfold withInit. destruct init as [s|]; [| done].
  apply Forall_cons in Hi as [Hs _]. keeps_go.
Qed.

Lemma keeps_parseIfStmt init cond body else_ :
  Forall (fun s => keeps (P s)) (optStmt init) ->
  Forall (fun s => keeps (P s)) body ->
  Forall (fun s => keeps (P s)) (optStmt else_) ->
  keeps (parseIfStmt cfg P init cond body else_).
Proof.
  intros Hi Hb He. unfold parseIfStmt. apply keeps_withInit; [done |].
  destruct else_ as [e|]; [apply Forall_cons in He as [He _] |]; keeps_go.
Qed.

Lemma keeps_switchCaseExprs tv l : keeps (switchCaseExprs cfg tv l).
Proof. induction l as [|e rest IH]; simpl; keeps_go. Qed.

Hint Resolve keeps_switchCaseExprs : keeps.

Lemma keeps_switchClauses tv l :
  Forall (clauseKeeps P) l -> keeps (switchClauses cfg P tv l).
Proof.
  induction 1 as [|s rest Hs Hrest IH]; simpl; [keeps_go |].
  destruct s; simpl in Hs; keeps_go.
Qed.

Lemma keeps_parseSwitchStmt init tag body :
  Forall (fun s => keeps (P s)) (optStmt init) ->
  Forall (clauseKeeps P) body ->
  keeps (parseSwitchStmt cfg P init tag body).
Proof.
  intros Hi Hb. unfold parseSwitchStmt. apply keeps_withInit; [done |].
  pose proof (keeps_switchClauses) as Hc. keeps_go.
Qed.

Lemma keeps_typeSwitchCaseTypes tv l : keeps (typeSwitchCaseTypes cfg tv l).
Proof. induction l as [|e rest IH]; simpl; keeps_go. Qed.

Lemma keeps_typeSwitchBind rhsIdentifier pos def :
  keeps (typeSwitchBind cfg rhsIdentifier pos def).
Proof. unfold typeSwitchBind. keeps_go. Qed.

Hint Resolve keeps_typeSwitchCaseTypes keeps_typeSwitchBind : keeps.

Lemma keeps_typeSwitchClause rhsIdentifier tv pos list_ body :
  Forall (fun x => keeps (P x)) body ->
  keeps (typeSwitchClause cfg P rhsIdentifier tv pos list_ body).
Proof. intros Hb. unfold typeSwitchClause. keeps_go. Qed.

Lemma keeps_typeSwitchClauses rhsIdentifier tv l :
  Forall (clauseKeeps P) l ->
  keeps (typeSwitchClauses cfg P rhsIdentifier tv l).
Proof.
  induction 1 as [|s rest Hs Hrest IH]; simpl; [keeps_go |].
  pose proof keeps_typeSwitchClause as Hc.
  destruct s; simpl in Hs; keeps_go.
Qed.

Lemma keeps_typeSwitchGuard x k :
  (forall tv, keeps (k tv)) -> keeps (typeSwitchGuard cfg x k).
Proof. intros Hk. unfold typeSwitchGuard. keeps_go. Qed.

Lemma keeps_parseTypeSwitchStmt init assign body :
  Forall (fun s => keeps (P s)) (optStmt init) ->
  Forall (clauseKeeps P) body ->
  keeps (parseTypeSwitchStmt cfg P init assign body).
Proof.
  intros Hi Hb. unfold parseTypeSwitchStmt. apply keeps_withInit; [done |].
  pose proof keeps_typeSwitchClauses as Hc.
  apply keeps_scope.
  destruct assign as [[]|]; keeps_go;
    apply keeps_typeSwitchGuard; intros tv; keeps_go.
Qed.

Lemma keeps_selectBind name pos def x : keeps (selectBind cfg name pos def x).
Proof. unfold selectBind. keeps_go. Qed.

Lemma keeps_selectAssign lhs x : keeps (selectAssign cfg lhs x).
Proof. unfold selectAssign. keeps_go. Qed.

Hint Resolve keeps_selectBind keeps_selectAssign : keeps.

Lemma keeps_selectRecv lhs tok rhs : keeps (selectRecv cfg lhs tok rhs).
Proof. unfold selectRecv. keeps_go. Qed.

Hint Resolve keeps_selectRecv : keeps.

Lemma keeps_selectComm comm : keeps (selectComm cfg comm).
Proof. unfold selectComm. keeps_go. Qed.

Hint Resolve keeps_selectComm : keeps.

Lemma keeps_selectClause stmt :
  clauseKeeps P stmt -> keeps (selectClause cfg P stmt).
Proof.
  intros Hs. unfold selectClause. apply keeps_scope.
  destruct stmt; simpl in Hs; keeps_go.
Qed.

Lemma keeps_parseSelectStmt body :
  Forall (clauseKeeps P) body -> keeps (parseSelectStmt cfg P body).
Proof.
  unfold parseSelectStmt.
  induction 1 as [|s rest Hs Hrest IH]; simpl; [keeps_go |].
  pose proof keeps_selectClause as Hc. keeps_go.
Qed.

Lemma keeps_parseForStmt init cond post body :
  Forall (fun s => keeps (P s)) (optStmt init) ->
  Forall (fun s => keeps (P s)) (optStmt post) ->
  Forall (fun s => keeps (P s)) body ->
  keeps (parseForStmt cfg P init cond post body).
Proof.
  intros Hi Hp Hb. unfold parseForStmt. apply keeps_scope.
  destruct init as [i|]; [apply Forall_cons in Hi as [Hi _] |];
    (destruct post as [p|]; [apply Forall_cons in Hp as [Hp _] |]);
    keeps_go.
Qed.

Lemma keeps_rangeKeyValue d : keeps (rangeKeyValue d).
Proof. unfold rangeKeyValue. keeps_go. Qed.

Lemma keeps_rangeKey tok keyExpr key tv : keeps (rangeKey cfg tok keyExpr key tv).
Proof. unfold rangeKey. keeps_go. Qed.

Lemma keeps_rangeValue tok valueExpr value tv :
  keeps (rangeValue cfg tok valueExpr value tv).
Proof. unfold rangeValue. keeps_go. Qed.

Hint Resolve keeps_rangeKeyValue keeps_rangeKey keeps_rangeValue : keeps.

Lemma keeps_rangeBindings key value tok attr :
  keeps (rangeBindings cfg key value tok attr).
Proof. unfold rangeBindings. keeps_go. Qed.

Hint Resolve keeps_rangeBindings : keeps.

Lemma keeps_parseRangeStmt key value tok x body :
  Forall (fun s => keeps (P s)) body ->
  keeps (parseRangeStmt cfg P key value tok x body).
Proof. intros Hb. unfold parseRangeStmt. keeps_go. Qed.

End KeepsControl.

Section KeepsParse.

Context (cfg : Config) (Hcfg : collaborators_keep cfg).

Hint Resolve keeps_ExprParser keeps_TypeParser keeps_FindFirstNonid
  keeps_parseDeclStmt keeps_parseReturnStmt keeps_parseAssignStmt
  keeps_parseReceiver : keeps.

Lemma keeps_Parse_clauses s :
  keeps (Parse cfg s) /\ clauseKeeps (Parse cfg) s.
Proof.
  induction s as [s IH] using Stmt_children_ind.
  assert (forall l, Forall (fun s => keeps (Parse cfg s) /\
                                     clauseKeeps (Parse cfg) s) l ->
                    Forall (fun s => keeps (Parse cfg s)) l) as Hf.
  { intros l Hl. eapply Forall_impl; [exact Hl |]. by intros x []. }
  assert (forall l, Forall (fun s => keeps (Parse cfg s) /\
                                     clauseKeeps (Parse cfg) s) l ->
                    Forall (clauseKeeps (Parse cfg)) l) as Hc.
  { intros l Hl. eapply Forall_impl; [exact Hl |]. by intros x []. }
  destruct s; simpl in IH; repeat rewrite Forall_app in IH;
    (split; [| simpl; intuition auto]); simpl.
  - apply keeps_panic.
  - by apply keeps_parseDeclStmt.
  - apply keeps_ret.
  - by apply Forall_cons in IH as [[H _] _].
  - unfold parseExprStmt. keeps_go.
  - unfold parseSendStmt. keeps_go.
  - unfold parseIncDecStmt. keeps_go.
  - by apply keeps_parseAssignStmt.
  - unfold parseGoStmt. keeps_go.
  - unfold parseDeferStmt. keeps_go.
  - by apply keeps_parseReturnStmt.
  - apply keeps_ret.
  - apply keeps_parseBlockStmt; auto.
  - destruct IH as (Hi & Hb & He). apply keeps_parseIfStmt; auto.
  - apply keeps_panic.
  - destruct IH as (Hi & Hb). apply keeps_parseSwitchStmt; auto.
  - destruct IH as (Hi & Ha & Hb). apply keeps_parseTypeSwitchStmt; auto.
  - apply keeps_panic.
  - apply keeps_parseSelectStmt; auto.
  - destruct IH as (Hi & Hp & Hb). apply keeps_parseForStmt; auto.
  - apply keeps_parseRangeStmt; auto.
Qed.

Lemma keeps_Parse s : keeps (Parse cfg s).
Proof. apply keeps_Parse_clauses. Qed.

Lemma keeps_headFieldNames def names sDefs :
  keeps (headFieldNames cfg def names sDefs).
Proof.
  revert sDefs. induction names as [|n rest IH]; intros sDefs; simpl;
    keeps_go.
Qed.

Hint Resolve keeps_headFieldNames : keeps.

Lemma keeps_headFields prefix fields sDefs :
  keeps (headFields cfg prefix fields sDefs).
Proof.
  revert sDefs. induction fields as [|f rest IH]; intros sDefs; simpl;
    keeps_go.
Qed.

Lemma keeps_addHeadVariables sDefs : keeps (addHeadVariables sDefs).
Proof. induction sDefs as [|d rest IH]; simpl; keeps_go. Qed.

Hint Resolve keeps_headFields keeps_addHeadVariables : keeps.

Lemma keeps_parseFuncHeadVariables funcDecl :
  keeps (parseFuncHeadVariables cfg funcDecl).
Proof.
  unfold parseFuncHeadVariables, headReceiver, headOptFields. keeps_go.
Qed.

End KeepsParse.
Lemma keeps_ParseFuncBody cfg funcDecl :
  collaborators_keep cfg -> keeps (ParseFuncBody cfg funcDecl).
Proof.
  intros Hcfg. unfold ParseFuncBody.
  pose proof (keeps_parseFuncHeadVariables cfg Hcfg funcDecl) as Hh.
  assert (forall l, keeps (parseStmtList (Parse cfg) l)) as Hl.
  { intros l. apply keeps_parseStmtList.
    apply Forall_forall. intros s _. by apply keeps_Parse. }
  keeps_go.
Qed.

Lemma stub_collaborators_keep : collaborators_keep stub.config.
Proof.
  split; [| split]; intros x st; simpl.
  - rewrite stub_ExprParser_untouched. apply Keeps_refl.
  - rewrite stub_TypeParser_untouched. apply Keeps_refl.
  - apply Keeps_refl.
Qed.

(** X9. The statement parser only adds to the contract table: if the
    expression parser, the type parser and the symbols accessor keep the
    contracts there are, in their order, and hand out no index of a virtual
    variable twice, then so do [Parse] on every statement, [ParseFuncBody]
    on every function and [ParseValueSpec] on every value spec, however they
    end: the contracts emitted before an error or a panic stay. *)
Theorem contracts_only_added cfg st :
  collaborators_keep cfg ->
  (forall s,
     extends (ContractTable st) (ContractTable (snd (Parse cfg s st)))) /\
  (forall funcDecl,
     extends (ContractTable st)
             (ContractTable (snd (ParseFuncBody cfg funcDecl st)))) /\
  (forall names type_ values,
     extends (ContractTable st)
             (ContractTable
                (snd (ParseValueSpec cfg names type_ values st)))).
Proof.
  intros Hcfg. split; [| split].
  - intros s. by apply keeps_Parse.
  - intros funcDecl. by apply keeps_ParseFuncBody.
  - intros names type_ values. by apply keeps_ParseValueSpec.
Qed.

Lemma contracts_only_added_witness :
  collaborators_keep stub.config /\
  extends (ContractTable stub.fileState)
          (ContractTable
             (snd (ParseFuncBody stub.config (addDecl (Some addBody))
                                 stub.fileState))).
Proof.
  split; [exact stub_collaborators_keep |].
  exact (proj1 (proj2 (contracts_only_added stub.config stub.fileState
                         stub_collaborators_keep))
               (addDecl (Some addBody))).
Defined.

(** X10. The type remembered for the constants of a group is never
    forgotten: once [lastConstType] is set, it is set after every statement,
    function body and value spec, however they end (the collaborators have
    no access to it, which is the assumption here); no declaration boundary
    clears it. *)
Theorem lastConstType_never_cleared cfg st :
  collaborators_keep cfg ->
  is_Some (lastConstType st) ->
  (forall s, is_Some (lastConstType (snd (Parse cfg s st)))) /\
  (forall funcDecl,
     is_Some (lastConstType (snd (ParseFuncBody cfg funcDecl st)))) /\
  (forall names type_ values,
     is_Some (lastConstType
                (snd (ParseValueSpec cfg names type_ values st)))).
Proof.
  intros Hcfg Hl. split; [| split].
  - intros s. by apply (keeps_Parse cfg Hcfg s st).
  - intros funcDecl. by apply (keeps_ParseFuncBody cfg funcDecl Hcfg st).
  - intros names type_ values.
    by apply (keeps_ParseValueSpec cfg Hcfg names type_ values st).
Qed.

Lemma lastConstType_never_cleared_witness :
  collaborators_keep stub.config /\
  is_Some (lastConstType afterIota) /\
  is_Some (lastConstType
             (snd (ParseFuncBody stub.config (addDecl (Some addBody))
                                 afterIota))).
Proof.
  assert (is_Some (lastConstType afterIota)) as Hl
    by (vm_compute; by eexists).
  split; [exact stub_collaborators_keep |]. split; [exact Hl |].
  exact (proj1 (proj2 (lastConstType_never_cleared stub.config afterIota
                         stub_collaborators_keep Hl))
               (addDecl (Some addBody))).
Defined.

(** ** The symbols of a value spec *)

Lemma bind_Ok {A B} (m : M A) (k : A -> M B) st b st' :
  bind m k st = (Ok b, st') ->
  exists a st1, m st = (Ok a, st1) /\ k a st1 = (Ok b, st').
Proof.
  unfold bind. destruct (m st) as [[a|e|p] st1]; [| done | done].
  intros H. by exists a, st1.
Qed.

Lemma index_Ok {A} (l : list A) i st a st' :
  index l i st = (Ok a, st') -> l !! i = Some a /\ st' = st.
Proof.
  unfold index. destruct (l !! i); [| done]. by intros [= -> ->].
Qed.

Lemma clearPackageBelowFile_key d st sDef st' :
  clearPackageBelowFile d st = (Ok sDef, st') ->
  symbolKey sDef = symbolKey d.
Proof.
  unfold clearPackageBelowFile, bind, CurrentLevel. simpl.
  destruct (decide (stack.CurrentLevel (SymbolTable st) > 0));
    by intros [= <- _].
Qed.

Lemma declaredKeys_cons cfg n names :
  declaredKeys cfg (n :: names) =
  if bool_decide (ast.Name n = "_") then declaredKeys cfg names
  else (ast.Name n, SymbolPos cfg (ast.NamePos n)) :: declaredKeys cfg names.
Proof.
  unfold declaredKeys. rewrite filter_cons.
  case_bool_decide; destruct (decide (ast.Name n <> "_")); done.
Qed.

Lemma declaredKeys_app cfg l1 l2 :
  declaredKeys cfg (l1 ++ l2) = (declaredKeys cfg l1 ++ declaredKeys cfg l2)%list.
Proof. unfold declaredKeys. by rewrite filter_app, map_app. Qed.

Lemma trailingSymbols_keys cfg t names :
  map symbolKey (trailingSymbols cfg t names) = declaredKeys cfg names.
Proof.
  unfold trailingSymbols, declaredKeys. rewrite map_map. done.
Qed.

Lemma valueSpecTuple_keys cfg typeDef attr names i acc st syms st' :
  valueSpecTuple cfg typeDef attr names i acc st = (Ok syms, st') ->
  map symbolKey syms = (map symbolKey acc ++ declaredKeys cfg names)%list.
Proof.
  revert i acc st. induction names as [|n rest IH]; intros i acc st; simpl.
  - intros [= <- _]. unfold declaredKeys. simpl. by rewrite app_nil_r.
  - rewrite declaredKeys_cons. case_bool_decide as Hn; [apply IH |].
    destruct typeDef as [t|]; intros H.
    + apply bind_Ok in H as (sDef & st1 & Hs & H).
      apply bind_Ok in H as (tv & st2 & _ & H).
      apply bind_Ok in H as (? & st3 & _ & H).
      apply IH in H. rewrite H, map_app. simpl.
      rewrite (clearPackageBelowFile_key _ _ _ _ Hs).
      by rewrite <- app_assoc.
    + apply bind_Ok in H as (d & st0 & _ & H).
      apply bind_Ok in H as (sDef & st1 & Hs & H).
      apply bind_Ok in H as (tv & st2 & _ & H).
      apply bind_Ok in H as (? & st3 & _ & H).
      apply IH in H. rewrite H, map_app. simpl.
      rewrite (clearPackageBelowFile_key _ _ _ _ Hs).
      by rewrite <- app_assoc.
Qed.

Lemma valueSpecEach_keys cfg typeDef names values i acc st syms st' :
  valueSpecEach cfg typeDef names values i acc st = (Ok syms, st') ->
  map symbolKey syms =
  (map symbolKey acc ++
   declaredKeys cfg (take (length values) (drop i names)))%list.
Proof.
  revert i acc st. induction values as [|v rest IH]; intros i acc st; simpl.
  - intros [= <- _]. unfold declaredKeys. simpl. by rewrite app_nil_r.
  - destruct (bool_decide (typeDef = None) && ast.is_nil v); [done|].
    intros H. apply bind_Ok in H as (attr & st1 & _ & H).
    destruct (decide (len (DataTypeList attr) ≠ 1)); [done|].
    apply bind_Ok in H as (name & st2 & Hi & H).
    apply index_Ok in Hi as [Hi ->].
    rewrite (drop_S _ _ _ Hi). simpl. rewrite declaredKeys_cons.
    case_bool_decide as Hn; [by apply IH in H |].
    destruct typeDef as [t|].
    + apply bind_Ok in H as (tv & st3 & _ & H).
      apply bind_Ok in H as (? & st4 & _ & H).
      apply bind_Ok in H as (d0 & st5 & _ & H).
      apply bind_Ok in H as (? & st6 & _ & H).
      apply IH in H. rewrite H, map_app. simpl. by rewrite <- app_assoc.
    + apply bind_Ok in H as (d0 & st3 & _ & H).
      apply bind_Ok in H as (d & st4 & _ & H).
      apply bind_Ok in H as (tv & st5 & _ & H).
      apply bind_Ok in H as (? & st6 & _ & H).
      apply IH in H. rewrite H, map_app. simpl. by rewrite <- app_assoc.
Qed.

Lemma valueSpecRest_keys cfg typeDef names acc st syms st' :
  valueSpecRest cfg typeDef names acc st = (Ok syms, st') ->
  map symbolKey syms = (map symbolKey acc ++ declaredKeys cfg names)%list.
Proof.
  destruct typeDef as [t|].
  - rewrite valueSpecRest_typed. intros [= <- _].
    by rewrite map_app, trailingSymbols_keys.
  - destruct names as [|n rest].
    + simpl. intros [= <- _]. unfold declaredKeys. simpl.
      by rewrite app_nil_r.
    + rewrite valueSpecRest_untyped.
      destruct (lastConstType st) as [t|]; [| done]. intros [= <- _].
      by rewrite map_app, trailingSymbols_keys.
Qed.

(** What a successful [ParseValueSpec] has gone through. *)
Lemma ParseValueSpec_Ok cfg names type_ values st syms st' :
  ParseValueSpec cfg names type_ values st = (Ok syms, st') ->
  map symbolKey syms = declaredKeys cfg names /\ len values <= len names.
Proof.
  unfold ParseValueSpec. intros H.
  apply bind_Ok in H as (typeDef & st0 & _ & H).
  apply bind_Ok in H as (single & st1 & Hs & H).
  destruct single as [symbolsDef|].
  - injection H as <- _. unfold valueSpecSingle in Hs.
    destruct (decide (len values = 1)) as [Hv|]; [| done].
    apply bind_Ok in Hs as (v0 & st2 & _ & Hs).
    apply bind_Ok in Hs as (attr & st3 & _ & Hs).
    apply bind_Ok in Hs as (d0 & st4 & Hd & Hs).
    apply index_Ok in Hd as [Hd ->].
    destruct (gotypes.is_iota d0); [done|].
    destruct (decide (len names ≠ len (DataTypeList attr))) as [|Hn];
      [done|].
    apply bind_Ok in Hs as (symbolsDef' & st5 & Ht & Hs).
    injection Hs as <- _. split.
    + by apply valueSpecTuple_keys in Ht.
    + apply lookup_lt_Some in Hd. unfold len in *. lia.
  - destruct (decide (len names < len values)) as [|Hn]; [done|].
    apply bind_Ok in H as (symbolsDef & st2 & He & H).
    apply valueSpecEach_keys in He. apply valueSpecRest_keys in H.
    split; [| lia].
    rewrite H, He. simpl. rewrite drop_0, <- declaredKeys_app.
    by rewrite take_drop.
Qed.

(** X11. The symbols a value spec declares are its names: when
    [ParseValueSpec] succeeds, whichever branch it took and whatever the
    collaborators answered, it returns one symbol for each name other than
    [_], in the order of the names, under that name and at the position
    [FileName:pos] of that name; no symbol is named [_]. *)
Theorem ParseValueSpec_symbols_are_names
    cfg names type_ values st syms st' :
  ParseValueSpec cfg names type_ values st = (Ok syms, st') ->
  map symbolKey syms = declaredKeys cfg names /\
  Forall (fun s => gotypes.Name s <> "_") syms.
Proof.
  intros H. apply ParseValueSpec_Ok in H as [H _]. split; [done|].
  apply Forall_forall. intros s Hs.
  apply (list_elem_of_fmap_2 symbolKey) in Hs.
  change (symbolKey <$> syms) with (map symbolKey syms) in Hs.
  rewrite H in Hs. unfold declaredKeys in Hs.
  apply list_elem_of_fmap_1 in Hs as (n & Hk & Hn).
  apply list_elem_of_filter in Hn as [Hn _].
  injection Hk as -> _. done.
Qed.

(** X12. A value spec with more values than names is never accepted:
    when [ParseValueSpec] succeeds there are at least as many names as
    values, also when the single value is a call with several results. *)
Theorem ParseValueSpec_names_cover_values
    cfg names type_ values st syms st' :
  ParseValueSpec cfg names type_ values st = (Ok syms, st') ->
  len values <= len names.
Proof. intros H. by apply ParseValueSpec_Ok in H as [_ H]. Qed.

(** ** Scopes are closed on every exit *)

Lemma Forall_frames_Parse cfg l :
  collaborators_frame cfg -> Forall (fun s => frames (Parse cfg s)) l.
Proof. intros Hcfg. apply Forall_forall. intros s _. by apply frames_Parse. Qed.

Lemma Forall_clauseFrames_Parse cfg l :
  collaborators_frame cfg -> Forall (clauseFrames (Parse cfg)) l.
Proof.
  intros Hcfg. apply Forall_forall. intros s _.
  by apply frames_Parse_clauses.
Qed.

Lemma restores_ret {A} (a : A) : restores (ret a).
Proof. by intros st _. Qed.

Lemma restores_bind {A B} (m : M A) (k : A -> M B) :
  restores m -> (forall a, restores (k a)) -> restores (bind m k).
Proof.
  intros Hm Hk st Hw. unfold bind. specialize (Hm st Hw).
  destruct (m st) as [[a|e|p] st1]; simpl in *; try done.
  rewrite <- Hm. apply Hk. by rewrite Hm.
Qed.

Lemma restores_selectClauses cfg l :
  collaborators_frame cfg -> restores (selectClauses cfg (Parse cfg) l).
Proof.
  intros Hcfg. induction l as [|s rest IH]; simpl; [apply restores_ret|].
  apply restores_bind; [| done].
  unfold selectClause. apply restores_scope.
  pose proof (frames_selectComm cfg Hcfg) as Hc.
  pose proof (frames_parseBody (Parse cfg)) as Hb.
  pose proof (Forall_frames_Parse cfg) as Hf.
  destruct s; frames_go.
Qed.

Lemma restores_scoped cfg s :
  collaborators_frame cfg -> scoped s = true -> restores (Parse cfg s).
Proof.
  intros Hcfg Hs.
  pose proof (frames_Parse cfg Hcfg) as HP.
  pose proof (frames_ExprParser cfg Hcfg) as HE.
  pose proof (fun l => frames_parseStmtList (Parse cfg) l
                         (Forall_frames_Parse cfg l Hcfg)) as Hl.
  pose proof (fun l => frames_parseBlockStmt (Parse cfg) l
                         (Forall_frames_Parse cfg l Hcfg)) as Hb.
  pose proof (fun l => frames_parseBody (Parse cfg) l
                         (Forall_frames_Parse cfg l Hcfg)) as Hy.
  destruct s as [| | | | | | | | | | | | |init cond body else_| |init tag body
                |init assign body| |body|init cond post body|];
    try discriminate Hs; simpl.
  - by apply restores_scope.
  - destruct init as [i|]; [| discriminate Hs].
    unfold parseIfStmt, withInit. apply restores_scope. frames_go.
  - destruct init as [i|]; [| discriminate Hs].
    unfold parseSwitchStmt, withInit. apply restores_scope.
    pose proof (fun tv => frames_switchClauses cfg Hcfg (Parse cfg) tv body
                            (Forall_clauseFrames_Parse cfg body Hcfg)) as Hc.
    frames_go.
  - pose proof (fun r tv => frames_typeSwitchClauses cfg Hcfg (Parse cfg)
                              r tv body
                              (Forall_clauseFrames_Parse cfg body Hcfg))
      as Hc.
    unfold parseTypeSwitchStmt, withInit.
    destruct init as [i|]; apply restores_scope.
    + apply frames_bind; [done | intros _]. apply frames_scope.
      destruct assign as [[]|]; frames_go';
        apply (frames_typeSwitchGuard cfg Hcfg); intros tv; frames_go'.
    + destruct assign as [[]|]; frames_go';
        apply (frames_typeSwitchGuard cfg Hcfg); intros tv; frames_go'.
  - by apply restores_selectClauses.
  - unfold parseForStmt. apply restores_scope. frames_go.
Qed.

(** X13. A statement that opens a scope closes it on every exit: after
    [Parse] of a block, a [for], a [select], a type switch, or an [if] or
    [switch] with an init statement, the stack of symbol tables is exactly
    the one before, whether the statement was parsed, an error was returned
    or a panic came up inside; nothing declared in it is left. *)
Theorem scoped_statement_restores_stack cfg s st :
  collaborators_frame cfg ->
  stack.wf (SymbolTable st) ->
  scoped s = true ->
  SymbolTable (snd (Parse cfg s st)) = SymbolTable st.
Proof. intros Hcfg Hw Hs. by apply restores_scoped. Qed.

Lemma scoped_statement_restores_stack_witness :
  collaborators_frame stub.config /\
  stack.wf (SymbolTable scopeWithA) /\
  scoped (ast.BlockStmt [redefineA; ast.ExprStmt (ast.Ident "z" 40)]) = true /\
  SymbolTable
    (snd (Parse stub.config
            (ast.BlockStmt [redefineA; ast.ExprStmt (ast.Ident "z" 40)])
            scopeWithA))
  = SymbolTable scopeWithA.
Proof.
  assert (stack.wf (SymbolTable scopeWithA)) as Hw by (vm_compute; reflexivity).
  split; [exact stub_collaborators_frame |]. split; [exact Hw |].
  split; [reflexivity |].
  exact (scoped_statement_restores_stack stub.config
           (ast.BlockStmt [redefineA; ast.ExprStmt (ast.Ident "z" 40)])
           scopeWithA stub_collaborators_frame Hw eq_refl).
Defined.

Lemma Below_Table s s' level :
  Below s s' -> level < stack.Size s - 1 ->
  stack.Table level s' = stack.Table level s.
Proof.
  intros (Hw & Hs & Ht) Hl. unfold stack.Table, stack.table_at. rewrite Hs.
  destruct (decide (level < 0 \/ stack.Size s - 1 < level)); [done|].
  destruct (decide (0 <= level)); [| lia].
  assert (Z.to_nat level < Z.to_nat (stack.Size s - 1))%nat as Hlt by lia.
  rewrite <- (lookup_take_lt (stack.Tables s') _ _ Hlt).
  rewrite <- (lookup_take_lt (stack.Tables s) _ _ Hlt).
  by rewrite Ht.
Qed.

(** X14. No statement reaches below the innermost scope: after [Parse] of
    any statement, however it ends, also on a panic, the stack has the height
    it had and every level below the innermost one has the table it had,
    provided the collaborators do the same. *)
Theorem Parse_keeps_enclosing_scopes cfg s st :
  collaborators_frame cfg ->
  stack.wf (SymbolTable st) ->
  stack.Size (SymbolTable (snd (Parse cfg s st))) =
  stack.Size (SymbolTable st) /\
  forall level, level < stack.Size (SymbolTable st) - 1 ->
    stack.Table level (SymbolTable (snd (Parse cfg s st))) =
    stack.Table level (SymbolTable st).
Proof.
  intros Hcfg Hw. pose proof (frames_Parse cfg Hcfg s st Hw) as Hb.
  split; [apply Hb |]. intros level Hl. by apply Below_Table.
Qed.

Lemma Parse_keeps_enclosing_scopes_witness :
  collaborators_frame stub.config /\
  stack.wf (SymbolTable scopeWithA) /\
  stack.Size (SymbolTable (snd (Parse stub.config redefineA scopeWithA))) =
  stack.Size (SymbolTable scopeWithA).
Proof.
  assert (stack.wf (SymbolTable scopeWithA)) as Hw by (vm_compute; reflexivity).
  split; [exact stub_collaborators_frame |]. split; [exact Hw |].
  exact (proj1 (Parse_keeps_enclosing_scopes stub.config redefineA scopeWithA
                  stub_collaborators_frame Hw)).
Defined.

(** ** Statements that declare nothing leave the stack alone *)

Lemma stackSame_ret {A} (a : A) : stackSame (ret a).
Proof. done. Qed.

Lemma stackSame_fail {A} e : stackSame (@fail A e).
Proof. done. Qed.

Lemma stackSame_panic {A} msg : stackSame (@panic A msg).
Proof. done. Qed.

Lemma stackSame_bind {A B} (m : M A) (k : A -> M B) :
  stackSame m -> (forall a, stackSame (k a)) -> stackSame (bind m k).
Proof.
  intros Hm Hk st. unfold bind. specialize (Hm st).
  destruct (m st) as [[a|e|p] st1]; simpl in *; try done.
  by rewrite Hk.
Qed.

Lemma stackSame_try {A} (m : M A) : stackSame m -> stackSame (try_ m).
Proof.
  intros Hm st. unfold try_. specialize (Hm st).
  by destruct (m st) as [[a|e|p] st1].
Qed.

Lemma stackSame_wrap_err {A} prefix (m : M A) :
  stackSame m -> stackSame (wrap_err prefix m).
Proof.
  intros Hm. apply stackSame_bind; [by apply stackSame_try |].
  by intros [e|a].
Qed.

Lemma stackSame_index {A} (l : list A) i : stackSame (index l i).
Proof. unfold index. by destruct (l !! i). Qed.

Lemma stackSame_AddContract c : stackSame (AddContract c).
Proof. done. Qed.

Lemma stackSame_LookupVariable name : stackSame (LookupVariable name).
Proof. done. Qed.

Lemma stackSame_restores {A} (m : M A) : stackSame m -> restores m.
Proof. intros H st _. apply H. Qed.

Create HintDb stackSame.

#[export] Hint Resolve stackSame_ret stackSame_fail stackSame_panic
  stackSame_index stackSame_AddContract stackSame_LookupVariable : stackSame.

Ltac stackSame_step :=
  lazymatch goal with
  | |- stackSame (bind _ _) => apply stackSame_bind; [| intros ?]
  | |- stackSame (try_ _) => apply stackSame_try
  | |- stackSame (wrap_err _ _) => apply stackSame_wrap_err
  | |- stackSame (if ?b then _ else _) => destruct b
  | |- stackSame (match ?x with _ => _ end) => destruct x
  | |- stackSame (let _ := _ in _) => cbv zeta
  | |- stackSame _ => solve [eauto with stackSame]
  end.

Ltac stackSame_go := repeat stackSame_step.

Lemma collaborators_read_stack_frame cfg :
  collaborators_read_stack cfg -> collaborators_frame cfg.
Proof.
  intros (He & Ht & Hf).
  split; [| split]; intros x; apply frames_untouched;
    [apply He | apply Ht | apply Hf].
Qed.

Section StackSame.

Context (cfg : Config) (Hcfg : collaborators_read_stack cfg).

Lemma stackSame_ExprParser e : stackSame (ExprParser_Parse cfg e).
Proof. apply Hcfg. Qed.

Lemma stackSame_TypeParser e : stackSame (TypeParser_Parse cfg e).
Proof. apply Hcfg. Qed.

Hint Resolve stackSame_ExprParser stackSame_TypeParser : stackSame.

Lemma stackSame_parseReturnStmt results :
  stackSame (parseReturnStmt cfg results).
Proof. induction results as [|r rest IH]; simpl; stackSame_go. Qed.

Lemma stackSame_rhsIndexer k rhs i : stackSame (rhsIndexer cfg k rhs i).
Proof. unfold rhsIndexer. stackSame_go. Qed.

Lemma stackSame_assignRhsIndexer lhs rhs :
  stackSame (assignRhsIndexer cfg lhs rhs).
Proof. unfold assignRhsIndexer. stackSame_go. Qed.

(** Only [:=] makes [assignLhs] declare. *)
Lemma stackSame_assignLhs tok lhs rhsExpr rhsTypeVar :
  token.is_DEFINE tok = false ->
  stackSame (assignLhs cfg tok lhs rhsExpr rhsTypeVar).
Proof. intros Ht. unfold assignLhs. rewrite Ht. stackSame_go. Qed.

Hint Resolve stackSame_rhsIndexer stackSame_assignRhsIndexer
  stackSame_assignLhs : stackSame.

Lemma stackSame_assignLoop k tok rhs lhs i :
  token.is_DEFINE tok = false ->
  stackSame (assignLoop cfg k tok rhs lhs i).
Proof.
  intros Ht. revert i. induction lhs as [|l rest IH]; intros i; simpl;
    stackSame_go.
Qed.

Lemma stackSame_parseAssignStmt lhs tok rhs :
  token.is_DEFINE tok = false ->
  stackSame (parseAssignStmt cfg lhs tok rhs).
Proof.
  intros Ht. unfold parseAssignStmt.
  pose proof (fun k i => stackSame_assignLoop k tok rhs lhs i Ht) as Hl.
  stackSame_go.
Qed.

Lemma stackSame_switchCaseExprs tv l :
  stackSame (switchCaseExprs cfg tv l).
Proof. induction l as [|e rest IH]; simpl; stackSame_go. Qed.

Lemma restores_parseBody l : restores (parseBody (Parse cfg) l).
Proof.
  unfold parseBody. destruct l as [|s rest]; [apply restores_ret |].
  unfold parseBlockStmt. apply restores_scope.
  apply frames_parseStmtList, Forall_frames_Parse.
  by apply collaborators_read_stack_frame.
Qed.

Lemma restores_switchClauses tv l :
  restores (switchClauses cfg (Parse cfg) tv l).
Proof.
  induction l as [|s rest IH]; simpl; [apply restores_ret |].
  destruct s; try (apply stackSame_restores; apply stackSame_fail).
  apply restores_bind;
    [apply stackSame_restores, stackSame_switchCaseExprs |].
  intros [|]; [apply restores_ret |].
  apply restores_bind; [apply restores_parseBody | done].
Qed.

Lemma restores_not_declaring s :
  declaresHere s = false -> restores (Parse cfg s).
Proof.
  pose proof (collaborators_read_stack_frame cfg Hcfg) as Hf.
  induction s as [s IH] using Stmt_children_ind. intros Hd.
  destruct s as [|decl| |label stmt|x|chan value|x|lhs tok rhs|call|call
                |results| |list_|init cond body else_|pos list_ body
                |init tag body|init assign body|comm body|body
                |init cond post body|key value tok x body];
    try (by apply restores_scoped);
    try (apply stackSame_restores; simpl;
         first [ apply stackSame_panic | apply stackSame_ret
               | by apply stackSame_parseAssignStmt
               | apply stackSame_parseReturnStmt
               | unfold parseExprStmt, parseSendStmt, parseIncDecStmt,
                   parseGoStmt, parseDeferStmt; stackSame_go ]; fail).
  - simpl in *. apply Forall_cons in IH as [IH _]. by apply IH.
  - destruct init as [i|]; [by apply restores_scoped |].
    simpl in *. unfold parseIfStmt, withInit.
    apply restores_bind;
      [apply stackSame_restores, stackSame_ExprParser | intros _].
    apply restores_bind.
    { unfold parseBlockStmt. apply restores_scope.
      by apply frames_parseStmtList, Forall_frames_Parse. }
    intros _. destruct else_ as [e|]; [| apply restores_ret].
    rewrite Forall_app in IH. destruct IH as [_ IH].
    apply Forall_cons in IH as [IH _]. by apply IH.
  - destruct init as [i|]; [by apply restores_scoped |].
    simpl. unfold parseSwitchStmt, withInit.
    apply restores_bind; [| intros tv; apply restores_switchClauses].
    apply stackSame_restores. stackSame_go.
  - simpl. unfold parseRangeStmt.
    apply restores_bind;
      [apply stackSame_restores, stackSame_ExprParser | intros attr].
    apply restores_scope.
    pose proof (frames_rangeBindings cfg Hf) as Hr.
    pose proof (fun l => frames_parseBlockStmt (Parse cfg) l
                           (Forall_frames_Parse cfg l Hf)) as Hb.
    frames_go.
Qed.

End StackSame.

(** X15. Only declarations and [:=] declare in the scope they stand in:
    after [Parse] of any other statement (an expression, send, increment,
    [go], [defer], [return] or branch statement, an assignment with [=], any
    statement with a scope of its own, [if], [switch] and [range]) the stack
    of symbol tables is exactly the one before, however the statement ends,
    provided the collaborators only read the stack. *)
Theorem only_declarations_declare cfg s st :
  collaborators_read_stack cfg ->
  stack.wf (SymbolTable st) ->
  declaresHere s = false ->
  SymbolTable (snd (Parse cfg s st)) = SymbolTable st.
Proof. intros Hcfg Hw Hd. by apply restores_not_declaring. Qed.

Lemma stub_collaborators_read_stack : collaborators_read_stack stub.config.
Proof.
  split; [| split]; intros x st; simpl.
  - by rewrite stub_ExprParser_untouched.
  - by rewrite stub_TypeParser_untouched.
  - done.
Qed.

Lemma only_declarations_declare_witness :
  collaborators_read_stack stub.config /\
  stack.wf (SymbolTable scopeWithA) /\
  declaresHere
    (ast.IfStmt None (ast.Ident "a" 1) [declareA "2"]
                (Some (ast.BlockStmt [redefineA]))) = false /\
  SymbolTable
    (snd (Parse stub.config
            (ast.IfStmt None (ast.Ident "a" 1) [declareA "2"]
                        (Some (ast.BlockStmt [redefineA])))
            scopeWithA))
  = SymbolTable scopeWithA.
Proof.
  assert (stack.wf (SymbolTable scopeWithA)) as Hw by (vm_compute; reflexivity).
  split; [exact stub_collaborators_read_stack |]. split; [exact Hw |].
  split; [reflexivity |].
  exact (only_declarations_declare stub.config
           (ast.IfStmt None (ast.Ident "a" 1) [declareA "2"]
                       (Some (ast.BlockStmt [redefineA])))
           scopeWithA stub_collaborators_read_stack Hw eq_refl).
Defined.

(** ** Errors that are dropped *)

Lemma noErr_ret {A} (a : A) : noErr (ret a).
Proof. done. Qed.

Lemma noErr_bind {A B} (m : M A) (k : A -> M B) :
  noErr m -> (forall a, noErr (k a)) -> noErr (bind m k).
Proof.
  intros Hm Hk st. unfold bind. specialize (Hm st).
  destruct (m st) as [[a|e|p] st1]; simpl in *; [apply Hk | done | done].
Qed.

Lemma noErr_try {A} (m : M A) : noErr (try_ m).
Proof. intros st. unfold try_. by destruct (m st) as [[a|e|p] st1]. Qed.


Lemma noErr_defer {A} (d : M unit) (m : M A) : noErr m -> noErr (defer_ d m).
Proof.
  intros Hm st. unfold defer_. specialize (Hm st).
  destruct (m st) as [r st1]. by destruct (d st1) as [[[]|e|p] st2].
Qed.

Lemma noErr_index {A} (l : list A) i : noErr (index l i).
Proof. unfold index. by destruct (l !! i). Qed.

Lemma noErr_Push : noErr Push.
Proof. done. Qed.

Lemma noErr_typeSwitchClauses cfg P rhsIdentifier tv l :
  Forall isCaseClause l ->
  noErr (typeSwitchClauses cfg P rhsIdentifier tv l).
Proof.
  induction 1 as [|s rest Hs Hrest IH]; simpl; [apply noErr_ret |].
  destruct s; try done.
  apply noErr_bind; [apply noErr_try |].
  intros [e|[]]; [apply noErr_ret | apply IH].
Qed.

Lemma noErr_typeSwitchGuard cfg x k :
  (forall tv, noErr (k tv)) -> noErr (typeSwitchGuard cfg x k).
Proof.
  intros Hk. unfold typeSwitchGuard.
  apply noErr_bind; [apply noErr_try |].
  intros [e|attr]; [apply noErr_ret |].
  apply noErr_bind; [apply noErr_index | done].
Qed.

(** X16. A type switch drops the errors of its guard and of its clauses:
    for a guard [x.(type)] or [v := x.(type)] and a body of case clauses,
    [Parse] never returns an error, whatever the expression parser answers
    for [x], the type parser for the types of the cases, and whatever the
    statements of the clauses do; it returns [nil] or panics. *)
Theorem type_switch_drops_errors cfg x ty v pos tok body st :
  Forall isCaseClause body ->
  is_Err (fst (Parse cfg
                 (ast.TypeSwitchStmt None
                    (Some (ast.ExprStmt (ast.TypeAssertExpr x ty))) body)
                 st)) = false /\
  is_Err (fst (Parse cfg
                 (ast.TypeSwitchStmt None
                    (Some (ast.AssignStmt [ast.Ident v pos] tok
                                          [ast.TypeAssertExpr x ty])) body)
                 st)) = false.
Proof.
  intros Hb. split.
  - revert st. change (noErr (Parse cfg
      (ast.TypeSwitchStmt None
         (Some (ast.ExprStmt (ast.TypeAssertExpr x ty))) body))).
    simpl. unfold parseTypeSwitchStmt, withInit.
    apply noErr_bind; [apply noErr_Push | intros _].
    apply noErr_defer, noErr_typeSwitchGuard. intros tv.
    by apply noErr_typeSwitchClauses.
  - revert st. change (noErr (Parse cfg
      (ast.TypeSwitchStmt None
         (Some (ast.AssignStmt [ast.Ident v pos] tok
                               [ast.TypeAssertExpr x ty])) body))).
    simpl. unfold parseTypeSwitchStmt, withInit.
    apply noErr_bind; [apply noErr_Push | intros _]. apply noErr_defer.
    apply noErr_bind; [apply noErr_Push | intros _]. apply noErr_defer.
    destruct (decide (len [ast.Ident v pos] ≠ 1)) as [Hn|_]; [done|].
    destruct (decide (len [ast.TypeAssertExpr x ty] ≠ 1)) as [Hn|_]; [done|].
    change (noErr (typeSwitchGuard cfg x (fun typeTypeVar =>
      let* lhs0 := index [ast.Ident v pos] 0 in
      match lhs0 with
      | ast.Ident name _ =>
          typeSwitchClauses cfg (Parse cfg)
            (if bool_decide (name = "_") then None else Some name)
            typeTypeVar body
      | _ => fail (Errorf
          "Expecting identifier on the RHS of the type switch assigment")
      end))).
    apply noErr_typeSwitchGuard. intros tv.
    unfold index. simpl. unfold bind, ret.
    intros st. by apply noErr_typeSwitchClauses.
Qed.

Lemma type_switch_drops_errors_witness :
  Forall isCaseClause [clauseUsingUndeclared] /\
  fst (Parse stub.config (ast.ExprStmt (ast.Ident "z" 40)) scopeWithA)
    = Err (Errorf "Symbol not found") /\
  is_Err (fst (Parse stub.config
                 (ast.TypeSwitchStmt None
                    (Some (ast.ExprStmt
                             (ast.TypeAssertExpr (ast.Ident "a" 1)
                                                 ast.NilExpr)))
                    [clauseUsingUndeclared])
                 scopeWithA)) = false.
Proof.
  assert (Forall isCaseClause [clauseUsingUndeclared]) as Hb
    by (repeat constructor).
  split; [exact Hb |]. split; [vm_compute; reflexivity |].
  exact (proj1 (type_switch_drops_errors stub.config (ast.Ident "a" 1)
                  ast.NilExpr "v" 0 token.DEFINE [clauseUsingUndeclared]
                  scopeWithA Hb)).
Defined.



Lemma ParseValueSpec_symbols_are_names_witness :
  ParseValueSpec stub.config blankNames ast.NilExpr threeValues
                 stub.bodyState
  = (Ok (resultOr [] (ParseValueSpec stub.config blankNames ast.NilExpr
                                     threeValues) stub.bodyState),
     stub.exec (ParseValueSpec stub.config blankNames ast.NilExpr threeValues)
               stub.bodyState) /\
  map symbolKey
      (resultOr [] (ParseValueSpec stub.config blankNames ast.NilExpr
                                   threeValues) stub.bodyState)
  = [("a", "main.go:5"); ("b", "main.go:11")].
Proof.
  assert (ParseValueSpec stub.config blankNames ast.NilExpr threeValues
                         stub.bodyState
          = (Ok (resultOr [] (ParseValueSpec stub.config blankNames
                                ast.NilExpr threeValues) stub.bodyState),
             stub.exec (ParseValueSpec stub.config blankNames ast.NilExpr
                                       threeValues) stub.bodyState)) as H
    by (vm_compute; reflexivity).
  split; [exact H |].
  exact (proj1 (ParseValueSpec_symbols_are_names _ _ _ _ _ _ _ H)).
Defined.

Lemma ParseValueSpec_names_cover_values_witness :
  ParseValueSpec stub.config blankNames (ast.Ident "int" 14) []
                 stub.bodyState
  = (Ok (resultOr [] (ParseValueSpec stub.config blankNames
                        (ast.Ident "int" 14) []) stub.bodyState),
     stub.exec (ParseValueSpec stub.config blankNames (ast.Ident "int" 14) [])
               stub.bodyState) /\
  len ([] : list ast.Expr) <= len blankNames.
Proof.
  assert (ParseValueSpec stub.config blankNames (ast.Ident "int" 14) []
                         stub.bodyState
          = (Ok (resultOr [] (ParseValueSpec stub.config blankNames
                                (ast.Ident "int" 14) []) stub.bodyState),
             stub.exec (ParseValueSpec stub.config blankNames
                          (ast.Ident "int" 14) []) stub.bodyState)) as H
    by (vm_compute; reflexivity).
  split; [exact H |].
  exact (ParseValueSpec_names_cover_values _ _ _ _ _ _ _ H).
Defined.

(** ** Receivers *)

Lemma parseReceiver_result cfg e skip st :
  fst (parseReceiver cfg e skip st) =
    match receiverOf cfg e with
    | Some (name, d) =>
        match stack.Lookup name (SymbolTable st) with
        | Ok _ => Ok d
        | Err err => Err err
        | Panic p => Panic p
        end
    | None =>
        Err (Errorf
               match e with
               | ast.StarExpr _ =>
                   "Method receiver is not a pointer to an identifier"
               | _ =>
                   "Method receiver is not a pointer to an identifier not an identifier"
               end)
    end /\
  (skip = true -> snd (parseReceiver cfg e skip st) = st) /\
  SymbolTable (snd (parseReceiver cfg e skip st)) = SymbolTable st /\
  ContractTable (snd (parseReceiver cfg e skip st)) = ContractTable st /\
  lastConstType (snd (parseReceiver cfg e skip st)) = lastConstType st.
Proof.
  destruct e as [|name pos|x|x sel|x|x i|f args|x t|op x|x op y|k v|t elts];
    simpl; try done;
    try (destruct x; simpl; try done);
    unfold bind, Lookup, readStack; simpl;
    destruct (stack.Lookup _ (SymbolTable st)) as [[d k']|err|p]; simpl;
    try done; destruct skip; done.
Qed.

(** X18. [parseReceiver] accepts the forms [T] and [*T] only, without
    parentheses, and only when the stack knows [T]: the result for them is
    that of the lookup of [T], turned on success into the identifier of [T]
    in the current package (behind a pointer for [*T]); every other
    expression is an error.  The flag [skip_allocated] has no influence on
    the result: with it the whole state is left as it is, without it only
    the table of allocated symbols may change. *)
Theorem parseReceiver_forms cfg e skip st :
  fst (parseReceiver cfg e skip st) =
    match receiverOf cfg e with
    | Some (name, d) =>
        match stack.Lookup name (SymbolTable st) with
        | Ok _ => Ok d
        | Err err => Err err
        | Panic p => Panic p
        end
    | None =>
        Err (Errorf
               match e with
               | ast.StarExpr _ =>
                   "Method receiver is not a pointer to an identifier"
               | _ =>
                   "Method receiver is not a pointer to an identifier not an identifier"
               end)
    end /\
  (skip = true -> snd (parseReceiver cfg e skip st) = st) /\
  SymbolTable (snd (parseReceiver cfg e skip st)) = SymbolTable st /\
  ContractTable (snd (parseReceiver cfg e skip st)) = ContractTable st /\
  lastConstType (snd (parseReceiver cfg e skip st)) = lastConstType st.
Proof. apply parseReceiver_result. Qed.

Lemma parseReceiver_forms_witness :
  true = true /\
  snd (parseReceiver stub.config (ast.StarExpr (ast.Ident "T" 9)) true
                     fileWithT) = fileWithT.
Proof.
  split; [reflexivity |].
  exact (proj1 (proj2 (parseReceiver_forms stub.config
                         (ast.StarExpr (ast.Ident "T" 9)) true fileWithT))
               eq_refl).
Defined.

(** X19. What [ParseFuncDecl] returns: for a function, the data type the
    type parser gives for its signature; for a method, that data type
    wrapped together with the receiver [T] or [*T] of the current package,
    and then the declaration has exactly one receiver field, with at most
    two names, of a type the stack knows.  The stack of symbol tables is
    left as the type parser leaves it. *)
Theorem ParseFuncDecl_result cfg funcType d st r st' :
  ParseFuncDecl cfg funcType d st = (Ok r, st') ->
  exists funcDef st0,
    TypeParser_Parse cfg funcType st = (Ok funcDef, st0) /\
    SymbolTable st' = SymbolTable st0 /\
    match ast.Recv d with
    | None => r = funcDef /\ st' = st0
    | Some list_ =>
        exists field name recDef,
          list_ = [field] /\
          len (ast.Names field) <= 2 /\
          receiverOf cfg (ast.Type_ field) = Some (name, recDef) /\
          is_Ok (stack.Lookup name (SymbolTable st0)) = true /\
          r = gotypes.Method recDef funcDef
    end.
Proof.
  unfold ParseFuncDecl. intros H.
  apply bind_Ok in H as (funcDef & st0 & Ht & H).
  exists funcDef, st0. split; [done|].
  destruct (ast.Recv d) as [list_|].
  - destruct (decide (len list_ ≠ 1)) as [|Hl];
      [by destruct (ast.FuncName d) |].
    apply bind_Ok in H as (field & st1 & Hi & H).
    apply index_Ok in Hi as [Hi ->].
    destruct (decide (len (ast.Names field) > 2)) as [|Hn]; [done|].
    apply bind_Ok in H as (recDef & st2 & Hr & H).
    injection H as <- <-.
    pose proof (parseReceiver_result cfg (ast.Type_ field) false st0)
      as (Hres & _ & Hs & _).
    rewrite Hr in Hres, Hs. simpl in Hres, Hs. split; [done|].
    destruct (receiverOf cfg (ast.Type_ field)) as [[name d']|] eqn:Hrec;
      [| done].
    exists field, name, recDef.
    destruct list_ as [|f [|f' rest]]; unfold len in Hl; simpl in Hl;
      try lia.
    simpl in Hi. injection Hi as ->.
    destruct (stack.Lookup name (SymbolTable st0)); try done.
    injection Hres as ->. repeat split; [lia | done].
  - by injection H as <- <-.
Qed.

Lemma ParseFuncDecl_result_witness :
  ParseFuncDecl stub.config (ast.Ident "F" 1) methodOfT fileWithT
  = (Ok (gotypes.Method
           (gotypes.Pointer (gotypes.Identifier "T" "main"))
           (gotypes.Identifier "F" "main")),
     stub.exec (ParseFuncDecl stub.config (ast.Ident "F" 1) methodOfT)
               fileWithT) /\
  exists funcDef st0,
    TypeParser_Parse stub.config (ast.Ident "F" 1) fileWithT
      = (Ok funcDef, st0) /\
    SymbolTable (stub.exec (ParseFuncDecl stub.config (ast.Ident "F" 1)
                                          methodOfT) fileWithT)
      = SymbolTable st0 /\
    match ast.Recv methodOfT with
    | None =>
        gotypes.Method (gotypes.Pointer (gotypes.Identifier "T" "main"))
                       (gotypes.Identifier "F" "main") = funcDef /\
        stub.exec (ParseFuncDecl stub.config (ast.Ident "F" 1) methodOfT)
                  fileWithT = st0
    | Some list_ =>
        exists field name recDef,
          list_ = [field] /\
          len (ast.Names field) <= 2 /\
          receiverOf stub.config (ast.Type_ field) = Some (name, recDef) /\
          is_Ok (stack.Lookup name (SymbolTable st0)) = true /\
          gotypes.Method (gotypes.Pointer (gotypes.Identifier "T" "main"))
                         (gotypes.Identifier "F" "main")
          = gotypes.Method recDef funcDef
    end.
Proof.
  assert (ParseFuncDecl stub.config (ast.Ident "F" 1) methodOfT fileWithT
          = (Ok (gotypes.Method
                   (gotypes.Pointer (gotypes.Identifier "T" "main"))
                   (gotypes.Identifier "F" "main")),
             stub.exec (ParseFuncDecl stub.config (ast.Ident "F" 1)
                                      methodOfT) fileWithT)) as H
    by (vm_compute; reflexivity).
  split; [exact H |].
  exact (ParseFuncDecl_result _ _ _ _ _ _ H).
Defined.

(** ** The variables of a function header *)

Lemma headFieldNames_Ok cfg def names acc st :
  exists st',
    headFieldNames cfg def names acc st
    = (Ok (acc ++ map (fun n => headerSymbol cfg n def) names)%list, st') /\
    SymbolTable st' = SymbolTable st.
Proof.
  revert acc st. induction names as [|n rest IH]; intros acc st; simpl.
  - exists st. by rewrite app_nil_r.
  - unfold bind at 1. simpl.
    destruct (IH (acc ++ [headerSymbol cfg n def])%list
                 (set_ContractTable
                    (contracts.AddContract
                       (contracts.PropagatesTo
                          (typevars.MakeConstant (PackageName cfg) def)
                          (typevars.VariableFromSymbolDef
                             (headerSymbol cfg n def))
                          (Some def))
                       (ContractTable st)) st)) as (st' & -> & Hs).
    exists st'. by rewrite <- app_assoc.
Qed.

Lemma wrap_err_Ok {A} prefix (m : M A) st a st' :
  wrap_err prefix m st = (Ok a, st') -> m st = (Ok a, st').
Proof.
  unfold wrap_err, bind, try_.
  by destruct (m st) as [[a'|e|p] st1].
Qed.

Lemma headFields_Ok cfg prefix fields acc st syms st' :
  (forall e, stackSame (TypeParser_Parse cfg e)) ->
  headFields cfg prefix fields acc st = (Ok syms, st') ->
  SymbolTable st' = SymbolTable st /\
  exists groups,
    Forall2 (parsedAgainst cfg (SymbolTable st)) fields groups /\
    syms = (acc ++ concat groups)%list.
Proof.
  intros Ht. revert acc st.
  induction fields as [|f rest IH]; intros acc st; simpl.
  - intros [= <- <-]. split; [done|]. exists []. split; [constructor |].
    simpl. by rewrite app_nil_r.
  - intros H. apply bind_Ok in H as (def & st1 & Hd & H).
    apply bind_Ok in H as (syms1 & st2 & Hn & H).
    destruct (headFieldNames_Ok cfg def (ast.Names f) acc st1)
      as (st2' & Hn' & Hs2).
    rewrite Hn' in Hn. injection Hn as <- <-.
    apply wrap_err_Ok in Hd.
    assert (SymbolTable st1 = SymbolTable st) as Hs1.
    { pose proof (Ht (ast.Type_ f) st) as Hw. by rewrite Hd in Hw. }
    apply IH in H as (Hs & groups & Hf & ->).
    split; [congruence |].
    exists (map (fun n => headerSymbol cfg n def) (ast.Names f) :: groups).
    split.
    + constructor.
      * by exists def, st, st1.
      * rewrite Hs2, Hs1 in Hf. exact Hf.
    + simpl. by rewrite <- app_assoc.
Qed.

Lemma parsedAgainst_names cfg s fields groups :
  Forall2 (parsedAgainst cfg s) fields groups ->
  map gotypes.Name (concat groups) = fieldNames fields /\
  Forall (fun sym => gotypes.Package sym = "") (concat groups).
Proof.
  induction 1 as [|f g fields groups (d & st_f & st_f' & _ & _ & ->) _ IH];
    simpl.
  - split; [done | constructor].
  - destruct IH as [IH1 IH2]. split.
    + rewrite map_app, map_map, IH1. done.
    + apply Forall_app. split; [| done].
      apply Forall_forall. intros sym Hs.
      by apply list_elem_of_fmap_1 in Hs as (n & -> & _).
Qed.

Lemma addHeadVariables_Ok syms st st' :
  addHeadVariables syms st = (Ok tt, st') ->
  st' = set_SymbolTable
          (declareAll (map DeclVariable syms) (SymbolTable st)) st.
Proof.
  revert st. induction syms as [|s rest IH]; intros st; simpl.
  - intros [= <-]. by rewrite set_SymbolTable_same.
  - intros H. apply bind_Ok in H as ([] & st1 & Ha & H).
    apply IH in H. subst st'.
    revert Ha. unfold ignore_err, bind, try_, AddVariable, liftStack, ret.
    destruct (stack.AddVariable s (SymbolTable st)) as [[[]|e|p] s'];
      simpl; intros [= <-]; by destruct st.
Qed.

Lemma defer_Unlock_Ok {A} (m : M A) st a st' :
  defer_ Unlock m st = (Ok a, st') ->
  exists st1, m st = (Ok a, st1) /\ st' = snd (Unlock st1).
Proof.
  unfold defer_. destruct (m st) as [r st1]. simpl.
  intros [= -> <-]. by exists st1.
Qed.

(** X20. The parameters and results of a function are declared only once
    all their types are parsed, so that no parameter name hides a package or
    type name used in the signature: for a function without receiver that
    [parseFuncHeadVariables] accepts, with a type parser that only reads the
    stack, the type of every parameter and result field was parsed against
    the stack as it was at the call, which holds none of the names (lines
    1430-1467), and the final stack is that initial stack with the symbols
    of the fields declared in the innermost scope (lines 1470-1472), the
    parameters first and the results after them, in order, each under its
    name with the type so parsed and an empty package (a name declared twice
    keeps its first declaration). *)
Theorem header_variables_declared_at_the_end cfg funcDecl st st' :
  (forall e, stackSame (TypeParser_Parse cfg e)) ->
  ast.Recv funcDecl = None ->
  parseFuncHeadVariables cfg funcDecl st = (Ok tt, st') ->
  exists groups,
    Forall2 (parsedAgainst cfg (SymbolTable st))
            (default [] (ast.Params funcDecl) ++
             default [] (ast.Results funcDecl))%list
            groups /\
    map gotypes.Name (concat groups) =
      (fieldNames (default [] (ast.Params funcDecl)) ++
       fieldNames (default [] (ast.Results funcDecl)))%list /\
    Forall (fun s => gotypes.Package s = "") (concat groups) /\
    SymbolTable st' =
      declareAll (map DeclVariable (concat groups)) (SymbolTable st).
Proof.
  intros Ht Hr H. unfold parseFuncHeadVariables, headReceiver in H.
  rewrite Hr in H.
  apply bind_Ok in H as ([] & st0 & Hl & H). injection Hl as <-.
  apply defer_Unlock_Ok in H as (st1 & H & ->).
  apply bind_Ok in H as ([] & st2 & Hret & H). injection Hret as <-.
  apply bind_Ok in H as (syms1 & st3 & Hp & H).
  apply bind_Ok in H as (syms2 & st4 & Hres & H).
  apply addHeadVariables_Ok in H. subst st1.
  assert (SymbolTable st3 = SymbolTable st /\
          exists g1,
            Forall2 (parsedAgainst cfg (SymbolTable st))
                    (default [] (ast.Params funcDecl)) g1 /\
            syms1 = concat g1) as (Hs3 & g1 & Hf1 & ->).
  { unfold headOptFields in Hp. destruct (ast.Params funcDecl) as [l|].
    - apply headFields_Ok in Hp as (Hs & g & Hf & ->); [| done].
      split; [done |]. by exists g.
    - injection Hp as <- <-. split; [done |]. exists []. by split. }
  assert (SymbolTable st4 = SymbolTable st /\
          exists g2,
            Forall2 (parsedAgainst cfg (SymbolTable st))
                    (default [] (ast.Results funcDecl)) g2 /\
            syms2 = (concat g1 ++ concat g2)%list)
    as (Hs4 & g2 & Hf2 & ->).
  { unfold headOptFields in Hres. destruct (ast.Results funcDecl) as [l|].
    - apply headFields_Ok in Hres as (Hs & g & Hf & ->); [| done].
      split; [congruence |]. exists g. rewrite Hs3 in Hf. by split.
    - injection Hres as <- <-. split; [done |]. exists []. split; [done |].
      simpl. by rewrite app_nil_r. }
  exists (g1 ++ g2)%list.
  assert (Forall2 (parsedAgainst cfg (SymbolTable st))
                  (default [] (ast.Params funcDecl) ++
                   default [] (ast.Results funcDecl))%list
                  (g1 ++ g2)%list) as Hf by (by apply Forall2_app).
  destruct (parsedAgainst_names _ _ _ _ Hf) as [Hn Hk].
  split; [done |]. split.
  { rewrite Hn. unfold fieldNames. by rewrite map_app, concat_app. }
  split; [done |].
  simpl. by rewrite Hs4, concat_app.
Qed.

(** ** Range over a type that cannot be iterated *)

Lemma bind_Ok_eq {A B} (m : M A) (k : A -> M B) st a st1 :
  m st = (Ok a, st1) -> bind m k st = k a st1.
Proof. intros H. unfold bind. by rewrite H. Qed.

Lemma index_cons_Ok {A} (l : list A) a rest st :
  l = a :: rest -> index l 0 st = (Ok a, st).
Proof. by intros ->. Qed.

(** X21. A range over a data type [parseRangeStmt] does not know panics:
    when the iteration expression parses and its data type, with at most
    one pointer removed, resolves to anything but an array, slice, builtin,
    identifier, map, channel or ellipsis (a function or a struct, say),
    [Parse] of the range statement panics; the [IsRangeable] contract has
    been emitted by then. *)
Theorem range_over_unknown_type_panics
    cfg key value tok x body st attr st1 xTV tvs d0 ds r st2 :
  ExprParser_Parse cfg x st = (Ok attr, st1) ->
  TypeVarList attr = xTV :: tvs ->
  DataTypeList attr = d0 :: ds ->
  FindFirstNonidDataType cfg (rangeStripPointer d0)
    (snd (AddContract (contracts.IsRangeable xTV) (snd (Push st1))))
  = (Ok r, st2) ->
  rangeable r = false ->
  is_Panic (fst (Parse cfg (ast.RangeStmt key value tok x body) st)) = true /\
  contracts.IsRangeable xTV ∈
    contracts.Contracts
      (ContractTable
         (snd (AddContract (contracts.IsRangeable xTV) (snd (Push st1))))).
Proof.
  intros Hx Htv Hd Hf Hr. split.
  - assert (forall s, rangeKeyValue r s
                      = (Panic "Unknown type of range expression", s)) as Hp.
    { intros s. by destruct r. }
    assert (rangeBindings cfg key value tok attr (snd (Push st1))
            = (Panic "Unknown type of range expression", st2)) as Hb.
    { unfold rangeBindings.
      rewrite (bind_Ok_eq _ _ _ _ _ (index_cons_Ok _ _ _ _ Htv)).
      rewrite (bind_Ok_eq (AddContract (contracts.IsRangeable xTV)) _ _ tt
                 (snd (AddContract (contracts.IsRangeable xTV)
                                   (snd (Push st1)))) eq_refl).
      rewrite (bind_Ok_eq _ _ _ _ _ (index_cons_Ok _ _ _ _ Hd)).
      rewrite (bind_Ok_eq _ _ _ _ _ Hf).
      unfold bind. by rewrite Hp. }
    simpl. unfold parseRangeStmt.
    rewrite (bind_Ok_eq _ _ _ _ _ Hx).
    rewrite (bind_Ok_eq Push _ st1 tt (snd (Push st1)) eq_refl).
    unfold defer_, bind. rewrite Hb.
    by destruct (Pop st2) as [[[]|e|p] st3].
  - simpl. apply elem_of_app. right. apply list_elem_of_here.
Qed.

Lemma range_over_unknown_type_panics_witness :
  ExprParser_Parse stub.config (ast.Ident "fn" 50) scopeWithFn
  = (Ok (mkExprAttr [gotypes.Function [] [] false]
                    [typevars.Variable_ "main" "fn" "main.go:3"]),
     scopeWithFn) /\
  is_Panic (fst (Parse stub.config
                   (ast.RangeStmt (ast.Ident "i" 40) ast.NilExpr token.DEFINE
                                  (ast.Ident "fn" 50) [])
                   scopeWithFn)) = true.
Proof.
  assert (ExprParser_Parse stub.config (ast.Ident "fn" 50) scopeWithFn
          = (Ok (mkExprAttr [gotypes.Function [] [] false]
                            [typevars.Variable_ "main" "fn" "main.go:3"]),
             scopeWithFn)) as Hx by (vm_compute; reflexivity).
  split; [exact Hx |].
  exact (proj1 (range_over_unknown_type_panics stub.config
                  (ast.Ident "i" 40) ast.NilExpr token.DEFINE
                  (ast.Ident "fn" 50) [] scopeWithFn _ scopeWithFn
                  (typevars.Variable_ "main" "fn" "main.go:3") []
                  (gotypes.Function [] [] false) []
                  (gotypes.Function [] [] false) _
                  Hx eq_refl eq_refl eq_refl eq_refl)).
Defined.

(** ** The value specs of a file *)

Lemma elem_of_valueSpecsOf s specs :
  s ∈ valueSpecsOf specs <->
  s ∈ specs /\ exists names type_ values, s = ast.ValueSpec names type_ values.
Proof.
  induction specs as [|x rest IH]; simpl.
  - split; [by intros ?%elem_of_nil | by intros [?%elem_of_nil _]].
  - destruct x as [|names type_ values|name type_].
    + rewrite IH, elem_of_cons. split.
      * intros [H1 H2]. split; [by right | done].
      * intros [[->|H1] H2]; [by destruct H2 as (? & ? & ? & ?) | done].
    + rewrite !elem_of_cons, IH. split.
      * intros [->|[H1 H2]]; [split; [by left | by eexists _, _, _] |].
        split; [by right | done].
      * intros [[->|H1] H2]; [by left | by right].
    + rewrite IH, elem_of_cons. split.
      * intros [H1 H2]. split; [by right | done].
      * intros [[->|H1] H2]; [by destruct H2 as (? & ? & ? & ?) | done].
Qed.

(** X22. [iterVar] returns the value specs of the general declarations of
    the file and nothing else, in the order of the file: a spec is returned
    exactly when it is a value spec of some general declaration, and the
    specs of a file made of two parts are those of the first part followed
    by those of the second. *)
Theorem iterVar_value_specs :
  (forall decls s,
     s ∈ iterVar decls <->
     exists specs names type_ values,
       ast.GenDecl specs ∈ decls /\ s ∈ specs /\
       s = ast.ValueSpec names type_ values) /\
  (forall decls1 decls2,
     iterVar (decls1 ++ decls2) = (iterVar decls1 ++ iterVar decls2)%list).
Proof.
  split.
  - intros decls s. induction decls as [|d rest IH]; simpl.
    + split; [by intros ?%elem_of_nil |].
      by intros (? & ? & ? & ? & ?%elem_of_nil & _).
    + destruct d as [|specs|].
      * rewrite IH. split.
        -- intros (specs & n & t & v & H1 & H2).
           exists specs, n, t, v. split; [by right | done].
        -- intros (specs & n & t & v & H1 & H2).
           apply elem_of_cons in H1 as [H1|H1]; [done |].
           by exists specs, n, t, v.
      * rewrite elem_of_app, elem_of_valueSpecsOf, IH. split.
        -- intros [[H1 (n & t & v & H2)]|(specs' & n & t & v & H1 & H2)].
           ++ exists specs, n, t, v. split; [by left | done].
           ++ exists specs', n, t, v. split; [by right | done].
        -- intros (specs' & n & t & v & H1 & H2 & H3).
           apply elem_of_cons in H1 as [H1|H1].
           ++ injection H1 as ->. left. split; [done | by exists n, t, v].
           ++ right. by exists specs', n, t, v.
      * rewrite IH. split.
        -- intros (specs & n & t & v & H1 & H2).
           exists specs, n, t, v. split; [by right | done].
        -- intros (specs & n & t & v & H1 & H2).
           apply elem_of_cons in H1 as [H1|H1]; [done |].
           by exists specs, n, t, v.
  - intros decls1 decls2. induction decls1 as [|d rest IH]; simpl; [done|].
    destruct d; [done | by rewrite IH, app_assoc | done].
Qed.

Lemma iterVar_value_specs_witness :
  ast.ValueSpec [ast.mkIdent "a" 40; ast.mkIdent "b" 43]
                (ast.Ident "int" 45) [] ∈ iterVar fileDecls.
Proof.
  apply (proj2 (proj1 iterVar_value_specs fileDecls _)).
  exists [ast.TypeSpec (ast.mkIdent "T" 30) (ast.Ident "int" 32);
          ast.ValueSpec [ast.mkIdent "a" 40; ast.mkIdent "b" 43]
                        (ast.Ident "int" 45) []],
         [ast.mkIdent "a" 40; ast.mkIdent "b" 43], (ast.Ident "int" 45), [].
  split; [| split; [| reflexivity]].
  - unfold fileDecls. do 3 apply list_elem_of_further. apply list_elem_of_here.
  - apply list_elem_of_further, list_elem_of_here.
Defined.

(** ** The blank identifier *)

Lemma untouched_panic {A} msg : untouched (@panic A msg).
Proof. done. Qed.

Lemma untouched_index {A} (l : list A) i : untouched (index l i).
Proof. unfold index. by destruct (l !! i). Qed.

Lemma untouched_try {A} (m : M A) : untouched m -> untouched (try_ m).
Proof.
  intros Hm st. unfold try_. specialize (Hm st).
  by destruct (m st) as [[a|e|p] st1].
Qed.

Lemma untouched_wrap_err {A} prefix (m : M A) :
  untouched m -> untouched (wrap_err prefix m).
Proof.
  intros Hm. apply untouched_bind; [by apply untouched_try |].
  by intros [e|a].
Qed.

Lemma untouched_getLastConstType : untouched getLastConstType.
Proof. done. Qed.

Ltac silent_go :=
  repeat lazymatch goal with
    | |- untouched (bind _ _) => apply untouched_bind; [| intros ?]
    | |- untouched (ret _) => apply untouched_ret
    | |- untouched (fail _) => apply untouched_fail
    | |- untouched (panic _) => apply untouched_panic
    | |- untouched (index _ _) => apply untouched_index
    | |- untouched (try_ _) => apply untouched_try
    | |- untouched (wrap_err _ _) => apply untouched_wrap_err
    | |- untouched getLastConstType => apply untouched_getLastConstType
    | |- untouched (if ?b then _ else _) => destruct b
    | |- untouched (match ?x with _ => _ end) => destruct x
    | |- untouched (let _ := _ in _) => cbv zeta
    | |- untouched _ => solve [auto]
    end.

Section Blank.

Context (cfg : Config) (Hcfg : collaborators_untouched cfg).

Lemma untouched_ExprParser e : untouched (ExprParser_Parse cfg e).
Proof. apply Hcfg. Qed.

Lemma untouched_TypeParser e : untouched (TypeParser_Parse cfg e).
Proof. apply Hcfg. Qed.

Lemma untouched_assignLoop_blank tok rhs lhs i :
  Forall (fun l => isBlank l = true) lhs ->
  untouched (assignLoop cfg GeneralIndexer tok rhs lhs i).
Proof.
  pose proof untouched_ExprParser as He.
  intros Hb. revert i. induction Hb as [|l rest Hl Hrest IH]; intros i; simpl.
  - apply untouched_ret.
  - apply untouched_bind; [unfold rhsIndexer; silent_go | intros r].
    unfold assignLhs. unfold isBlank in Hl.
    destruct (stripParens l); try discriminate Hl.
    rewrite Hl. apply untouched_bind; [apply untouched_ret |].
    intros []; [apply untouched_ret | apply IH].
Qed.

Lemma untouched_valueSpecTuple_blank typeDef attr names i acc :
  Forall (fun n => ast.Name n = "_") names ->
  untouched (valueSpecTuple cfg typeDef attr names i acc).
Proof.
  intros Hb. revert i acc.
  induction Hb as [|n rest Hn Hrest IH]; intros i acc; simpl.
  - apply untouched_ret.
  - rewrite bool_decide_eq_true_2 by done. apply IH.
Qed.

Lemma untouched_valueSpecEach_blank typeDef names values i acc :
  Forall (fun n => ast.Name n = "_") names ->
  untouched (valueSpecEach cfg typeDef names values i acc).
Proof.
  pose proof untouched_ExprParser as He.
  intros Hb. revert i acc.
  induction values as [|v rest IH]; intros i acc; simpl.
  - apply untouched_ret.
  - destruct (bool_decide (typeDef = None) && ast.is_nil v);
      [apply untouched_fail |].
    apply untouched_bind; [apply He | intros attr].
    destruct (decide (len (DataTypeList attr) ≠ 1)); [apply untouched_fail |].
    unfold index. destruct (names !! i) as [nm|] eqn:Hi.
    + assert (ast.Name nm = "_") as Hn.
      { rewrite Forall_forall in Hb. apply Hb.
        by eapply list_elem_of_lookup_2. }
      intros st. unfold bind, ret. rewrite bool_decide_eq_true_2 by done.
      apply IH.
    + intros st. done.
Qed.

Lemma untouched_valueSpecRest typeDef names acc :
  untouched (valueSpecRest cfg typeDef names acc).
Proof.
  revert typeDef acc. induction names as [|n rest IH];
    intros typeDef acc; simpl; silent_go.
Qed.

Lemma untouched_ParseValueSpec_blank names type_ values :
  Forall (fun n => ast.Name n = "_") names ->
  untouched (ParseValueSpec cfg names type_ values).
Proof.
  pose proof untouched_ExprParser as He.
  pose proof untouched_TypeParser as Ht.
  intros Hb.
  pose proof (fun typeDef attr i acc =>
                untouched_valueSpecTuple_blank typeDef attr names i acc Hb)
    as H1.
  pose proof (fun typeDef i acc =>
                untouched_valueSpecEach_blank typeDef names values i acc Hb)
    as H2.
  pose proof untouched_valueSpecRest as H3.
  unfold ParseValueSpec, valueSpecType, valueSpecSingle. silent_go.
Qed.

End Blank.

(** X23. The blank identifier is neither declared nor constrained: with
    collaborators that leave the state alone, an assignment (with [=] or
    [:=]) of as many values as there are left-hand sides, all of them [_]
    (possibly in parentheses), and a value spec all of whose names are [_],
    leave the whole state as it was: no symbol is added, no contract is
    emitted and [lastConstType] is not set, however they end. *)
Theorem blank_identifier_leaves_no_trace cfg st :
  collaborators_untouched cfg ->
  (forall lhs tok rhs,
     Forall (fun l => isBlank l = true) lhs ->
     len lhs = len rhs ->
     snd (Parse cfg (ast.AssignStmt lhs tok rhs) st) = st) /\
  (forall names type_ values,
     Forall (fun n => ast.Name n = "_") names ->
     snd (ParseValueSpec cfg names type_ values st) = st).
Proof.
  intros Hcfg. split.
  - intros lhs tok rhs Hb Hlen. simpl.
    unfold parseAssignStmt, assignRhsIndexer. cbv zeta.
    destruct (decide (len lhs ≠ len rhs)); [done|].
    unfold bind at 1, ret.
    by apply untouched_assignLoop_blank.
  - intros names type_ values Hb.
    by apply untouched_ParseValueSpec_blank.
Qed.

Lemma stub_collaborators_untouched : collaborators_untouched stub.config.
Proof.
  split; [| split]; intros x.
  - apply stub_ExprParser_untouched.
  - apply stub_TypeParser_untouched.
  - done.
Qed.

Lemma blank_identifier_leaves_no_trace_witness :
  collaborators_untouched stub.config /\
  Forall (fun l => isBlank l = true)
         [ast.Ident "_" 1; ast.ParenExpr (ast.Ident "_" 5)] /\
  len [ast.Ident "_" 1; ast.ParenExpr (ast.Ident "_" 5)]
  = len [ast.Ident "a" 10; ast.BasicLit "int" "1"] /\
  snd (Parse stub.config
         (ast.AssignStmt [ast.Ident "_" 1; ast.ParenExpr (ast.Ident "_" 5)]
                         token.DEFINE
                         [ast.Ident "a" 10; ast.BasicLit "int" "1"])
         scopeWithA) = scopeWithA.
Proof.
  assert (Forall (fun l => isBlank l = true)
                 [ast.Ident "_" 1; ast.ParenExpr (ast.Ident "_" 5)]) as Hb
    by (repeat constructor).
  split; [exact stub_collaborators_untouched |]. split; [exact Hb |].
  split; [reflexivity |].
  exact (proj1 (blank_identifier_leaves_no_trace stub.config scopeWithA
                  stub_collaborators_untouched)
               _ token.DEFINE _ Hb eq_refl).
Defined.

(** ** The type tag of a contract *)

(** X24. The type tag tells the kind of a contract: two contracts have
    the same [GetType] exactly when they are of the same kind, so a consumer
    may dispatch on the tag (the tags are compared as written: they differ
    in their use of capitals). *)
Theorem GetType_tells_the_kind c1 c2 :
  contracts.GetType c1 = contracts.GetType c2 <-> kind c1 = kind c2.
Proof. destruct c1, c2; split; intros H; (reflexivity || discriminate H). Qed.

(** ** The guard variable of a type switch *)

Lemma top_of_Push s :
  last (stack.Tables (stack.Push s)) = Some symboltable.NewTable.
Proof. unfold stack.Push. simpl. by rewrite last_snoc. Qed.

Lemma defer_bind_Ok {A} (d : M unit) (m1 : M unit) (m2 : M A) st st1 :
  m1 st = (Ok tt, st1) -> defer_ d (m1 ;; m2) st = defer_ d m2 st1.
Proof. intros H. unfold defer_. by rewrite (bind_Ok_eq _ _ _ _ _ H). Qed.



(** * Range, select and declarations without body, from [Parse] *)

Lemma bind_state_eq {A B} (m m' : M A) (k : A -> M B) st st' :
  m st = m' st' -> bind m k st = bind m' k st'.
Proof. intros H. unfold bind. by rewrite H. Qed.

Lemma defer_state_eq {A} (d : M unit) (m m' : M A) st st' :
  m st = m' st' -> defer_ d m st = defer_ d m' st'.
Proof. intros H. unfold defer_. by rewrite H. Qed.

Lemma defer_bind_Ok_gen {A B} (d : M unit) (m1 : M A) (k : A -> M B)
    st a st1 :
  m1 st = (Ok a, st1) -> defer_ d (bind m1 k) st = defer_ d (k a) st1.
Proof. intros H. unfold defer_. by rewrite (bind_Ok_eq _ _ _ _ _ H). Qed.

Lemma defer_Pop_Err {A} (m : M A) st e st1 s :
  m st = (Err e, st1) ->
  stack.Pop (SymbolTable st1) = (Ok tt, s) ->
  defer_ Pop m st = (Err e, set_SymbolTable s st1).
Proof.
  intros Hm Hp. unfold defer_, Pop, liftStack. by rewrite Hm, Hp.
Qed.

(** ** Range *)

(** [parseRangeStmt] up to the key: the iteration expression is parsed
    in the scope of the statement, the scope of the range is pushed,
    [IsRangeable] is emitted, the data type is resolved, and for a [Builtin]
    or an [Identifier] of any name the key and the value are processed with
    [int] and [rune]. *)
Lemma Parse_range_builtin_or_identifier
    cfg key value tok x body st xAttr st1 xTV tvs d0 ds resolved st2 :
  ExprParser_Parse cfg x st = (Ok xAttr, st1) ->
  TypeVarList xAttr = xTV :: tvs ->
  DataTypeList xAttr = d0 :: ds ->
  FindFirstNonidDataType cfg (rangeStripPointer d0)
    (snd (AddContract (contracts.IsRangeable xTV) (snd (Push st1))))
  = (Ok resolved, st2) ->
  (exists def u, resolved = gotypes.Builtin def u) \/
  (exists def pkg, resolved = gotypes.Identifier def pkg) ->
  Parse cfg (ast.RangeStmt key value tok x body) st
  = defer_ Pop
      (let* stop :=
         (let* stop := rangeKey cfg tok key (gotypes.Builtin "int" false) xTV in
          if stop then ret true
          else rangeValue cfg tok value
                          (Some (gotypes.Builtin "rune" false)) xTV) in
       if stop then ret tt else parseBlockStmt (Parse cfg) body) st2.
Proof.
  intros Hx Htv Hd Hres Hshape. simpl. unfold parseRangeStmt.
  rewrite (bind_Ok_eq _ _ _ _ _ Hx).
  rewrite (bind_Ok_eq Push _ st1 tt (snd (Push st1)) eq_refl).
  apply defer_state_eq, bind_state_eq.
  by apply (rangeBindings_builtin_or_identifier cfg key value tok xAttr
              (snd (Push st1)) xTV tvs d0 ds resolved st2).
Qed.

(** With [:=] and two identifiers: the scope the range has pushed holds
    neither, so both are bound. *)
Lemma Parse_range_define
    cfg k kp v vp x body st xAttr st1 xTV tvs d0 ds resolved st2 :
  ExprParser_Parse cfg x st = (Ok xAttr, st1) ->
  TypeVarList xAttr = xTV :: tvs ->
  DataTypeList xAttr = d0 :: ds ->
  FindFirstNonidDataType cfg (rangeStripPointer d0)
    (snd (AddContract (contracts.IsRangeable xTV) (snd (Push st1))))
  = (Ok resolved, st2) ->
  (exists def u, resolved = gotypes.Builtin def u) \/
  (exists def pkg, resolved = gotypes.Identifier def pkg) ->
  k <> "_" -> v <> "_" -> k <> v ->
  stack.wf (SymbolTable st1) ->
  SymbolTable st2 = stack.Push (SymbolTable st1) ->
  exists st3,
    Parse cfg (ast.RangeStmt (ast.Ident k kp) (ast.Ident v vp) token.DEFINE
                             x body) st
    = defer_ Pop (parseBlockStmt (Parse cfg) body) st3 /\
    contracts.Contracts (ContractTable st3)
    = (contracts.Contracts (ContractTable st2) ++
       [contracts.PropagatesTo
          (typevars.RangeKey xTV)
          (typevars.Variable_ (PackageName cfg) k (SymbolPos cfg kp))
          (Some (gotypes.Builtin "int" false));
        contracts.PropagatesTo
          (typevars.RangeValue xTV)
          (typevars.Variable_ (PackageName cfg) v (SymbolPos cfg vp))
          (Some (gotypes.Builtin "rune" false))])%list /\
    typeOfVariable k st3 = Some (gotypes.Builtin "int" false) /\
    typeOfVariable v st3 = Some (gotypes.Builtin "rune" false).
Proof.
  intros Hx Htv Hd Hres Hshape Hk Hv Hkv Hw Hs.
  assert (stack.wf (SymbolTable st2)) as Hw2
    by (rewrite Hs; by apply wf_Push).
  assert (last (stack.Tables (SymbolTable st2)) = Some symboltable.NewTable)
    as Hl2 by (rewrite Hs; apply top_of_Push).
  destruct (rangeDefine_int_rune cfg xTV k kp v vp st2 symboltable.NewTable
              Hk Hv Hkv Hw2 Hl2 (lookup_empty _) (lookup_empty _))
    as (st3 & Hr & Hc & Hki & Hvi).
  exists st3. split; [| by repeat split].
  rewrite (Parse_range_builtin_or_identifier cfg (ast.Ident k kp)
             (ast.Ident v vp) token.DEFINE x body st xAttr st1 xTV tvs d0 ds
             resolved st2 Hx Htv Hd Hres Hshape).
  exact (defer_bind_Ok_gen Pop _
           (fun stop : bool =>
              if stop then ret tt else parseBlockStmt (Parse cfg) body)
           st2 false st3 Hr).
Qed.

(** Whatever the data type of the iteration expression, [IsRangeable] on
    its type variable is the first contract after those of the parse of the
    expression, and it stays. *)
Lemma Parse_range_IsRangeable cfg key value tok x body st xAttr st1 xTV tvs :
  collaborators_keep cfg ->
  ExprParser_Parse cfg x st = (Ok xAttr, st1) ->
  TypeVarList xAttr = xTV :: tvs ->
  (contracts.Contracts (ContractTable st1) ++ [contracts.IsRangeable xTV])%list
  `prefix_of`
  contracts.Contracts
    (ContractTable (snd (Parse cfg (ast.RangeStmt key value tok x body) st))).
Proof.
  intros Hcfg Hx Htv. simpl. unfold parseRangeStmt.
  rewrite (bind_Ok_eq _ _ _ _ _ Hx).
  rewrite (bind_Ok_eq Push _ st1 tt (snd (Push st1)) eq_refl).
  unfold rangeBindings.
  set (st_r := snd (AddContract (contracts.IsRangeable xTV) (snd (Push st1)))).
  set (rest :=
         let* stop :=
           (let* d0 := index (DataTypeList xAttr) 0 in
            let* rangeExpr :=
              FindFirstNonidDataType cfg (rangeStripPointer d0) in
            let* kv := rangeKeyValue rangeExpr in
            let* stop := rangeKey cfg tok key (fst kv) xTV in
            if stop then ret true
            else rangeValue cfg tok value (snd kv) xTV) in
         if stop then ret tt else parseBlockStmt (Parse cfg) body).
  assert (keeps (defer_ Pop rest)) as Hk.
  { pose proof (keeps_FindFirstNonid cfg Hcfg) as Hf.
    pose proof (fun d => keeps_rangeKeyValue d) as Hkv.
    pose proof (keeps_rangeKey cfg Hcfg) as Hrk.
    pose proof (keeps_rangeValue cfg Hcfg) as Hrv.
    assert (keeps (parseBlockStmt (Parse cfg) body)) as Hb.
    { apply keeps_parseBlockStmt. apply Forall_forall. intros s _.
      by apply keeps_Parse. }
    unfold rest. keeps_go. }
  assert (defer_ Pop
            (let* stop :=
               (let* xTypeVar := index (TypeVarList xAttr) 0 in
                AddContract (contracts.IsRangeable xTypeVar) ;;
                let* d0 := index (DataTypeList xAttr) 0 in
                let* rangeExpr :=
                  FindFirstNonidDataType cfg (rangeStripPointer d0) in
                let* kv := rangeKeyValue rangeExpr in
                let* stop := rangeKey cfg tok key (fst kv) xTypeVar in
                if stop then ret true
                else rangeValue cfg tok value (snd kv) xTypeVar) in
             if stop then ret tt else parseBlockStmt (Parse cfg) body)
            (snd (Push st1))
          = defer_ Pop rest st_r) as ->.
  { apply defer_state_eq. unfold rest. apply bind_state_eq.
    rewrite (bind_Ok_eq _ _ _ _ _ (index_cons_Ok _ _ _ _ Htv)).
    by rewrite (bind_Ok_eq (AddContract (contracts.IsRangeable xTV)) _ _ tt
                  st_r eq_refl). }
  destruct (Hk st_r) as [[Hp _] _]. exact Hp.
Qed.

(** C6.  For a range statement whose iteration expression parses:
    [parseRangeStmt] pushes the scope of the range and emits [IsRangeable]
    on the type variable of the expression, a contract that is still there
    when it returns; it resolves the data type of the expression with at
    most one pointer removed through [FindFirstNonidDataType] (which follows
    identifiers to the first data type that is not one).  When the resolved
    type is [Builtin{string}] or an identifier named [string], the key type
    is [Builtin{int}] and the value type [Builtin{rune}]: the key and value
    positions are processed with them, and with [:=] and two identifiers,
    which the scope just pushed cannot hold, the key is bound to [int] and
    the value to [rune] with [PropagatesTo] contracts whose expected types
    they are, before the body is parsed. *)
Theorem range_over_string
    cfg key value tok x body st xAttr st1 xTV tvs d0 ds resolved st2 :
  ExprParser_Parse cfg x st = (Ok xAttr, st1) ->
  TypeVarList xAttr = xTV :: tvs ->
  DataTypeList xAttr = d0 :: ds ->
  FindFirstNonidDataType cfg (rangeStripPointer d0)
    (snd (AddContract (contracts.IsRangeable xTV) (snd (Push st1))))
  = (Ok resolved, st2) ->
  (exists u, resolved = gotypes.Builtin "string" u) \/
  (exists pkg, resolved = gotypes.Identifier "string" pkg) ->
  (collaborators_keep cfg ->
   (contracts.Contracts (ContractTable st1) ++
    [contracts.IsRangeable xTV])%list
   `prefix_of`
   contracts.Contracts
     (ContractTable
        (snd (Parse cfg (ast.RangeStmt key value tok x body) st)))) /\
  (forall d, rangeStripPointer (gotypes.Pointer (gotypes.Pointer d))
             = gotypes.Pointer d) /\
  Parse cfg (ast.RangeStmt key value tok x body) st
  = defer_ Pop
      (let* stop :=
         (let* stop := rangeKey cfg tok key (gotypes.Builtin "int" false) xTV in
          if stop then ret true
          else rangeValue cfg tok value
                          (Some (gotypes.Builtin "rune" false)) xTV) in
       if stop then ret tt else parseBlockStmt (Parse cfg) body) st2 /\
  (forall k kp v vp,
     key = ast.Ident k kp -> value = ast.Ident v vp -> tok = token.DEFINE ->
     k <> "_" -> v <> "_" -> k <> v ->
     stack.wf (SymbolTable st1) ->
     SymbolTable st2 = stack.Push (SymbolTable st1) ->
     exists st3,
       Parse cfg (ast.RangeStmt key value tok x body) st
       = defer_ Pop (parseBlockStmt (Parse cfg) body) st3 /\
       contracts.Contracts (ContractTable st3)
       = (contracts.Contracts (ContractTable st2) ++
          [contracts.PropagatesTo
             (typevars.RangeKey xTV)
             (typevars.Variable_ (PackageName cfg) k (SymbolPos cfg kp))
             (Some (gotypes.Builtin "int" false));
           contracts.PropagatesTo
             (typevars.RangeValue xTV)
             (typevars.Variable_ (PackageName cfg) v (SymbolPos cfg vp))
             (Some (gotypes.Builtin "rune" false))])%list /\
       typeOfVariable k st3 = Some (gotypes.Builtin "int" false) /\
       typeOfVariable v st3 = Some (gotypes.Builtin "rune" false)).
Proof.
  intros Hx Htv Hd Hres Hshape.
  assert ((exists def u, resolved = gotypes.Builtin def u) \/
          (exists def pkg, resolved = gotypes.Identifier def pkg)) as Hshape'.
  { destruct Hshape as [[u ->]|[pkg ->]]; eauto. }
  split.
  { intros Hcfg. by eapply Parse_range_IsRangeable. }
  split; [done |]. split.
  { by eapply Parse_range_builtin_or_identifier. }
  intros k kp v vp -> -> -> Hk Hv Hkv Hw Hs.
  by eapply Parse_range_define.
Qed.

Lemma range_over_string_witness :
  let d := gotypes.Builtin "string" false in
  ExprParser_Parse stub.config (ast.Ident "s" 30) (scopeWithS d)
  = (Ok (attrOfS d), scopeWithS d) /\
  exists st3,
    Parse stub.config rangeOverS (scopeWithS d)
    = defer_ Pop (parseBlockStmt (Parse stub.config)
                                 [ast.ExprStmt (ast.Ident "c" 40)]) st3 /\
    typeOfVariable "i" st3 = Some (gotypes.Builtin "int" false) /\
    typeOfVariable "c" st3 = Some (gotypes.Builtin "rune" false) /\
    fst (Parse stub.config rangeOverS (scopeWithS d)) = Ok tt.
Proof.
  intros d.
  assert (ExprParser_Parse stub.config (ast.Ident "s" 30) (scopeWithS d)
          = (Ok (attrOfS d), scopeWithS d)) as Hx by (vm_compute; reflexivity).
  split; [exact Hx |].
  destruct (range_over_string stub.config (ast.Ident "i" 20)
              (ast.Ident "c" 23) token.DEFINE (ast.Ident "s" 30)
              [ast.ExprStmt (ast.Ident "c" 40)] (scopeWithS d)
              (attrOfS d) (scopeWithS d)
              (typevars.Variable_ "main" "s" "main.go:3") [] d [] d
              (snd (AddContract
                      (contracts.IsRangeable
                         (typevars.Variable_ "main" "s" "main.go:3"))
                      (snd (Push (scopeWithS d)))))
              Hx eq_refl eq_refl eq_refl
              (or_introl (ex_intro _ false eq_refl)))
    as (_ & _ & _ & H).
  destruct (H "i" 20 "c" 23) as (st3 & Hr & _ & Hi & Hc);
    try reflexivity; try discriminate.
  exists st3. split; [exact Hr |]. split; [exact Hi |].
  split; [exact Hc |]. vm_compute. reflexivity.
Defined.

(** C10.  When the resolved type is a [Builtin] or an [Identifier] whose
    name is not [string], the error value built for it is dropped: the
    derivation returns no error, the key type is still [Builtin{int}] and
    the value type [Builtin{rune}]; [parseRangeStmt] goes on with them as
    for [string]: a range with no key and no value goes on to its body, and
    with [:=] and two identifiers the key is bound to [int] and the value to
    [rune] before the body is parsed. *)
Theorem range_over_not_string
    cfg key value tok x body st xAttr st1 xTV tvs d0 ds resolved st2 :
  ExprParser_Parse cfg x st = (Ok xAttr, st1) ->
  TypeVarList xAttr = xTV :: tvs ->
  DataTypeList xAttr = d0 :: ds ->
  FindFirstNonidDataType cfg (rangeStripPointer d0)
    (snd (AddContract (contracts.IsRangeable xTV) (snd (Push st1))))
  = (Ok resolved, st2) ->
  (exists def u, def <> "string" /\ resolved = gotypes.Builtin def u) \/
  (exists def pkg, def <> "string" /\ resolved = gotypes.Identifier def pkg) ->
  rangeKeyValue resolved st2
  = (Ok (gotypes.Builtin "int" false, Some (gotypes.Builtin "rune" false)),
     st2) /\
  Parse cfg (ast.RangeStmt key value tok x body) st
  = defer_ Pop
      (let* stop :=
         (let* stop := rangeKey cfg tok key (gotypes.Builtin "int" false) xTV in
          if stop then ret true
          else rangeValue cfg tok value
                          (Some (gotypes.Builtin "rune" false)) xTV) in
       if stop then ret tt else parseBlockStmt (Parse cfg) body) st2 /\
  (key = ast.NilExpr -> value = ast.NilExpr ->
   Parse cfg (ast.RangeStmt key value tok x body) st
   = defer_ Pop (parseBlockStmt (Parse cfg) body) st2) /\
  (forall k kp v vp,
     key = ast.Ident k kp -> value = ast.Ident v vp -> tok = token.DEFINE ->
     k <> "_" -> v <> "_" -> k <> v ->
     stack.wf (SymbolTable st1) ->
     SymbolTable st2 = stack.Push (SymbolTable st1) ->
     exists st3,
       Parse cfg (ast.RangeStmt key value tok x body) st
       = defer_ Pop (parseBlockStmt (Parse cfg) body) st3 /\
       contracts.Contracts (ContractTable st3)
       = (contracts.Contracts (ContractTable st2) ++
          [contracts.PropagatesTo
             (typevars.RangeKey xTV)
             (typevars.Variable_ (PackageName cfg) k (SymbolPos cfg kp))
             (Some (gotypes.Builtin "int" false));
           contracts.PropagatesTo
             (typevars.RangeValue xTV)
             (typevars.Variable_ (PackageName cfg) v (SymbolPos cfg vp))
             (Some (gotypes.Builtin "rune" false))])%list /\
       typeOfVariable k st3 = Some (gotypes.Builtin "int" false) /\
       typeOfVariable v st3 = Some (gotypes.Builtin "rune" false)).
Proof.
  intros Hx Htv Hd Hres Hshape.
  assert ((exists def u, resolved = gotypes.Builtin def u) \/
          (exists def pkg, resolved = gotypes.Identifier def pkg)) as Hshape'.
  { destruct Hshape as [(def & u & _ & ->)|(def & pkg & _ & ->)]; eauto. }
  pose proof (Parse_range_builtin_or_identifier cfg key value tok x body st
                xAttr st1 xTV tvs d0 ds resolved st2 Hx Htv Hd Hres Hshape')
    as Heq.
  split.
  { by destruct Hshape as [(def & u & _ & ->)|(def & pkg & _ & ->)]. }
  split; [exact Heq |]. split.
  { intros -> ->. rewrite Heq.
    exact (defer_bind_Ok_gen Pop _
             (fun stop : bool =>
                if stop then ret tt else parseBlockStmt (Parse cfg) body)
             st2 false st2 eq_refl). }
  intros k kp v vp -> -> -> Hk Hv Hkv Hw Hs.
  by eapply Parse_range_define.
Qed.

Lemma range_over_not_string_witness :
  let d := gotypes.Builtin "int" false in
  ExprParser_Parse stub.config (ast.Ident "s" 30) (scopeWithS d)
  = (Ok (attrOfS d), scopeWithS d) /\
  exists st3,
    Parse stub.config rangeOverS (scopeWithS d)
    = defer_ Pop (parseBlockStmt (Parse stub.config)
                                 [ast.ExprStmt (ast.Ident "c" 40)]) st3 /\
    typeOfVariable "i" st3 = Some (gotypes.Builtin "int" false) /\
    typeOfVariable "c" st3 = Some (gotypes.Builtin "rune" false) /\
    fst (Parse stub.config rangeOverS (scopeWithS d)) = Ok tt.
Proof.
  intros d.
  assert (ExprParser_Parse stub.config (ast.Ident "s" 30) (scopeWithS d)
          = (Ok (attrOfS d), scopeWithS d)) as Hx by (vm_compute; reflexivity).
  assert ((exists def u, def <> "string" /\ d = gotypes.Builtin def u) \/
          (exists def pkg,
             def <> "string" /\ d = gotypes.Identifier def pkg)) as Hshape.
  { left. exists "int", false. split; [discriminate | reflexivity]. }
  split; [exact Hx |].
  destruct (range_over_not_string stub.config (ast.Ident "i" 20)
              (ast.Ident "c" 23) token.DEFINE (ast.Ident "s" 30)
              [ast.ExprStmt (ast.Ident "c" 40)] (scopeWithS d)
              (attrOfS d) (scopeWithS d)
              (typevars.Variable_ "main" "s" "main.go:3") [] d [] d
              (snd (AddContract
                      (contracts.IsRangeable
                         (typevars.Variable_ "main" "s" "main.go:3"))
                      (snd (Push (scopeWithS d)))))
              Hx eq_refl eq_refl eq_refl Hshape)
    as (_ & _ & _ & H).
  destruct (H "i" 20 "c" 23) as (st3 & Hr & _ & Hi & Hc);
    try reflexivity; try discriminate.
  exists st3. split; [exact Hr |]. split; [exact Hi |].
  split; [exact Hc |]. vm_compute. reflexivity.
Defined.

(** ** Receive clauses of a select statement, from [Parse] *)

Lemma bind_Err_eq {A B} (m : M A) (k : A -> M B) st e st1 :
  m st = (Err e, st1) -> bind m k st = (Err e, st1).
Proof. intros H. unfold bind. by rewrite H. Qed.

Lemma bind_ret_tt (m : M unit) st : (m ;; ret tt) st = m st.
Proof. unfold bind, ret. by destruct (m st) as [[[]|e|p] st1]. Qed.

Lemma Pop_Push_state st :
  stack.wf (SymbolTable st) ->
  stack.Pop (SymbolTable (snd (Push st))) = (Ok tt, SymbolTable st).
Proof.
  intros Hw. simpl. apply Pop_Below_Push; [done |].
  by apply Below_refl, wf_Push.
Qed.

Lemma set_SymbolTable_Push st :
  set_SymbolTable (SymbolTable st) (snd (Push st)) = st.
Proof. by destruct st. Qed.

(** C8.  For a select statement whose first clause is a receive clause
    [case lhs tok <-x] with one or two left-hand sides: [parseSelectStmt]
    runs the clause in a scope of its own, where [x] is parsed; when [x] is
    of a channel type, a virtual variable [y] with the next free index is
    allocated and [IsReceiveableFrom(chanTV, y)] is emitted before the
    left-hand sides are processed; with [:=] and two identifiers, which the
    scope just pushed cannot hold, the first is bound with the element type
    of the channel and [PropagatesTo(y, b1)] is emitted, the second is bound
    with [Builtin{bool}] and [PropagatesTo(Constant(Builtin{bool}), b2)] is
    emitted, and the body of the clause is parsed with both.  A right-hand
    side that is not a single [<-x], or whose [x] has not a single channel
    type, makes [Parse] of the select statement return an error. *)
Theorem select_receive_clause :
  (forall cfg lhs tok x body rest st attr st1 dir value chanTV tvs,
     ExprParser_Parse cfg x (snd (Push st)) = (Ok attr, st1) ->
     DataTypeList attr = [gotypes.Channel dir value] ->
     TypeVarList attr = chanTV :: tvs ->
     (length lhs = 1 \/ length lhs = 2)%nat ->
     let clause :=
       ast.CommClause
         (Some (ast.AssignStmt lhs tok [ast.UnaryExpr token.ARROW x])) body in
     let y := typevars.VirtualVar
                (contracts.NextVirtual (ContractTable st1)) in
     let st2 := snd (AddContract (contracts.IsReceiveableFrom chanTV y None)
                                 (snd (NewVirtualVar st1))) in
     contracts.Contracts (ContractTable st2)
     = (contracts.Contracts (ContractTable st1) ++
        [contracts.IsReceiveableFrom chanTV y None])%list /\
     contracts.NextVirtual (ContractTable st2)
     = contracts.NextVirtual (ContractTable st1) + 1 /\
     Parse cfg (ast.SelectStmt (clause :: rest)) st
     = (selectClause cfg (Parse cfg) clause ;;
        Parse cfg (ast.SelectStmt rest)) st /\
     selectClause cfg (Parse cfg) clause st
     = defer_ Pop (selectRecvLhs cfg lhs tok value y ;;
                   parseBody (Parse cfg) body) st2 /\
     (forall name1 pos1 name2 pos2,
        lhs = [ast.Ident name1 pos1; ast.Ident name2 pos2] ->
        tok = token.DEFINE ->
        name1 <> name2 ->
        stack.wf (SymbolTable st) ->
        SymbolTable st1 = stack.Push (SymbolTable st) ->
        exists st3,
          selectClause cfg (Parse cfg) clause st
          = defer_ Pop (parseBody (Parse cfg) body) st3 /\
          Parse cfg (ast.SelectStmt [clause]) st
          = defer_ Pop (parseBody (Parse cfg) body) st3 /\
          contracts.Contracts (ContractTable st3)
          = (contracts.Contracts (ContractTable st1) ++
             [contracts.IsReceiveableFrom chanTV y None;
              contracts.PropagatesTo
                y (typevars.Variable_ (PackageName cfg) name1
                                      (SymbolPos cfg pos1)) None;
              contracts.PropagatesTo
                (typevars.Constant "builtin" (gotypes.Builtin "bool" false))
                (typevars.Variable_ (PackageName cfg) name2
                                    (SymbolPos cfg pos2)) None])%list /\
          typeOfVariable name1 st3 = Some value /\
          typeOfVariable name2 st3 = Some (gotypes.Builtin "bool" false))) /\
  (forall cfg lhs tok rhs body rest st,
     stack.wf (SymbolTable st) ->
     (forall x, rhs <> [ast.UnaryExpr token.ARROW x]) ->
     exists e,
       Parse cfg
         (ast.SelectStmt
            (ast.CommClause (Some (ast.AssignStmt lhs tok rhs)) body :: rest))
         st = (Err e, st)) /\
  (forall cfg lhs tok x body rest st attr st1,
     stack.wf (SymbolTable st) ->
     ExprParser_Parse cfg x (snd (Push st)) = (Ok attr, st1) ->
     SymbolTable st1 = stack.Push (SymbolTable st) ->
     (forall dir value, DataTypeList attr <> [gotypes.Channel dir value]) ->
     exists e,
       Parse cfg
         (ast.SelectStmt
            (ast.CommClause
               (Some (ast.AssignStmt lhs tok [ast.UnaryExpr token.ARROW x]))
               body :: rest))
         st = (Err e, set_SymbolTable (SymbolTable st) st1)).
Proof.
  destruct selectRecv_receive as (Hrecv & Hrhs & Hchan).
  split; [| split].
  - intros cfg lhs tok x body rest st attr st1 dir value chanTV tvs
      Hx Hd Htv Hlen clause y st2.
    destruct (Hrecv cfg lhs tok x (snd (Push st)) attr st1 dir value chanTV
                tvs Hx Hd Htv Hlen) as (Hc & Hn & Heq & Hdef).
    split; [exact Hc |]. split; [exact Hn |]. split; [reflexivity |].
    assert (selectClause cfg (Parse cfg) clause st
            = defer_ Pop
                (selectComm cfg
                   (ast.AssignStmt lhs tok [ast.UnaryExpr token.ARROW x]) ;;
                 parseBody (Parse cfg) body) (snd (Push st))) as Hclause.
    { unfold selectClause, clause.
      by rewrite (bind_Ok_eq Push _ st tt (snd (Push st)) eq_refl). }
    split.
    { rewrite Hclause. apply defer_state_eq, bind_state_eq. exact Heq. }
    intros name1 pos1 name2 pos2 Hlhs Htok Hne Hw Hs.
    destruct (Hdef name1 pos1 name2 pos2 symboltable.NewTable Hlhs Htok Hne)
      as (st3 & Hr & Hc3 & Hv1 & Hv2).
    + rewrite Hs. by apply wf_Push.
    + rewrite Hs. apply top_of_Push.
    + apply lookup_empty.
    + apply lookup_empty.
    + exists st3.
      assert (selectClause cfg (Parse cfg) clause st
              = defer_ Pop (parseBody (Parse cfg) body) st3) as Hfin.
      { rewrite Hclause. apply defer_bind_Ok. exact Hr. }
      split; [exact Hfin |]. split; [| by repeat split].
      rewrite <- Hfin. simpl. unfold parseSelectStmt. simpl.
      apply bind_ret_tt.
  - intros cfg lhs tok rhs body rest st Hw Hnot.
    destruct (Hrhs cfg lhs tok rhs (snd (Push st)) Hnot) as (e & He).
    exists e. simpl. unfold parseSelectStmt. simpl.
    apply bind_Err_eq. unfold selectClause.
    rewrite (bind_Ok_eq Push _ st tt (snd (Push st)) eq_refl).
    rewrite (defer_Pop_Err _ _ e (snd (Push st)) (SymbolTable st)).
    + by rewrite set_SymbolTable_Push.
    + by apply bind_Err_eq.
    + by apply Pop_Push_state.
  - intros cfg lhs tok x body rest st attr st1 Hw Hx Hs Hnot.
    destruct (Hchan cfg lhs tok x (snd (Push st)) attr st1 Hx Hnot)
      as (e & He).
    exists e. simpl. unfold parseSelectStmt. simpl.
    apply bind_Err_eq. unfold selectClause.
    rewrite (bind_Ok_eq Push _ st tt (snd (Push st)) eq_refl).
    apply defer_Pop_Err.
    + by apply bind_Err_eq.
    + rewrite Hs. apply Pop_Below_Push; [done |].
      by apply Below_refl, wf_Push.
Qed.

Lemma select_receive_clause_witness :
  ExprParser_Parse stub.config (ast.Ident "ch" 31) (snd (Push scopeWithCh))
  = (Ok (mkExprAttr [gotypes.Channel "" (gotypes.Builtin "int" false)]
                    [typevars.Variable_ "main" "ch" "main.go:3"]),
     snd (Push scopeWithCh)) /\
  exists st3,
    Parse stub.config (ast.SelectStmt [receiveClause]) scopeWithCh
    = defer_ Pop (parseBody (Parse stub.config)
                            [ast.ExprStmt (ast.Ident "v" 40)]) st3 /\
    contracts.Contracts (ContractTable st3)
    = [contracts.IsReceiveableFrom
         (typevars.Variable_ "main" "ch" "main.go:3")
         (typevars.VirtualVar 0) None;
       contracts.PropagatesTo
         (typevars.VirtualVar 0)
         (typevars.Variable_ "main" "v" "main.go:20") None;
       contracts.PropagatesTo
         (typevars.Constant "builtin" (gotypes.Builtin "bool" false))
         (typevars.Variable_ "main" "ok" "main.go:23") None] /\
    typeOfVariable "v" st3 = Some (gotypes.Builtin "int" false) /\
    typeOfVariable "ok" st3 = Some (gotypes.Builtin "bool" false) /\
    fst (Parse stub.config (ast.SelectStmt [receiveClause]) scopeWithCh)
    = Ok tt.
Proof.
  assert (ExprParser_Parse stub.config (ast.Ident "ch" 31)
                           (snd (Push scopeWithCh))
          = (Ok (mkExprAttr [gotypes.Channel "" (gotypes.Builtin "int" false)]
                            [typevars.Variable_ "main" "ch" "main.go:3"]),
             snd (Push scopeWithCh))) as Hx by (vm_compute; reflexivity).
  assert (stack.wf (SymbolTable scopeWithCh)) as Hw
    by (vm_compute; reflexivity).
  split; [exact Hx |].
  destruct (proj1 select_receive_clause stub.config
              [ast.Ident "v" 20; ast.Ident "ok" 23] token.DEFINE
              (ast.Ident "ch" 31) [ast.ExprStmt (ast.Ident "v" 40)] []
              scopeWithCh
              (mkExprAttr [gotypes.Channel "" (gotypes.Builtin "int" false)]
                          [typevars.Variable_ "main" "ch" "main.go:3"])
              (snd (Push scopeWithCh)) "" (gotypes.Builtin "int" false)
              (typevars.Variable_ "main" "ch" "main.go:3") []
              Hx eq_refl eq_refl (or_intror eq_refl))
    as (_ & _ & _ & _ & H).
  destruct (H "v" 20 "ok" 23 eq_refl eq_refl) as (st3 & _ & Hp & Hc & Hv & Hok).
  - discriminate.
  - exact Hw.
  - reflexivity.
  - exists st3. split; [exact Hp |]. split; [exact Hc |].
    split; [exact Hv |]. split; [exact Hok |]. vm_compute. reflexivity.
Defined.

(** ** A declaration without a body *)

(** C9, as the code has it.  For a [FuncDecl] whose [Body] is [nil],
    [ParseFuncBody] pushes the header scope and binds the header variables.
    When that succeeds it pushes and pops the body scope, pops the header
    scope and returns [nil]: the state is the one the header binder reached
    (its contracts emitted, nothing else added, no statement parsed) with
    the stack as before the call.  When the header binder returns an error
    (the receiver type is not known yet, a type does not parse),
    [ParseFuncBody] returns that error, wrapped, with the header scope
    popped; the body scope is not pushed. *)
Theorem ParseFuncBody_without_body cfg funcDecl st :
  collaborators_frame cfg ->
  stack.wf (SymbolTable st) ->
  ast.Body funcDecl = None ->
  ParseFuncBody cfg funcDecl st
  = match parseFuncHeadVariables cfg funcDecl (snd (Push st)) with
    | (Ok _, st1) => (Ok tt, set_SymbolTable (SymbolTable st) st1)
    | (Err e, st1) =>
        (Err (Wrapf "sp.ParseFuncBody" e),
         set_SymbolTable (SymbolTable st) st1)
    | (Panic p, st1) => (Panic p, st1)
    end.
Proof.
  intros Hcfg Hw Hbody. unfold ParseFuncBody.
  rewrite (bind_Ok_eq Push _ st tt (snd (Push st)) eq_refl).
  pose proof (frames_parseFuncHeadVariables cfg Hcfg funcDecl (snd (Push st))
                (wf_Push _ Hw)) as Hh.
  unfold bind at 1, try_.
  destruct (parseFuncHeadVariables cfg funcDecl (snd (Push st)))
    as [[[]|e|p] st1]; simpl in Hh; [| | done].
  - rewrite Hbody.
    rewrite (bind_Ok_eq Push _ st1 tt (snd (Push st1)) eq_refl).
    unfold defer_, ret, bind, Pop, liftStack. simpl.
    rewrite (Pop_Below_Push (SymbolTable st1) (stack.Push (SymbolTable st1)))
      by (apply Hh || apply Below_refl, wf_Push, Hh).
    simpl. rewrite (Pop_Below_Push (SymbolTable st) (SymbolTable st1)) by done.
    done.
  - unfold bind, Pop, liftStack, fail.
    rewrite (Pop_Below_Push (SymbolTable st) (SymbolTable st1)) by done.
    done.
Qed.

Lemma ParseFuncBody_without_body_witness :
  collaborators_frame stub.config /\
  stack.wf (SymbolTable stub.fileState) /\
  ast.Body (addDecl None) = None /\
  length (contracts.Contracts
            (ContractTable
               (snd (parseFuncHeadVariables stub.config (addDecl None)
                       (snd (Push stub.fileState)))))) = 3%nat /\
  ParseFuncBody stub.config (addDecl None) stub.fileState
  = match parseFuncHeadVariables stub.config (addDecl None)
            (snd (Push stub.fileState)) with
    | (Ok _, st1) => (Ok tt, set_SymbolTable (SymbolTable stub.fileState) st1)
    | (Err e, st1) =>
        (Err (Wrapf "sp.ParseFuncBody" e),
         set_SymbolTable (SymbolTable stub.fileState) st1)
    | (Panic p, st1) => (Panic p, st1)
    end.
Proof.
  assert (stack.wf (SymbolTable stub.fileState)) as Hw by reflexivity.
  split; [exact stub_collaborators_frame |]. split; [exact Hw |].
  split; [reflexivity |]. split; [vm_compute; reflexivity |].
  exact (ParseFuncBody_without_body stub.config (addDecl None) stub.fileState
           stub_collaborators_frame Hw eq_refl).
Defined.

(** C9 as stated fails: the method [func (r T) m()] without body, where
    [T] is not declared yet; the header binder returns an error for the
    receiver and [ParseFuncBody] returns it, not [nil]; no contract is
    emitted. *)
Lemma nil_body_header_error_counterexample :
  ast.Body externMethodOfUnknown = None /\
  fst (ParseFuncBody stub.config externMethodOfUnknown stub.fileState)
  = Err (Wrapf "sp.ParseFuncBody"
           (Wrapf "sp.parseReceiver" (Errorf "Symbol not found"))) /\
  is_Ok (fst (ParseFuncBody stub.config externMethodOfUnknown
                            stub.fileState)) = false /\
  contracts.Contracts
    (ContractTable
       (snd (ParseFuncBody stub.config externMethodOfUnknown stub.fileState)))
  = [].
Proof. repeat split; vm_compute; reflexivity. Qed.

(** ** The header of [PostForm] *)

Lemma resolvingTypeParser_untouched pkg e :
  untouched (resolvingTypeParser pkg e).
Proof.
  pose proof untouched_LookupVariable as Hl.
  induction e as [|name pos|x IH|x IH sel|x IH|x IHx i IHi|f IHf args|x IH t IHt
                 |op x IH|x IHx op y IHy|k v|t IH elts]; simpl;
    try apply untouched_fail.
  - destruct (bool_decide _); [apply untouched_ret |].
    apply untouched_bind; [apply untouched_try, Hl |].
    intros [err|d]; [apply untouched_ret | apply untouched_fail].
  - destruct x; try apply untouched_fail.
    apply untouched_bind; [apply untouched_try, Hl |].
    intros [err|d]; [apply untouched_ret | apply untouched_fail].
  - apply untouched_bind; [exact IH | intros d; apply untouched_ret].
Qed.

(** The run on [PostForm]: the type [url.Values] of [data] is parsed
    against the stack of the call, where [url] is no variable; on the final
    stack, where the parameter [url] is declared, it does not parse. *)
Lemma header_variables_declared_at_the_end_witness :
  (forall e, stackSame (TypeParser_Parse resolvingConfig e)) /\
  ast.Recv postForm = None /\
  parseFuncHeadVariables resolvingConfig postForm stub.bodyState
  = (Ok tt, stub.exec (parseFuncHeadVariables resolvingConfig postForm)
                      stub.bodyState) /\
  fst (TypeParser_Parse resolvingConfig urlValues stub.bodyState)
  = Ok (gotypes.Identifier "Values" "url") /\
  fst (TypeParser_Parse resolvingConfig urlValues
         (stub.exec (parseFuncHeadVariables resolvingConfig postForm)
                    stub.bodyState))
  = Err (Errorf "not a package") /\
  typeOfVariable "data"
    (stub.exec (parseFuncHeadVariables resolvingConfig postForm)
               stub.bodyState)
  = Some (gotypes.Identifier "Values" "url") /\
  exists groups,
    Forall2 (parsedAgainst resolvingConfig (SymbolTable stub.bodyState))
            (default [] (ast.Params postForm) ++
             default [] (ast.Results postForm))%list
            groups /\
    map gotypes.Name (concat groups) =
      (fieldNames (default [] (ast.Params postForm)) ++
       fieldNames (default [] (ast.Results postForm)))%list /\
    Forall (fun s => gotypes.Package s = "") (concat groups) /\
    SymbolTable (stub.exec (parseFuncHeadVariables resolvingConfig postForm)
                           stub.bodyState) =
      declareAll (map DeclVariable (concat groups))
                 (SymbolTable stub.bodyState).
Proof.
  assert (forall e, stackSame (TypeParser_Parse resolvingConfig e)) as Ht.
  { intros e st. simpl. by rewrite resolvingTypeParser_untouched. }
  assert (parseFuncHeadVariables resolvingConfig postForm stub.bodyState
          = (Ok tt,
             stub.exec (parseFuncHeadVariables resolvingConfig postForm)
                       stub.bodyState)) as H by (vm_compute; reflexivity).
  split; [exact Ht |]. split; [reflexivity |]. split; [exact H |].
  split; [vm_compute; reflexivity |]. split; [vm_compute; reflexivity |].
  split; [vm_compute; reflexivity |].
  exact (header_variables_declared_at_the_end resolvingConfig postForm
           stub.bodyState _ Ht eq_refl H).
Defined.
